(** * Quota and subscription engine: shallow embedding and verified properties

    The development embeds [services/quotaService.ts] (the wallet / usage /
    subscription / webhook model) together with [config/quotaConfig.ts]
    (the plan catalog).  The Firestore database is a record of finite maps,
    one per collection; every service method is a function from the store to
    a result and a new store.  JavaScript built-ins the service relies on
    ([String.prototype.toUpperCase], [Date.UTC], [crypto.createHash], ...)
    are given executable models in their own modules.

    Conventions of the embedding:
    - the quantities [quota_total], [quota_used] and [amount] are integers;
    - a method reads the clock once: [now] is an argument, and every
      timestamp the method writes is [JSDate.format now];
    - the id Firestore assigns to a new wallet document is some id no
      wallet document has ([fresh]);
    - a transaction is its body run on the store, without interleaving;
    - string fields that may be [null] are [option string]. *)

From stdpp Require Import gmap strings list fin_maps infinite.
From Stdlib Require Import Ascii ZArith Lia.

(** ** JavaScript string primitives

    A [string] is the UTF-8 byte sequence of the JavaScript string.  Case
    mapping and trimming act on the ASCII range only; bytes above 127 are
    left as they are. *)
Module JS.

Definition lower_ascii (c : ascii) : ascii :=
  let n := N_of_ascii c in
  if ((65 <=? n) && (n <=? 90))%N then ascii_of_N (n + 32) else c.

Definition upper_ascii (c : ascii) : ascii :=
  let n := N_of_ascii c in
  if ((97 <=? n) && (n <=? 122))%N then ascii_of_N (n - 32) else c.

Fixpoint map_string (f : ascii → ascii) (s : string) : string :=
  match s with
  | EmptyString => EmptyString
  | String c s' => String (f c) (map_string f s')
  end.

Definition toLowerCase : string → string := map_string lower_ascii.
Definition toUpperCase : string → string := map_string upper_ascii.

(** TAB, LF, VT, FF, CR and SPACE. *)
Definition is_white_space (c : ascii) : bool :=
  let n := N_of_ascii c in
  (((9 <=? n) && (n <=? 13)) || (n =? 32))%N.

Fixpoint trimStart (s : string) : string :=
  match s with
  | EmptyString => EmptyString
  | String c s' => if is_white_space c then trimStart s' else s
  end.

Definition trimEnd (s : string) : string :=
  String.rev (trimStart (String.rev s)).

Definition trim (s : string) : string := trimEnd (trimStart s).

(** [s.includes(sub)] *)
Fixpoint includes (s sub : string) : bool :=
  String.prefix sub s ||
  match s with
  | EmptyString => false
  | String _ s' => includes s' sub
  end.

(** Truthiness of a [string | null] value: neither [null] nor empty. *)
Definition truthy (o : option string) : bool :=
  match o with
  | Some (String _ _) => true
  | _ => false
  end.

(** [a ?? b] *)
Definition nullish {A} (a b : option A) : option A :=
  match a with
  | Some x => Some x
  | None => b
  end.

(** [a ?? d] with a non-null default. *)
Definition nullish_or {A} (a : option A) (d : A) : A :=
  match a with
  | Some x => x
  | None => d
  end.

End JS.

(** ** SHA-256 (FIPS 180-4), as computed by
    [createHash('sha256').update(value).digest('hex')] *)
Module SHA256.
Local Open Scope Z_scope.

Definition w32 (x : Z) : Z := x mod 2 ^ 32.

Definition add32 (x y : Z) : Z := w32 (x + y).

Definition rotr (n x : Z) : Z :=
  Z.lor (Z.shiftr x n) (w32 (Z.shiftl x (32 - n))).

Definition not32 (x : Z) : Z := Z.lxor x 0xffffffff.

Definition Ch (x y z : Z) : Z := Z.lxor (Z.land x y) (Z.land (not32 x) z).

Definition Maj (x y z : Z) : Z :=
  Z.lxor (Z.lxor (Z.land x y) (Z.land x z)) (Z.land y z).

Definition bsig0 (x : Z) : Z := Z.lxor (Z.lxor (rotr 2 x) (rotr 13 x)) (rotr 22 x).
Definition bsig1 (x : Z) : Z := Z.lxor (Z.lxor (rotr 6 x) (rotr 11 x)) (rotr 25 x).
Definition ssig0 (x : Z) : Z := Z.lxor (Z.lxor (rotr 7 x) (rotr 18 x)) (Z.shiftr x 3).
Definition ssig1 (x : Z) : Z := Z.lxor (Z.lxor (rotr 17 x) (rotr 19 x)) (Z.shiftr x 10).

(** The constants of the standard are fractional parts of roots of the
    first primes; they are computed rather than tabulated. *)

Definition is_prime (n : Z) : bool :=
  (2 <=? n) && forallb (λ d, negb (n mod d =? 0)) (seqZ 2 (n - 2)).

Definition primes : list Z := filter (λ n, is_prime n) (seqZ 2 310).

(** [root_go k bits n r]: the largest [x] with [x ^ k ≤ n] among the
    numbers that extend [r] in the low [bits] bits. *)
Fixpoint root_go (k : Z) (bits : nat) (n r : Z) : Z :=
  match bits with
  | O => r
  | S b =>
      let c := r + 2 ^ Z.of_nat b in
      root_go k b n (if c ^ k <=? n then c else r)
  end.

(** The first 32 bits of the fractional part of the [k]-th root of [p]. *)
Definition frac_root32 (k p : Z) : Z :=
  w32 (root_go k 40 (p * 2 ^ (32 * k)) 0).

(** Cube roots of the first sixty-four primes. *)
Definition K : list Z := Eval vm_compute in frac_root32 3 <$> take 64 primes.

(** Square roots of the first eight primes. *)
Definition H0 : list Z := Eval vm_compute in frac_root32 2 <$> take 8 primes.

Definition byte_of_ascii (c : ascii) : Z := Z.of_N (N_of_ascii c).

Fixpoint bytes_of_string (s : string) : list Z :=
  match s with
  | EmptyString => []
  | String c s' => byte_of_ascii c :: bytes_of_string s'
  end.

(** Big-endian encoding of [x] on [n] bytes. *)
Fixpoint be_bytes (n : nat) (x : Z) : list Z :=
  match n with
  | O => []
  | S n' => (Z.shiftr x (8 * Z.of_nat n')) mod 256 :: be_bytes n' x
  end.

(** The message, a [0x80] byte, zero bytes up to 56 modulo 64, and the bit
    length on eight bytes. *)
Definition pad (msg : list Z) : list Z :=
  let len := Z.of_nat (length msg) in
  let zeros := Z.to_nat ((55 - len) mod 64) in
  msg ++ [0x80] ++ replicate zeros 0 ++ be_bytes 8 (8 * len).

Fixpoint words_of_bytes (bs : list Z) : list Z :=
  match bs with
  | b0 :: b1 :: b2 :: b3 :: rest =>
      (b0 * 2 ^ 24 + b1 * 2 ^ 16 + b2 * 2 ^ 8 + b3) :: words_of_bytes rest
  | _ => []
  end.

(** [schedule n ws] extends the message schedule by [n] words; [ws] holds
    the words computed so far, most recent first. *)
Fixpoint schedule (n : nat) (ws : list Z) : list Z :=
  match n with
  | O => ws
  | S n' =>
      let w := add32 (add32 (ssig1 (nth 1 ws 0)) (nth 6 ws 0))
                     (add32 (ssig0 (nth 14 ws 0)) (nth 15 ws 0)) in
      schedule n' (w :: ws)
  end.

Record regs := Regs { ra : Z; rb : Z; rc : Z; rd : Z; re : Z; rf : Z; rg : Z; rh : Z }.

Definition round (r : regs) (kw : Z * Z) : regs :=
  let t1 := add32 (add32 (add32 (rh r) (bsig1 (re r))) (Ch (re r) (rf r) (rg r)))
                  (add32 (fst kw) (snd kw)) in
  let t2 := add32 (bsig0 (ra r)) (Maj (ra r) (rb r) (rc r)) in
  Regs (add32 t1 t2) (ra r) (rb r) (rc r) (add32 (rd r) t1) (re r) (rf r) (rg r).

Definition regs_of_list (h : list Z) : regs :=
  Regs (nth 0 h 0) (nth 1 h 0) (nth 2 h 0) (nth 3 h 0)
       (nth 4 h 0) (nth 5 h 0) (nth 6 h 0) (nth 7 h 0).

Definition list_of_regs (r : regs) : list Z :=
  [ra r; rb r; rc r; rd r; re r; rf r; rg r; rh r].

Definition compress (h : list Z) (block : list Z) : list Z :=
  let w := rev (schedule 48 (rev block)) in
  let r := fold_left round (zip K w) (regs_of_list h) in
  zip_with add32 h (list_of_regs r).

(** [process n ws h] consumes [n] sixteen-word blocks of [ws]. *)
Fixpoint process (n : nat) (ws : list Z) (h : list Z) : list Z :=
  match n with
  | O => h
  | S n' => process n' (drop 16 ws) (compress h (take 16 ws))
  end.

Definition hex_digit (d : Z) : ascii :=
  ascii_of_N (Z.to_N (if d <? 10 then 48 + d else 87 + d)).

Fixpoint hex_of_word_go (n : nat) (x : Z) (acc : string) : string :=
  match n with
  | O => acc
  | S n' => hex_of_word_go n' (x / 16) (String (hex_digit (x mod 16)) acc)
  end.

Definition hex_of_word (x : Z) : string := hex_of_word_go 8 x "".

Definition digest_hex (msg : string) : string :=
  let ws := words_of_bytes (pad (bytes_of_string msg)) in
  let h := process (length ws / 16)%nat ws H0 in
  fold_right (λ w acc, hex_of_word w +:+ acc) "" h.

End SHA256.

(** ** JavaScript dates

    A [Date] value is represented by its UTC calendar fields, which for
    time values inside the ECMAScript range determine the time value and
    are determined by it.  [month] is zero-based, as [getUTCMonth] returns
    it.  An Invalid Date (time value NaN) is [None] at type [option Date]. *)
Module JSDate.
Local Open Scope Z_scope.

Record Date := mkDate {
  getUTCFullYear : Z;
  getUTCMonth : Z;
  getUTCDate : Z;
  getUTCHours : Z;
  getUTCMinutes : Z;
  getUTCSeconds : Z;
  getUTCMilliseconds : Z
}.

Definition is_leap (y : Z) : bool :=
  ((y mod 4 =? 0) && negb (y mod 100 =? 0)) || (y mod 400 =? 0).

Definition days_in_month (y m : Z) : Z :=
  if m =? 1 then (if is_leap y then 29 else 28)
  else if (m =? 3) || (m =? 5) || (m =? 8) || (m =? 10) then 30
  else 31.

(** Field ranges of a calendar date and time of day. *)
Definition valid (d : Date) : Prop :=
  0 ≤ getUTCMonth d ≤ 11 ∧
  1 ≤ getUTCDate d ≤ days_in_month (getUTCFullYear d) (getUTCMonth d) ∧
  0 ≤ getUTCHours d ≤ 23 ∧
  0 ≤ getUTCMinutes d ≤ 59 ∧
  0 ≤ getUTCSeconds d ≤ 59 ∧
  0 ≤ getUTCMilliseconds d ≤ 999.

Definition fields (d : Date) : list Z :=
  [getUTCFullYear d; getUTCMonth d; getUTCDate d; getUTCHours d;
   getUTCMinutes d; getUTCSeconds d; getUTCMilliseconds d].

Fixpoint lex_compare (a b : list Z) : comparison :=
  match a, b with
  | x :: a', y :: b' =>
      match x ?= y with
      | Eq => lex_compare a' b'
      | c => c
      end
  | [], [] => Eq
  | [], _ :: _ => Lt
  | _ :: _, [] => Gt
  end.

(** Order of the time values of two dates. *)
Definition compare (a b : Date) : comparison := lex_compare (fields a) (fields b).

(** [a > b] on Date objects; a comparison with an Invalid Date is false. *)
Definition gt (a : option Date) (b : Date) : bool :=
  match a with
  | Some d => match compare d b with Gt => true | _ => false end
  | None => false
  end.

Definition next_month (y m : Z) : Z * Z :=
  if m =? 11 then (y + 1, 0) else (y, m + 1).

Definition prev_month (y m : Z) : Z * Z :=
  if m =? 0 then (y - 1, 11) else (y, m - 1).

(** Day numbers past the end of the month carry into the following
    months. *)
Fixpoint roll_forward (fuel : nat) (y m d : Z) : Z * Z * Z :=
  match fuel with
  | O => (y, m, d)
  | S fuel' =>
      if d <=? days_in_month y m then (y, m, d)
      else
        let '(y', m') := next_month y m in
        roll_forward fuel' y' m' (d - days_in_month y m)
  end.

(** Day numbers below one borrow from the preceding months. *)
Fixpoint roll_backward (fuel : nat) (y m d : Z) : Z * Z * Z :=
  match fuel with
  | O => (y, m, d)
  | S fuel' =>
      if 1 <=? d then (y, m, d)
      else
        let '(y', m') := prev_month y m in
        roll_backward fuel' y' m' (d + days_in_month y' m')
  end.

(** ECMAScript [MakeDay]: the day reached from the first of month
    [month mod 12] of year [year + floor (month / 12)] by adding
    [date - 1] days. *)
Definition MakeDay (year month date : Z) : Z * Z * Z :=
  let ym := year + month / 12 in
  let mn := month mod 12 in
  if 1 <=? date then roll_forward (Z.to_nat date) ym mn date
  else roll_backward (Z.to_nat (1 - date)) ym mn date.

(** The two ends of the time-value range, 8.64e15 milliseconds either side
    of the epoch. *)
Definition MIN_DATE : Date := mkDate (-271821) 3 20 0 0 0 0.
Definition MAX_DATE : Date := mkDate 275760 8 13 0 0 0 0.

Definition TimeClip (d : Date) : option Date :=
  match compare MIN_DATE d, compare d MAX_DATE with
  | Gt, _ | _, Gt => None
  | _, _ => Some d
  end.

(** [new Date(Date.UTC(year, month, date))]; years 0 to 99 stand for
    1900 to 1999. *)
Definition UTC (year month date : Z) : option Date :=
  let full := if (0 <=? year) && (year <=? 99) then 1900 + year else year in
  let '(y, m, d) := MakeDay full month date in
  TimeClip (mkDate y m d 0 0 0 0).

Definition digit (d : Z) : ascii := ascii_of_N (Z.to_N (48 + d)).

Fixpoint digits (n : nat) (x : Z) (acc : string) : string :=
  match n with
  | O => acc
  | S n' => digits n' (x / 10) (String (digit (x mod 10)) acc)
  end.

Definition year_string (y : Z) : string :=
  if (0 <=? y) && (y <=? 9999) then digits 4 y ""
  else (if y <? 0 then "-" else "+") +:+ digits 6 (Z.abs y) "".

(** [YYYY-MM-DDTHH:mm:ss.sssZ] *)
Definition format (d : Date) : string :=
  year_string (getUTCFullYear d) +:+ "-" +:+
  digits 2 (getUTCMonth d + 1) "" +:+ "-" +:+
  digits 2 (getUTCDate d) "" +:+ "T" +:+
  digits 2 (getUTCHours d) "" +:+ ":" +:+
  digits 2 (getUTCMinutes d) "" +:+ ":" +:+
  digits 2 (getUTCSeconds d) "" +:+ "." +:+
  digits 3 (getUTCMilliseconds d) "" +:+ "Z".

(** [toISOString] throws a RangeError on an Invalid Date: [None]. *)
Definition toISOString (d : option Date) : option string := format <$> d.

Definition digit_value (c : ascii) : option Z :=
  let n := Z.of_N (N_of_ascii c) in
  if (48 <=? n) && (n <=? 57) then Some (n - 48) else None.

Fixpoint number (s : list ascii) (acc : Z) : option Z :=
  match s with
  | [] => Some acc
  | c :: s' => v ← digit_value c; number s' (10 * acc + v)
  end.

(** The date-time strings [format] writes for years 0 to 9999; any other
    string reads as an Invalid Date.  A clock-free stand-in for the
    implementation-defined [new Date(string)]. *)
Definition parseISO (s : string) : option Date :=
  match String.list_ascii_of_string s with
  | [y1; y2; y3; y4; "-"; m1; m2; "-"; d1; d2; "T"; h1; h2; ":"; i1; i2; ":";
     s1; s2; "."; f1; f2; f3; "Z"]%char =>
      y ← number [y1; y2; y3; y4] 0;
      m ← number [m1; m2] 0;
      d ← number [d1; d2] 0;
      h ← number [h1; h2] 0;
      i ← number [i1; i2] 0;
      sec ← number [s1; s2] 0;
      f ← number [f1; f2; f3] 0;
      if (1 <=? m) && (m <=? 12) && (1 <=? d) && (d <=? days_in_month y (m - 1))
         && (h <=? 23) && (i <=? 59) && (sec <=? 59)
      then Some (mkDate y (m - 1) d h i sec f) else None
  | _ => None
  end.

End JSDate.

(** ** The plan catalog ([config/quotaConfig.ts]) *)
Module QuotaConfig.
Local Open Scope Z_scope.

Inductive PlanCycle := monthly | yearly.

Record PlanConfig := mkPlanConfig {
  planId : string;
  planKey : string;
  cycle : PlanCycle;
  quota : Z;
  productIds : list string
}.

Definition DEFAULT_PLAN_CONFIG : list PlanConfig :=
  [ mkPlanConfig "free" "free" monthly 2 [];
    mkPlanConfig "premium_monthly" "base" monthly 100
      ["ai_or_real_premium:aiorreal-monthly"; "aiorreal-monthly"];
    mkPlanConfig "premium_yearly" "pro" yearly 1000
      ["ai_or_real_premium:aiorreal-yearly"; "aiorreal-yearly"] ].

Section Catalog.

(** [PLAN_CONFIG] is read from the environment at start-up and falls back
    to [DEFAULT_PLAN_CONFIG]; the functions below take it as given. *)
Variable PLAN_CONFIG : list PlanConfig.

Definition getPlanConfigById (id : option string) : option PlanConfig :=
  match id with
  | Some (String _ _ as s) =>
      let normalized := JS.trim (JS.toLowerCase s) in
      List.find (λ plan, String.eqb (JS.toLowerCase (planId plan)) normalized) PLAN_CONFIG
  | _ => None
  end.

Definition resolvePlanConfig (candidate : option string) : option PlanConfig :=
  match candidate with
  | Some (String _ _ as s) =>
      let normalized := JS.trim (JS.toLowerCase s) in
      if String.eqb normalized "" then None
      else if JS.includes normalized "aiorreal-monthly" then
        getPlanConfigById (Some "premium_monthly")
      else if JS.includes normalized "aiorreal-yearly"
              || JS.includes normalized "aiorreal-annual" then
        getPlanConfigById (Some "premium_yearly")
      else
        match List.find (λ plan, String.eqb (JS.toLowerCase (planId plan)) normalized)
                        PLAN_CONFIG with
        | Some plan => Some plan
        | None =>
            List.find
              (λ plan, existsb (λ id, JS.includes normalized (JS.toLowerCase id))
                               (productIds plan))
              PLAN_CONFIG
        end
  | _ => None
  end.

End Catalog.

End QuotaConfig.

(** ** The quota service ([services/quotaService.ts]) *)
Module QuotaService.
Local Open Scope Z_scope.

Abbreviation PlanCycle := QuotaConfig.PlanCycle.
Abbreviation PlanConfig := QuotaConfig.PlanConfig.
Abbreviation Date := JSDate.Date.

(** *** Documents *)

Module Subscription.

Inductive Status := active | cancelled | expired | refunded | billing_issue.

(** The status as the string stored in the document. *)
Definition status_string (s : Status) : string :=
  match s with
  | active => "active"
  | cancelled => "cancelled"
  | expired => "expired"
  | refunded => "refunded"
  | billing_issue => "billing_issue"
  end.

Record t := mk {
  id : string;
  user_id : string;
  platform : option string;
  rc_app_user_id : option string;
  product_id : option string;
  plan_id : option string;
  plan_key : option string;
  cycle : option PlanCycle;
  entitlement_ids : list string;
  is_active : bool;
  will_renew : bool;
  status : Status;
  current_period_start : option string;
  current_period_end : option string;
  last_rc_event_at : option string;
  original_purchase_date : option string;
  updated_at : string;
  created_at : string
}.

End Subscription.

Module Wallet.

Inductive Status := active | closed.

Record t := mk {
  id : string;
  user_id : string;
  subscription_id : option string;
  plan_id : option string;
  scope : PlanCycle;
  period_start : option string;
  period_end : option string;
  quota_total : Z;
  quota_used : Z;
  status : Status;
  last_usage_at : option string;
  created_at : string;
  updated_at : string;
  (** written by [closeWalletsForUser] only *)
  closed_reason : option string
}.

Definition is_active (w : t) : bool :=
  match status w with active => true | closed => false end.

(** [{ ...data, id }] *)
Definition with_id (w : t) (i : string) : t :=
  mk i (user_id w) (subscription_id w) (plan_id w) (scope w) (period_start w)
     (period_end w) (quota_total w) (quota_used w) (status w) (last_usage_at w)
     (created_at w) (updated_at w) (closed_reason w).

(** [update(ref, { quota_used, last_usage_at, updated_at })]; a field the
    update does not name is passed as it stands. *)
Definition update_usage (w : t) (used : Z) (last_usage : option string)
    (nowIso : string) : t :=
  mk (id w) (user_id w) (subscription_id w) (plan_id w) (scope w) (period_start w)
     (period_end w) (quota_total w) used (status w) last_usage
     (created_at w) nowIso (closed_reason w).

End Wallet.

Module Usage.

Inductive Status := reserved | committed | rolled_back.

Record t := mk {
  id : string;
  user_id : string;
  wallet_id : string;
  request_id : string;
  action : string;
  amount : Z;
  status : Status;
  created_at : string;
  updated_at : string
}.

Definition with_status (u : t) (s : Status) (nowIso : string) : t :=
  mk (id u) (user_id u) (wallet_id u) (request_id u) (action u) (amount u)
     s (created_at u) nowIso.

End Usage.

Module WebhookEvent.

Inductive Status := received | processed.

Record t := mk {
  id : string;
  rc_event_id : string;
  event_type : string;
  rc_app_user_id : option string;
  received_at : string;
  processed_at : option string;
  payload_json : string;
  status : Status
}.

End WebhookEvent.

(** [ReserveResult.status]: a usage status or ['rejected']. *)
Inductive ReserveStatus :=
| usage_status (s : Usage.Status)
| rejected.

Record ReserveResult := mkReserveResult {
  allowed : bool;
  status : ReserveStatus;
  remaining : Z;
  walletId : option string
}.

(** [rawEvent] is carried as its JSON serialisation, [None] when it is
    nullish. *)
Record RevenueCatEventContext := mkRevenueCatEventContext {
  userId : string;
  eventId : option string;
  eventType : string;
  rcAppUserId : option string;
  productId : option string;
  entitlementIds : list string;
  platform : option string;
  willRenew : option bool;
  periodStart : option string;
  periodEnd : option string;
  originalPurchaseDate : option string;
  rawEvent : option string
}.

(** *** The document store: one finite map per Firestore collection *)

Record Store := mkStore {
  subscriptions_quota : gmap string Subscription.t;
  quota_wallets : gmap string Wallet.t;
  quota_usages : gmap string Usage.t;
  webhook_events : gmap string WebhookEvent.t
}.

Definition set_subscriptions (st : Store) (m : gmap string Subscription.t) : Store :=
  mkStore m (quota_wallets st) (quota_usages st) (webhook_events st).

Definition set_wallets (st : Store) (m : gmap string Wallet.t) : Store :=
  mkStore (subscriptions_quota st) m (quota_usages st) (webhook_events st).

Definition set_usages (st : Store) (m : gmap string Usage.t) : Store :=
  mkStore (subscriptions_quota st) (quota_wallets st) m (webhook_events st).

Definition set_webhook_events (st : Store) (m : gmap string WebhookEvent.t) : Store :=
  mkStore (subscriptions_quota st) (quota_wallets st) (quota_usages st) m.

(** *** Helpers of the module *)

Definition toHash (value : string) : string := SHA256.digest_hex value.

(** [(value || 'UNKNOWN').toUpperCase()] *)
Definition normalizeEventType (value : option string) : string :=
  JS.toUpperCase (if JS.truthy value then JS.nullish_or value "" else "UNKNOWN").

Definition getWebhookEventId (payload : RevenueCatEventContext) : string :=
  if JS.truthy (eventId payload) then "rc_" +:+ JS.nullish_or (eventId payload) ""
  else
    let composite :=
      userId payload +:+ ":" +:+ eventType payload +:+ ":" +:+
      JS.nullish_or (periodStart payload) "" +:+ ":" +:+
      JS.nullish_or (periodEnd payload) "" in
    "rc_" +:+ toHash composite.

(** [list.includes(eventType)] *)
Definition one_of (l : list string) (eventType : string) : bool :=
  existsb (String.eqb eventType) l.

Definition isPurchaseEvent : string → bool :=
  one_of ["INITIAL_PURCHASE"; "RENEWAL"; "PRODUCT_CHANGE"; "UNCANCELLATION";
          "SUBSCRIPTION_PURCHASE"].

Definition isCancellationEvent : string → bool :=
  one_of ["CANCELLATION"; "CANCEL"; "AUTO_RENEW_DISABLED"].

Definition isExpirationEvent : string → bool := one_of ["EXPIRATION"; "EXPIRE"].

Definition isRefundEvent : string → bool := one_of ["REFUND"; "CHARGEBACK"].

Definition isBillingIssueEvent : string → bool :=
  one_of ["BILLING_ISSUE"; "PAUSE"; "BILLING_ISSUE_DETECTED"; "GRACE_PERIOD"].

Definition shouldCloseWalletStatus (s : Subscription.Status) : bool :=
  match s with
  | Subscription.expired | Subscription.refunded | Subscription.billing_issue => true
  | _ => false
  end.

(** The usage document id, [`${userId}_${requestId}`]. *)
Definition usage_doc_id (userId requestId : string) : string :=
  userId +:+ "_" +:+ requestId.

(** *** The active-wallet query

    [where user_id == userId, where status == 'active',
     orderBy period_end desc, limit 1].  A [null] period end sorts below
    every string; documents with equal period ends are ordered by document
    id, in the direction of the last [orderBy]. *)

Definition matches_active (userId : string) (w : Wallet.t) : bool :=
  String.eqb (Wallet.user_id w) userId && Wallet.is_active w.

Definition period_leb (a b : option string) : bool :=
  match a, b with
  | None, _ => true
  | Some _, None => false
  | Some x, Some y => String.leb x y
  end.

(** [precedes a b]: [a] is not after [b] in the descending order. *)
Definition precedes (a b : string * Wallet.t) : bool :=
  if decide (Wallet.period_end a.2 = Wallet.period_end b.2)
  then String.leb b.1 a.1
  else period_leb (Wallet.period_end b.2) (Wallet.period_end a.2).

Definition first_of (l : list (string * Wallet.t)) : option (string * Wallet.t) :=
  foldr (λ x acc,
           match acc with
           | None => Some x
           | Some y => if precedes x y then Some x else Some y
           end) None l.

Definition active_wallet_docs (st : Store) (userId : string) : list (string * Wallet.t) :=
  filter (λ kw, matches_active userId kw.2) (map_to_list (quota_wallets st)).

(** *** The service *)

Section Service.

Variable PLAN_CONFIG : list PlanConfig.

(** [new Date(value)] on a string: the date it denotes, or [None] for an
    Invalid Date. *)
Variable Date_parse : string → option Date.

Definition getPlanConfigById := QuotaConfig.getPlanConfigById PLAN_CONFIG.
Definition resolvePlanConfig := QuotaConfig.resolvePlanConfig PLAN_CONFIG.

Definition resolvePlanId (candidate : option string) : option string :=
  QuotaConfig.planId <$> resolvePlanConfig candidate.

(** [value ? new Date(value) : null] *)
Definition date_of (value : option string) : option (option Date) :=
  match value with
  | Some (String _ _ as s) => Some (Date_parse s)
  | _ => None
  end.

Definition getSubscription (st : Store) (userId : string) : option Subscription.t :=
  subscriptions_quota st !! userId.

Definition getActiveWallet (st : Store) (userId : string) : option Wallet.t :=
  match first_of (active_wallet_docs st userId) with
  | None => None
  | Some (docId, data) => Some (Wallet.with_id data docId)
  end.

Definition close_wallet (reason : string) (setRemainingToZero : bool)
    (nowIso : string) (data : Wallet.t) : Wallet.t :=
  Wallet.mk (Wallet.id data) (Wallet.user_id data) (Wallet.subscription_id data)
    (Wallet.plan_id data) (Wallet.scope data) (Wallet.period_start data)
    (Wallet.period_end data) (Wallet.quota_total data)
    (if setRemainingToZero then Wallet.quota_total data else Wallet.quota_used data)
    Wallet.closed
    (Wallet.last_usage_at data)
    (Wallet.created_at data) nowIso (Some reason).

(** Every document the query for the user's active wallets returns is
    updated by the batch. *)
Definition closeWalletsForUser (st : Store) (userId : string) (reason : string)
    (setRemainingToZero : bool) (now : Date) : Store :=
  let nowIso := JSDate.format now in
  set_wallets st
    ((λ data, if matches_active userId data
              then close_wallet reason setRemainingToZero nowIso data
              else data) <$> quota_wallets st).

(** [db.collection(...).doc()] assigns an id no document of the collection
    has. *)
Definition new_wallet_id (st : Store) : string := fresh (dom (quota_wallets st)).

Definition openWalletForSubscription (st : Store) (subscription : Subscription.t)
    (closeExisting : bool) (now : Date) : option Wallet.t * Store :=
  match getPlanConfigById (Subscription.plan_id subscription) with
  | None => (None, st)
  | Some planConfig =>
      let st1 :=
        if closeExisting
        then closeWalletsForUser st (Subscription.user_id subscription)
               "plan_change" false now
        else st in
      let nowIso := JSDate.format now in
      let walletRef := new_wallet_id st1 in
      let wallet :=
        Wallet.mk walletRef (Subscription.user_id subscription)
          (Some (Subscription.id subscription)) (Subscription.plan_id subscription)
          (QuotaConfig.cycle planConfig)
          (Subscription.current_period_start subscription)
          (Subscription.current_period_end subscription)
          (QuotaConfig.quota planConfig) 0 Wallet.active None nowIso nowIso None in
      (Some wallet, set_wallets st1 (<[walletRef := wallet]> (quota_wallets st1)))
  end.

(** [endDate && endDate > now], with
    [endDate = walletEnd ?? currentEnd]. *)
Definition wallet_still_running (subscription : Subscription.t)
    (existingWallet : Wallet.t) (now : Date) : bool :=
  let currentEnd := date_of (Subscription.current_period_end subscription) in
  let walletEnd := date_of (Wallet.period_end existingWallet) in
  match JS.nullish walletEnd currentEnd with
  | Some endDate => JSDate.gt endDate now
  | None => false
  end.

Definition ensureActiveWallet (st : Store) (userId : string)
    (subscription : Subscription.t) (now : Date) : option Wallet.t * Store :=
  if negb (Subscription.is_active subscription) then (None, st)
  else
    match getPlanConfigById (Subscription.plan_id subscription) with
    | None => (None, st)
    | Some planConfig =>
        let existingWallet := getActiveWallet st userId in
        let still_running :=
          match existingWallet with
          | Some w => wallet_still_running subscription w now
          | None => false
          end in
        if still_running then (existingWallet, st)
        else if negb (JS.truthy (Subscription.current_period_start subscription))
                || negb (JS.truthy (Subscription.current_period_end subscription))
        then (existingWallet, st)
        else
          let st1 := closeWalletsForUser st userId "period_reset" false now in
          openWalletForSubscription st1 subscription true now
    end.

Definition reject0 : ReserveResult := mkReserveResult false rejected 0 None.

(** The transaction of [reserveUsage], run on the wallet document
    [walletRef] and the usage document of the request. *)
Definition reserveUsage_tx (st : Store) (walletRef : string)
    (userId requestId action : string) (amount : Z) (nowIso : string)
    : ReserveResult * Store :=
  let usageRef := usage_doc_id userId requestId in
  match quota_wallets st !! walletRef with
  | None => (reject0, st)
  | Some walletData =>
      if negb (Wallet.is_active walletData) then
        let remaining := Z.max 0 (Wallet.quota_total walletData - Wallet.quota_used walletData) in
        (mkReserveResult false rejected remaining (Some (Wallet.id walletData)), st)
      else
        match quota_usages st !! usageRef with
        | Some existingUsage =>
            let remaining :=
              Z.max 0 (Wallet.quota_total walletData - Wallet.quota_used walletData) in
            (mkReserveResult
               (match Usage.status existingUsage with
                | Usage.rolled_back => false
                | _ => true
                end)
               (usage_status (Usage.status existingUsage))
               remaining (Some (Wallet.id walletData)), st)
        | None =>
            let nextUsed := Wallet.quota_used walletData + amount in
            if Wallet.quota_total walletData <? nextUsed then
              let remaining :=
                Z.max 0 (Wallet.quota_total walletData - Wallet.quota_used walletData) in
              (mkReserveResult false rejected remaining (Some (Wallet.id walletData)), st)
            else
              let wallet' := Wallet.update_usage walletData nextUsed (Some nowIso) nowIso in
              let usage :=
                Usage.mk usageRef userId (Wallet.id walletData) requestId action
                  amount Usage.reserved nowIso nowIso in
              let remaining := Z.max 0 (Wallet.quota_total walletData - nextUsed) in
              (mkReserveResult true (usage_status Usage.reserved) remaining
                 (Some (Wallet.id walletData)),
               set_usages
                 (set_wallets st (<[walletRef := wallet']> (quota_wallets st)))
                 (<[usageRef := usage]> (quota_usages st)))
        end
  end.

Definition reserveUsage (st : Store) (userId requestId action : string)
    (amount : Z) (now : Date) : ReserveResult * Store :=
  if negb (JS.truthy (Some requestId)) then (reject0, st)
  else
    match getSubscription st userId with
    | None => (reject0, st)
    | Some subscription =>
        if negb (Subscription.is_active subscription) then (reject0, st)
        else
          match ensureActiveWallet st userId subscription now with
          | (None, st1) => (reject0, st1)
          | (Some wallet, st1) =>
              reserveUsage_tx st1 (Wallet.id wallet) userId requestId action
                amount (JSDate.format now)
          end
    end.

Definition commitUsage (st : Store) (userId requestId : string) (now : Date)
    : option Usage.Status * Store :=
  if negb (JS.truthy (Some requestId)) then (None, st)
  else
    let usageRef := usage_doc_id userId requestId in
    match quota_usages st !! usageRef with
    | None => (None, st)
    | Some usage =>
        match Usage.status usage with
        | Usage.committed => (Some Usage.committed, st)
        | Usage.rolled_back => (Some Usage.rolled_back, st)
        | Usage.reserved =>
            (Some Usage.committed,
             set_usages st
               (<[usageRef := Usage.with_status usage Usage.committed (JSDate.format now)]>
                  (quota_usages st)))
        end
    end.

Definition rollbackUsage (st : Store) (userId requestId : string) (now : Date)
    : option Usage.Status * Store :=
  if negb (JS.truthy (Some requestId)) then (None, st)
  else
    let usageRef := usage_doc_id userId requestId in
    let nowIso := JSDate.format now in
    match quota_usages st !! usageRef with
    | None => (None, st)
    | Some usage =>
        match Usage.status usage with
        | Usage.rolled_back => (Some Usage.rolled_back, st)
        | Usage.committed => (Some Usage.committed, st)
        | Usage.reserved =>
            let walletRef := Usage.wallet_id usage in
            let st1 :=
              match quota_wallets st !! walletRef with
              | Some wallet =>
                  let nextUsed := Z.max 0 (Wallet.quota_used wallet - Usage.amount usage) in
                  let wallet' :=
                    Wallet.update_usage wallet nextUsed (Wallet.last_usage_at wallet) nowIso in
                  set_wallets st (<[walletRef := wallet']> (quota_wallets st))
              | None => st
              end in
            (Some Usage.rolled_back,
             set_usages st1
               (<[usageRef := Usage.with_status usage Usage.rolled_back nowIso]>
                  (quota_usages st1)))
        end
    end.

(** The target status of an event, by first match. *)
Definition event_status (eventType : string) (existing : option Subscription.t)
    : Subscription.Status :=
  if isRefundEvent eventType then Subscription.refunded
  else if isExpirationEvent eventType then Subscription.expired
  else if isBillingIssueEvent eventType then Subscription.billing_issue
  else if isCancellationEvent eventType then Subscription.cancelled
  else if isPurchaseEvent eventType then Subscription.active
  else JS.nullish_or (Subscription.status <$> existing) Subscription.active.

(** [resolvePlanConfig(payload.productId) ?? getPlanConfigById(payload.productId)] *)
Definition payload_plan (payload : RevenueCatEventContext) : option PlanConfig :=
  JS.nullish (resolvePlanConfig (productId payload))
             (getPlanConfigById (productId payload)).

(** [planConfig ?? (existingPlanId ? getPlanConfigById(existingPlanId) : null)] *)
Definition next_plan (planConfig : option PlanConfig)
    (existing : option Subscription.t) : option PlanConfig :=
  let existingPlanId := existing ≫= Subscription.plan_id in
  JS.nullish planConfig
    (if JS.truthy existingPlanId then getPlanConfigById existingPlanId else None).

(** The values the subscription transaction of [processRevenueCatEvent]
    leaves in the variables of the enclosing method. *)
Record Transition := mkTransition {
  nextSubscription : Subscription.t;
  shouldOpenWallet : bool;
  shouldCloseWallet : bool;
  planChanged : bool;
  periodChanged : bool
}.

(** The body of the subscription transaction, as a function of the
    document it reads. *)
Definition subscription_tx (payload : RevenueCatEventContext) (eventType : string)
    (planConfig : option PlanConfig) (existing : option Subscription.t)
    (nowIso : string) : Transition :=
  let existingPlanId := existing ≫= Subscription.plan_id in
  let nextPlan := next_plan planConfig existing in
  let status := event_status eventType existing in
  let isActive :=
    match status with
    | Subscription.active | Subscription.cancelled => true
    | _ => false
    end in
  let willRenew :=
    match willRenew payload with
    | Some b => b
    | None => match status with Subscription.active => true | _ => false end
    end in
  let periodStart :=
    JS.nullish (periodStart payload) (existing ≫= Subscription.current_period_start) in
  let periodEnd :=
    JS.nullish (periodEnd payload) (existing ≫= Subscription.current_period_end) in
  let planChanged :=
    match nextPlan with
    | Some plan =>
        JS.truthy existingPlanId
        && negb (bool_decide (Some (QuotaConfig.planId plan) = existingPlanId))
    | None => false
    end in
  let periodChanged :=
    JS.truthy periodEnd
    && JS.truthy (existing ≫= Subscription.current_period_end)
    && negb (bool_decide (periodEnd = existing ≫= Subscription.current_period_end)) in
  let shouldOpenWallet :=
    isActive && (isPurchaseEvent eventType || planChanged || periodChanged) in
  let shouldCloseWallet :=
    false || (shouldCloseWalletStatus status
              && JS.nullish_or (Subscription.is_active <$> existing) false) in
  let updates :=
    Subscription.mk (userId payload) (userId payload)
      (JS.nullish (platform payload) (existing ≫= Subscription.platform))
      (JS.nullish (rcAppUserId payload) (existing ≫= Subscription.rc_app_user_id))
      (JS.nullish (productId payload) (existing ≫= Subscription.product_id))
      (JS.nullish (QuotaConfig.planId <$> nextPlan) existingPlanId)
      (JS.nullish (QuotaConfig.planKey <$> nextPlan) (existing ≫= Subscription.plan_key))
      (JS.nullish (QuotaConfig.cycle <$> nextPlan) (existing ≫= Subscription.cycle))
      (entitlementIds payload)
      isActive willRenew status periodStart periodEnd (Some nowIso)
      (JS.nullish (originalPurchaseDate payload)
         (existing ≫= Subscription.original_purchase_date))
      nowIso
      (JS.nullish_or (Subscription.created_at <$> existing) nowIso) in
  mkTransition updates shouldOpenWallet shouldCloseWallet planChanged periodChanged.

(** [webhookRef.set({ processed_at, status: 'processed' }, { merge: true })];
    the merge into a missing document would create one holding these two
    fields only. *)
Definition mark_processed (eventDocId nowIso : string)
    (doc : option WebhookEvent.t) : option WebhookEvent.t :=
  match doc with
  | Some d =>
      Some (WebhookEvent.mk (WebhookEvent.id d) (WebhookEvent.rc_event_id d)
              (WebhookEvent.event_type d) (WebhookEvent.rc_app_user_id d)
              (WebhookEvent.received_at d) (Some nowIso)
              (WebhookEvent.payload_json d) WebhookEvent.processed)
  | None =>
      Some (WebhookEvent.mk "" "" "" None "" (Some nowIso) "" WebhookEvent.processed)
  end.

Definition processRevenueCatEvent (st : Store) (payload : RevenueCatEventContext)
    (now : Date) : Store :=
  let eventType := normalizeEventType (Some (eventType payload)) in
  let eventDocId := getWebhookEventId payload in
  let nowIso := JSDate.format now in
  match webhook_events st !! eventDocId with
  | Some _ => st
  | None =>
      let st1 :=
        set_webhook_events st
          (<[eventDocId :=
               WebhookEvent.mk eventDocId (JS.nullish_or (eventId payload) eventDocId)
                 eventType (rcAppUserId payload) nowIso None
                 (JS.nullish_or (rawEvent payload) "{}") WebhookEvent.received]>
             (webhook_events st)) in
      let planConfig := payload_plan payload in
      let tr :=
        subscription_tx payload eventType planConfig
          (subscriptions_quota st1 !! userId payload) nowIso in
      let next := nextSubscription tr in
      let st2 :=
        set_subscriptions st1 (<[userId payload := next]> (subscriptions_quota st1)) in
      let st3 :=
        if shouldCloseWallet tr
        then closeWalletsForUser st2 (Subscription.user_id next)
               (Subscription.status_string (Subscription.status next)) true now
        else st2 in
      let st4 :=
        if shouldOpenWallet tr
        then (openWalletForSubscription st3 next
                (planChanged tr || periodChanged tr) now).2
        else st3 in
      set_webhook_events st4
        (partial_alter (mark_processed eventDocId nowIso) eventDocId
           (webhook_events st4))
  end.

(** [None] when [toISOString] throws on an out-of-range period end. *)
Definition syncQuotaFromPlan (st : Store) (userId : string)
    (planIdCandidate : option string) (now : Date) : option Store :=
  let planId := resolvePlanId planIdCandidate in
  let planConfig := if JS.truthy planId then getPlanConfigById planId else None in
  match planConfig with
  | None => Some st
  | Some planConfig =>
      let nowIso := JSDate.format now in
      let periodStart := nowIso in
      periodEnd ←
        match QuotaConfig.cycle planConfig with
        | QuotaConfig.monthly =>
            JSDate.toISOString
              (JSDate.UTC (JSDate.getUTCFullYear now) (JSDate.getUTCMonth now + 1) 1)
        | QuotaConfig.yearly =>
            JSDate.toISOString
              (JSDate.UTC (JSDate.getUTCFullYear now + 1) (JSDate.getUTCMonth now)
                 (JSDate.getUTCDate now))
        end;
      let paid := negb (String.eqb (QuotaConfig.planId planConfig) "free") in
      let doc (is_active will_renew : bool) (status : Subscription.Status) :=
        Subscription.mk userId userId None None planIdCandidate
          (Some (QuotaConfig.planId planConfig))
          (Some (QuotaConfig.planKey planConfig))
          (Some (QuotaConfig.cycle planConfig)) []
          is_active will_renew status (Some periodStart) (Some periodEnd)
          (Some nowIso) (Some nowIso) nowIso nowIso in
      let st1 :=
        set_subscriptions st
          (<[userId := doc paid paid
                         (if paid then Subscription.active else Subscription.expired)]>
             (subscriptions_quota st)) in
      if paid
      then Some (openWalletForSubscription st1 (doc true true Subscription.active)
                   true now).2
      else Some st1
  end.

End Service.

(** *** Sequences of usage operations *)

Inductive UsageOp :=
| Reserve (userId requestId action : string) (amount : Z) (now : Date)
| Commit (userId requestId : string) (now : Date)
| Rollback (userId requestId : string) (now : Date).

Definition apply_op (PLAN_CONFIG : list PlanConfig)
    (Date_parse : string → option Date) (st : Store) (op : UsageOp) : Store :=
  match op with
  | Reserve u r a n now => (reserveUsage PLAN_CONFIG Date_parse st u r a n now).2
  | Commit u r now => (commitUsage st u r now).2
  | Rollback u r now => (rollbackUsage st u r now).2
  end.

Definition run_ops (PLAN_CONFIG : list PlanConfig)
    (Date_parse : string → option Date) (st : Store) (ops : list UsageOp) : Store :=
  foldl (apply_op PLAN_CONFIG Date_parse) st ops.

End QuotaService.

(** * Properties of the service *)

Import QuotaService.
Local Open Scope Z_scope.

(** ** Vocabulary of the statements *)

(** The wallet document [walletId] exists and has
    [0 ≤ quota_used ≤ quota_total]. *)
Definition wallet_within_bounds (st : Store) (walletId : string) : Prop :=
  ∃ w, quota_wallets st !! walletId = Some w ∧
       0 ≤ Wallet.quota_used w ≤ Wallet.quota_total w.

(** No usage document records a negative amount. *)
Definition usage_amounts_nonneg (st : Store) : Prop :=
  ∀ k u, quota_usages st !! k = Some u → 0 ≤ Usage.amount u.

(** A Reserve operation asks for a non-negative amount. *)
Definition op_amount_nonneg (op : UsageOp) : Prop :=
  match op with
  | Reserve _ _ _ amount _ => 0 ≤ amount
  | _ => True
  end.

Definition ledger_inv (k : string) (st : Store) : Prop :=
  wallet_within_bounds st k ∧ usage_amounts_nonneg st.

(** [w'] is [w] up to the fields closing a wallet rewrites. *)
Definition same_account (w w' : Wallet.t) : Prop :=
  Wallet.id w' = Wallet.id w ∧
  Wallet.user_id w' = Wallet.user_id w ∧
  Wallet.period_end w' = Wallet.period_end w ∧
  Wallet.quota_total w' = Wallet.quota_total w ∧
  Wallet.quota_used w' = Wallet.quota_used w.

(** [k] holds the document the active-wallet query puts first. *)
Definition is_first (m : gmap string Wallet.t) (userId k : string) (w : Wallet.t) : Prop :=
  m !! k = Some w ∧ matches_active userId w = true ∧
  ∀ k' w', m !! k' = Some w' → matches_active userId w' = true →
           precedes (k, w) (k', w') = true.

(** The [id] field of every wallet document is its document id, as
    [openWalletForSubscription] writes it. *)
Definition wallet_ids_ok (st : Store) : Prop :=
  ∀ k w, quota_wallets st !! k = Some w → Wallet.id w = k.

(** Every subscription document is stored under its [user_id]. *)
Definition subscription_ids_ok (st : Store) : Prop :=
  ∀ k s, subscriptions_quota st !! k = Some s → Subscription.user_id s = k.

(** No wallet rollover is due for the active wallet [w] at [now]:
    [ensureActiveWallet] keeps it, because it is within its period or
    because the subscription carries no period start or no period end. *)
Definition no_rollover_due (Date_parse : string → option Date)
    (sub : Subscription.t) (w : Wallet.t) (now : Date) : Prop :=
  wallet_still_running Date_parse sub w now = true ∨
  JS.truthy (Subscription.current_period_start sub) = false ∨
  JS.truthy (Subscription.current_period_end sub) = false.

(** A wallet document exists after the step under an id that held none
    before. *)
Definition opens_wallet (st st' : Store) : Prop :=
  ∃ k, quota_wallets st !! k = None ∧ is_Some (quota_wallets st' !! k).

(** A plan is resolved, the existing subscription names a plan, and the
    two plan ids differ. *)
Definition plan_changed (nextPlan : option PlanConfig)
    (existing : option Subscription.t) : Prop :=
  ∃ plan old, nextPlan = Some plan ∧
              existing ≫= Subscription.plan_id = Some old ∧ old ≠ "" ∧
              QuotaConfig.planId plan ≠ old.

(** The payload carries a period end, the existing subscription has one,
    and the two differ. *)
Definition period_changed (payload : RevenueCatEventContext)
    (existing : option Subscription.t) : Prop :=
  ∃ pe old, periodEnd payload = Some pe ∧ pe ≠ "" ∧
            existing ≫= Subscription.current_period_end = Some old ∧ old ≠ "" ∧
            pe ≠ old.

(** The document id of a webhook event in the words of the data model:
    [rc_] and the provider event id when there is one, otherwise [rc_] and
    the SHA-256 of [userId:ty:periodStart:periodEnd], an absent period
    bound counting as the empty string. *)
Definition webhook_doc_id (payload : RevenueCatEventContext) (ty : string) : string :=
  "rc_" +:+
  match eventId payload with
  | Some (String _ _ as e) => e
  | _ =>
      SHA256.digest_hex
        (userId payload +:+ ":" +:+ ty +:+ ":" +:+
         JS.nullish_or (periodStart payload) "" +:+ ":" +:+
         JS.nullish_or (periodEnd payload) "")
  end.

(** Midnight UTC on the first day of the month after [now]. *)
Definition first_of_next_month (now : Date) : Date :=
  if JSDate.getUTCMonth now =? 11
  then JSDate.mkDate (JSDate.getUTCFullYear now + 1) 0 1 0 0 0 0
  else JSDate.mkDate (JSDate.getUTCFullYear now) (JSDate.getUTCMonth now + 1) 1 0 0 0 0.

(** Midnight UTC on the same month and day of the following year; the
    29th of February, which the following year lacks, gives the 1st of
    March. *)
Definition one_year_later (now : Date) : Date :=
  if (JSDate.getUTCMonth now =? 1) && (JSDate.getUTCDate now =? 29)
  then JSDate.mkDate (JSDate.getUTCFullYear now + 1) 2 1 0 0 0 0
  else JSDate.mkDate (JSDate.getUTCFullYear now + 1) (JSDate.getUTCMonth now)
         (JSDate.getUTCDate now) 0 0 0 0.

(** ** Sample data *)

Definition default_plans : list PlanConfig := QuotaConfig.DEFAULT_PLAN_CONFIG.

(** 2025-01-31T12:00:00.000Z *)
Definition sample_now : Date := JSDate.mkDate 2025 0 31 12 0 0 0.

(** 2024-02-29T12:00:00.000Z *)
Definition leap_day : Date := JSDate.mkDate 2024 1 29 12 0 0 0.

Definition feb : string := "2025-02-01T00:00:00.000Z".
Definition past : string := "2024-02-01T00:00:00.000Z".

(** An active monthly subscription of user [u] whose period ends at
    [period_end]. *)
Definition sample_subscription (period_end : string) : Subscription.t :=
  Subscription.mk "u" "u" None None (Some "aiorreal-monthly")
    (Some "premium_monthly") (Some "base") (Some QuotaConfig.monthly) []
    true true Subscription.active
    (Some "2025-01-01T00:00:00.000Z") (Some period_end) None None
    "2025-01-01T00:00:00.000Z" "2025-01-01T00:00:00.000Z".

(** The active wallet [w1] of user [u]: 100 units, [used] of them spent. *)
Definition sample_wallet (used : Z) (period_end : string) : Wallet.t :=
  Wallet.mk "w1" "u" (Some "u") (Some "premium_monthly") QuotaConfig.monthly
    (Some "2025-01-01T00:00:00.000Z") (Some period_end) 100 used Wallet.active
    None "2025-01-01T00:00:00.000Z" "2025-01-01T00:00:00.000Z" None.

(** The reservation [r1] of one unit on wallet [w1]. *)
Definition sample_usage (st : Usage.Status) : Usage.t :=
  Usage.mk "u_r1" "u" "w1" "r1" "ai_detect" 1 st
    "2025-01-15T00:00:00.000Z" "2025-01-15T00:00:00.000Z".

Definition sample_store (sub_end wallet_end : string) (used : Z)
    (usages : gmap string Usage.t) : Store :=
  mkStore {[ "u" := sample_subscription sub_end ]}
          {[ "w1" := sample_wallet used wallet_end ]} usages ∅.

Definition empty_store : Store := mkStore ∅ ∅ ∅ ∅.

(** A subscription whose period ended a year ago and that has no wallet. *)
Definition stale_store : Store :=
  mkStore {[ "u" := sample_subscription past ]} ∅ ∅ ∅.

(** User [u] holds the reservation [r1] on wallet [w1]. *)
Definition replay_store : Store :=
  sample_store feb feb 5 {[ "u_r1" := sample_usage Usage.reserved ]}.

(** The reservation [r1] has been committed. *)
Definition committed_store : Store :=
  sample_store feb feb 5 {[ "u_r1" := sample_usage Usage.committed ]}.

(** An active subscription whose plan id is not in the catalog. *)
Definition orphan_subscription : Subscription.t :=
  Subscription.mk "u" "u" None None (Some "legacy_gold") (Some "legacy_gold") None None []
    true true Subscription.active
    (Some "2025-01-01T00:00:00.000Z") (Some feb) None None
    "2025-01-01T00:00:00.000Z" "2025-01-01T00:00:00.000Z".

Definition orphan_store : Store :=
  mkStore {[ "u" := orphan_subscription ]} {[ "w1" := sample_wallet 5 feb ]} ∅ ∅.

Definition sample_ops : list UsageOp :=
  [ Reserve "u" "r1" "ai_detect" 1 sample_now;
    Reserve "u" "r2" "ai_detect" 1 sample_now;
    Rollback "u" "r1" sample_now;
    Commit "u" "r2" sample_now ].

(** An [INITIAL_PURCHASE] event that names no product. *)
Definition purchase_without_product : RevenueCatEventContext :=
  mkRevenueCatEventContext "u" (Some "E1") "INITIAL_PURCHASE" None None []
    None None None None None None.

(** A renewal of the monthly product, with its new period. *)
Definition renewal_event : RevenueCatEventContext :=
  mkRevenueCatEventContext "u" (Some "E2") "RENEWAL" None (Some "aiorreal-monthly") []
    None None (Some "2025-02-01T00:00:00.000Z") (Some "2025-03-01T00:00:00.000Z")
    None None.

(** An event without a provider id whose type arrives in lower case. *)
Definition lower_case_event : RevenueCatEventContext :=
  mkRevenueCatEventContext "u" None "renewal" None None [] None None None None None None.

(** ** The remaining methods of the service *)

Module QuotaUser.

Record t := mk {
  id : string;
  email : option string;
  status : option string;
  created_at : string;
  updated_at : string
}.

End QuotaUser.

Module QuotaSnapshot.

Record t := mk {
  planId : option string;
  planKey : option string;
  cycle : option PlanCycle;
  isActive : bool;
  willRenew : bool;
  periodStart : option string;
  periodEnd : option string;
  quotaTotal : Z;
  quotaUsed : Z;
  quotaRemaining : Z;
  walletId : option string
}.

End QuotaSnapshot.

(** The collection [users_quota] beside the four collections of [Store]. *)
Record Database := mkDatabase {
  users_quota : gmap string QuotaUser.t;
  documents : Store
}.

(** [premiumStatus?: { premium?: boolean; entitlementProductId?: string | null }] *)
Record PremiumStatus := mkPremiumStatus {
  premium : option bool;
  entitlementProductId : option string
}.

Section Reads.

Variable PLAN_CONFIG : list PlanConfig.

Definition buildQuotaSnapshot (st : Store) (subscription : Subscription.t)
    : QuotaSnapshot.t :=
  let wallet := getActiveWallet st (Subscription.user_id subscription) in
  let planConfig := getPlanConfigById PLAN_CONFIG (Subscription.plan_id subscription) in
  let total :=
    JS.nullish_or
      (JS.nullish (Wallet.quota_total <$> wallet) (QuotaConfig.quota <$> planConfig)) 0 in
  let used := JS.nullish_or (Wallet.quota_used <$> wallet) 0 in
  let remaining := Z.max 0 (total - used) in
  QuotaSnapshot.mk
    (Subscription.plan_id subscription)
    (Subscription.plan_key subscription)
    (Subscription.cycle subscription)
    (Subscription.is_active subscription)
    (Subscription.will_renew subscription)
    (JS.nullish (wallet ≫= Wallet.period_start)
       (Subscription.current_period_start subscription))
    (JS.nullish (wallet ≫= Wallet.period_end)
       (Subscription.current_period_end subscription))
    total used remaining
    (Wallet.id <$> wallet).

Definition getQuotaSnapshot (st : Store) (userId : string) : option QuotaSnapshot.t :=
  match getSubscription st userId with
  | None => None
  | Some subscription => Some (buildQuotaSnapshot st subscription)
  end.

(** [docRef.set({ id, email: email ?? null, updated_at, created_at },
    { merge: true })]: the four fields are written, any other field of an
    existing document stays. *)
Definition ensureUserRecord (users : gmap string QuotaUser.t) (userId : string)
    (email : option string) (now : Date) : gmap string QuotaUser.t :=
  let nowIso := JSDate.format now in
  <[userId :=
      QuotaUser.mk userId email (users !! userId ≫= QuotaUser.status) nowIso nowIso]>
    users.

(** The result is [None] when [syncQuotaFromPlan] throws; the user record
    is written before. *)
Definition ensureQuotaForUser (db : Database) (userId : string)
    (premiumStatus : option PremiumStatus) (now : Date)
    : option (option QuotaSnapshot.t) * Database :=
  let users := ensureUserRecord (users_quota db) userId None now in
  let st := documents db in
  match getSubscription st userId with
  | Some subscription =>
      (Some (Some (buildQuotaSnapshot st subscription)), mkDatabase users st)
  | None =>
      let synced :=
        match premiumStatus ≫= premium with
        | Some true =>
            let planId :=
              resolvePlanId PLAN_CONFIG (premiumStatus ≫= entitlementProductId) in
            if JS.truthy planId
            then syncQuotaFromPlan PLAN_CONFIG st userId planId now
            else Some st
        | _ => Some st
        end in
      match synced with
      | None => (None, mkDatabase users st)
      | Some st1 => (Some (getQuotaSnapshot st1 userId), mkDatabase users st1)
      end
  end.

End Reads.

(** *** Sequences of service calls *)

Inductive ServiceCall :=
| UsageCall (op : UsageOp)
| ProcessEvent (payload : RevenueCatEventContext) (now : Date)
| SyncPlan (userId : string) (planIdCandidate : option string) (now : Date)
| EnsureQuota (userId : string) (premiumStatus : option PremiumStatus) (now : Date).

(** A call that throws leaves what it wrote before. *)
Definition apply_call (PLAN_CONFIG : list PlanConfig)
    (Date_parse : string → option Date) (db : Database) (c : ServiceCall) : Database :=
  match c with
  | UsageCall op =>
      mkDatabase (users_quota db) (apply_op PLAN_CONFIG Date_parse (documents db) op)
  | ProcessEvent payload now =>
      mkDatabase (users_quota db)
        (processRevenueCatEvent PLAN_CONFIG (documents db) payload now)
  | SyncPlan userId candidate now =>
      mkDatabase (users_quota db)
        (default (documents db)
           (syncQuotaFromPlan PLAN_CONFIG (documents db) userId candidate now))
  | EnsureQuota userId premiumStatus now =>
      (ensureQuotaForUser PLAN_CONFIG db userId premiumStatus now).2
  end.

Definition run_calls (PLAN_CONFIG : list PlanConfig)
    (Date_parse : string → option Date) (db : Database) (calls : list ServiceCall)
    : Database :=
  foldl (apply_call PLAN_CONFIG Date_parse) db calls.

(** ** Vocabulary of the further statements *)

(** What may happen to a wallet document: only [quota_used], [status],
    [last_usage_at], [updated_at] and [closed_reason] are ever rewritten,
    and a closed wallet stays closed. *)
Definition wallet_evolves (w w' : Wallet.t) : Prop :=
  Wallet.id w' = Wallet.id w ∧
  Wallet.user_id w' = Wallet.user_id w ∧
  Wallet.subscription_id w' = Wallet.subscription_id w ∧
  Wallet.plan_id w' = Wallet.plan_id w ∧
  Wallet.scope w' = Wallet.scope w ∧
  Wallet.period_start w' = Wallet.period_start w ∧
  Wallet.period_end w' = Wallet.period_end w ∧
  Wallet.quota_total w' = Wallet.quota_total w ∧
  Wallet.created_at w' = Wallet.created_at w ∧
  (Wallet.status w = Wallet.closed → Wallet.status w' = Wallet.closed).

(** What may happen to a usage document: its status leaves [reserved] at
    most once, nothing else but [updated_at] is rewritten. *)
Definition usage_evolves (u u' : Usage.t) : Prop :=
  Usage.id u' = Usage.id u ∧
  Usage.user_id u' = Usage.user_id u ∧
  Usage.wallet_id u' = Usage.wallet_id u ∧
  Usage.request_id u' = Usage.request_id u ∧
  Usage.action u' = Usage.action u ∧
  Usage.amount u' = Usage.amount u ∧
  Usage.created_at u' = Usage.created_at u ∧
  (Usage.status u' = Usage.status u ∨ Usage.status u = Usage.reserved).

Definition store_evolves (st st' : Store) : Prop :=
  (∀ k w, quota_wallets st !! k = Some w →
     ∃ w', quota_wallets st' !! k = Some w' ∧ wallet_evolves w w') ∧
  (∀ k u, quota_usages st !! k = Some u →
     ∃ u', quota_usages st' !! k = Some u' ∧ usage_evolves u u') ∧
  (∀ k, is_Some (subscriptions_quota st !! k) →
        is_Some (subscriptions_quota st' !! k)) ∧
  (∀ k, is_Some (webhook_events st !! k) → is_Some (webhook_events st' !! k)).

(** No user has two active wallets. *)
Definition single_active_wallet (st : Store) : Prop :=
  ∀ userId k1 k2 w1 w2,
    quota_wallets st !! k1 = Some w1 → quota_wallets st !! k2 = Some w2 →
    matches_active userId w1 = true → matches_active userId w2 = true →
    k1 = k2.

Definition is_billing_event (c : ServiceCall) : Prop :=
  match c with
  | ProcessEvent _ _ => True
  | _ => False
  end.

Definition call_amount_nonneg (c : ServiceCall) : Prop :=
  match c with
  | UsageCall op => op_amount_nonneg op
  | _ => True
  end.

(** [is_active] says what [status] says. *)
Definition subscription_consistent (s : Subscription.t) : Prop :=
  Subscription.is_active s = true ↔
  (Subscription.status s = Subscription.active ∨
   Subscription.status s = Subscription.cancelled).

(** The identifying fields of every document agree with the id it is
    stored under. *)
Definition store_keys_ok (st : Store) : Prop :=
  wallet_ids_ok st ∧
  (∀ k s, subscriptions_quota st !! k = Some s →
     Subscription.id s = k ∧ Subscription.user_id s = k ∧ subscription_consistent s) ∧
  (∀ k u, quota_usages st !! k = Some u →
     Usage.id u = k ∧ k = usage_doc_id (Usage.user_id u) (Usage.request_id u) ∧
     Usage.request_id u ≠ "") ∧
  (∀ k e, webhook_events st !! k = Some e → WebhookEvent.id e = k).

Definition all_wallets_within_bounds (st : Store) : Prop :=
  ∀ k w, quota_wallets st !! k = Some w →
         0 ≤ Wallet.quota_used w ≤ Wallet.quota_total w.

Definition bounds_inv (st : Store) : Prop :=
  all_wallets_within_bounds st ∧ usage_amounts_nonneg st.

Definition catalog_quotas_nonneg (PLAN_CONFIG : list PlanConfig) : Prop :=
  ∀ plan, plan ∈ PLAN_CONFIG → 0 ≤ QuotaConfig.quota plan.

(** The amount a usage document holds against wallet [walletId]: its
    [amount] while it is reserved or committed on that wallet. *)
Definition held_amount (walletId : string) (u : Usage.t) : Z :=
  if decide (Usage.wallet_id u = walletId)
  then match Usage.status u with
       | Usage.rolled_back => 0
       | _ => Usage.amount u
       end
  else 0.

(** The sum of the amounts held against the wallet. *)
Definition held_total (usages : gmap string Usage.t) (walletId : string) : Z :=
  map_fold (λ _ u acc, held_amount walletId u + acc) 0 usages.

(** Every wallet's [quota_used] is the sum of the amounts held against it,
    and every usage document names a wallet that exists. *)
Definition ledger_balanced (st : Store) : Prop :=
  (∀ k w, quota_wallets st !! k = Some w →
          Wallet.quota_used w = held_total (quota_usages st) k) ∧
  (∀ k u, quota_usages st !! k = Some u →
          is_Some (quota_wallets st !! Usage.wallet_id u)).

(** The [quota_used] of the wallet document [k]; [0] when there is none. *)
Definition quota_used_of (st : Store) (k : string) : Z :=
  default 0 (Wallet.quota_used <$> quota_wallets st !! k).

(** The string is empty or starts with a character that is not white
    space. *)
Definition starts_clean (s : string) : Prop :=
  match s with
  | String c _ => JS.is_white_space c = false
  | EmptyString => True
  end.

(** ** Further sample data *)

Definition sample_db (st : Store) : Database := mkDatabase ∅ st.

(** A first call of a premium user holding the monthly product. *)
Definition premium_monthly_status : PremiumStatus :=
  mkPremiumStatus (Some true) (Some "aiorreal-monthly").

(** A refund of user [u]. *)
Definition refund_event : RevenueCatEventContext :=
  mkRevenueCatEventContext "u" (Some "E3") "REFUND" None None [] None None None None
    None None.

(** User [u] resumes the monthly product; the event carries no period. *)
Definition uncancellation_event : RevenueCatEventContext :=
  mkRevenueCatEventContext "u" (Some "E4") "UNCANCELLATION" None
    (Some "aiorreal-monthly") [] None None None None None None.

(** Usage of user [u], a renewal, a plan sync of user [v], a first call of
    user [x], and a refund. *)
Definition sample_calls : list ServiceCall :=
  [ UsageCall (Reserve "u" "r1" "ai_detect" 1 sample_now);
    ProcessEvent renewal_event sample_now;
    SyncPlan "v" (Some "aiorreal-yearly") sample_now;
    EnsureQuota "x" (Some premium_monthly_status) sample_now;
    UsageCall (Reserve "u" "r2" "ai_detect" 1 sample_now);
    UsageCall (Rollback "u" "r1" sample_now);
    ProcessEvent refund_event sample_now ].

(** The same without the billing events. *)
Definition sample_plan_calls : list ServiceCall :=
  [ UsageCall (Reserve "u" "r1" "ai_detect" 1 sample_now);
    SyncPlan "v" (Some "aiorreal-yearly") sample_now;
    EnsureQuota "x" (Some premium_monthly_status) sample_now;
    UsageCall (Reserve "u" "r2" "ai_detect" 2 sample_now);
    UsageCall (Rollback "u" "r1" sample_now);
    UsageCall (Commit "u" "r2" sample_now);
    SyncPlan "u" (Some "aiorreal-yearly") sample_now ].

(** ** Proof tools *)

Ltac case_if :=
  match goal with |- context [if ?b then _ else _] => destruct b end.

Create HintDb ledger discriminated.

(** ** The usage ledger *)

Section Ledger.
Variable PLAN_CONFIG : list PlanConfig.
Variable Date_parse : string → option Date.

Lemma same_account_refl w : same_account w w.
Proof. by repeat split. Qed.

Lemma same_account_trans w1 w2 w3 :
  same_account w1 w2 → same_account w2 w3 → same_account w1 w3.
Proof. unfold same_account. intros (?&?&?&?&?) (?&?&?&?&?). repeat split; congruence. Qed.

Lemma close_wallet_same_account reason now w :
  same_account w (close_wallet reason false now w).
Proof. by repeat split. Qed.

#[local] Hint Resolve same_account_refl close_wallet_same_account : ledger.

Lemma closeWalletsForUser_lookup st u reason z now k :
  quota_wallets (closeWalletsForUser st u reason z now) !! k =
  (λ data, if matches_active u data
           then close_wallet reason z (JSDate.format now) data else data)
    <$> quota_wallets st !! k.
Proof. unfold closeWalletsForUser. simpl. by rewrite lookup_fmap. Qed.

Lemma closeWalletsForUser_others st u reason z now :
  subscriptions_quota (closeWalletsForUser st u reason z now) = subscriptions_quota st ∧
  quota_usages (closeWalletsForUser st u reason z now) = quota_usages st ∧
  webhook_events (closeWalletsForUser st u reason z now) = webhook_events st.
Proof. done. Qed.

Lemma closeWalletsForUser_keeps st u reason now k w :
  quota_wallets st !! k = Some w →
  ∃ w', quota_wallets (closeWalletsForUser st u reason false now) !! k = Some w' ∧
        same_account w w'.
Proof.
  intros Hk. rewrite closeWalletsForUser_lookup, Hk. simpl.
  destruct (matches_active u w); eexists; split; eauto with ledger.
Qed.

Lemma closeWalletsForUser_none st u reason z now k :
  quota_wallets st !! k = None →
  quota_wallets (closeWalletsForUser st u reason z now) !! k = None.
Proof. intros Hk. by rewrite closeWalletsForUser_lookup, Hk. Qed.

Lemma new_wallet_id_fresh st : quota_wallets st !! new_wallet_id st = None.
Proof. apply not_elem_of_dom. unfold new_wallet_id. apply is_fresh. Qed.


Lemma first_of_elem l x : first_of l = Some x → x ∈ l.
Proof.
  revert x. induction l as [|a l IH]; intros x; simpl; [done|].
  destruct (first_of l) as [y|] eqn:Hy.
  - destruct (precedes a y); intros [= <-]; [left | right; by apply IH].
  - intros [= <-]. left.
Qed.

Lemma getActiveWallet_Some st u w :
  getActiveWallet st u = Some w →
  ∃ data, quota_wallets st !! Wallet.id w = Some data ∧
          w = Wallet.with_id data (Wallet.id w) ∧
          matches_active u data = true.
Proof.
  unfold getActiveWallet.
  destruct (first_of (active_wallet_docs st u)) as [[k data]|] eqn:Hf; [|done].
  intros [= <-]. apply first_of_elem in Hf.
  unfold active_wallet_docs in Hf.
  apply list_elem_of_filter in Hf as [Hm Hin]. simpl in Hm.
  apply elem_of_map_to_list in Hin.
  exists data. simpl. split_and!; [done..|]. by apply Is_true_true.
Qed.

Lemma openWalletForSubscription_spec st sub ce now r st1 :
  openWalletForSubscription PLAN_CONFIG st sub ce now = (r, st1) →
  subscriptions_quota st1 = subscriptions_quota st ∧
  quota_usages st1 = quota_usages st ∧
  webhook_events st1 = webhook_events st ∧
  (∀ k w, quota_wallets st !! k = Some w →
     ∃ w', quota_wallets st1 !! k = Some w' ∧ same_account w w') ∧
  (∀ k w', quota_wallets st !! k = None → quota_wallets st1 !! k = Some w' →
     Wallet.id w' = k ∧ Wallet.quota_used w' = 0) ∧
  (∀ w, r = Some w → quota_wallets st1 !! Wallet.id w = Some w).
Proof.
  unfold openWalletForSubscription.
  destruct (getPlanConfigById PLAN_CONFIG (Subscription.plan_id sub)) as [pc|].
  2:{ intros [= <- <-]. split_and!; try done.
      - intros k w Hk. eauto with ledger.
      - intros k w' H1 H2. congruence. }
  set (st0 := if ce then _ else st).
  assert (Hothers : subscriptions_quota st0 = subscriptions_quota st ∧
                    quota_usages st0 = quota_usages st ∧
                    webhook_events st0 = webhook_events st).
  { subst st0. destruct ce; done. }
  assert (Hkeep : ∀ k w, quota_wallets st !! k = Some w →
            ∃ w', quota_wallets st0 !! k = Some w' ∧ same_account w w').
  { subst st0. destruct ce; intros k w Hk.
    - by apply closeWalletsForUser_keeps.
    - eauto with ledger. }
  assert (Hnone : ∀ k, quota_wallets st !! k = None → quota_wallets st0 !! k = None).
  { subst st0. destruct ce; intros k Hk; [by apply closeWalletsForUser_none|done]. }
  pose proof (new_wallet_id_fresh st0) as Hfresh.
  intros [= <- <-]. simpl.
  destruct Hothers as (-> & -> & ->). split_and!; try done.
  - intros k w Hk. destruct (Hkeep k w Hk) as (w' & Hk' & Hsame).
    exists w'. split; [|done].
    rewrite lookup_insert_ne; [done|]. intros <-. congruence.
  - intros k w' Hk. destruct (decide (new_wallet_id st0 = k)) as [<-|Hne].
    + rewrite lookup_insert_eq. by intros [= <-].
    + rewrite lookup_insert_ne by done. rewrite (Hnone k Hk). done.
  - intros w [= <-]. simpl. by rewrite lookup_insert_eq.
Qed.

Lemma ensureActiveWallet_spec st u sub now r st1 :
  ensureActiveWallet PLAN_CONFIG Date_parse st u sub now = (r, st1) →
  subscriptions_quota st1 = subscriptions_quota st ∧
  quota_usages st1 = quota_usages st ∧
  webhook_events st1 = webhook_events st ∧
  (∀ k w, quota_wallets st !! k = Some w →
     ∃ w', quota_wallets st1 !! k = Some w' ∧ same_account w w') ∧
  (∀ k w', quota_wallets st !! k = None → quota_wallets st1 !! k = Some w' →
     Wallet.id w' = k ∧ Wallet.quota_used w' = 0) ∧
  (∀ w, r = Some w → is_Some (quota_wallets st1 !! Wallet.id w)).
Proof.
  unfold ensureActiveWallet.
  assert (Hsame : ∀ r, (r = getActiveWallet st u) →
    subscriptions_quota st = subscriptions_quota st ∧
    quota_usages st = quota_usages st ∧
    webhook_events st = webhook_events st ∧
    (∀ k w, quota_wallets st !! k = Some w →
       ∃ w', quota_wallets st !! k = Some w' ∧ same_account w w') ∧
    (∀ k w', quota_wallets st !! k = None → quota_wallets st !! k = Some w' →
       Wallet.id w' = k ∧ Wallet.quota_used w' = 0) ∧
    (∀ w, r = Some w → is_Some (quota_wallets st !! Wallet.id w))).
  { intros r0 ->. split_and!; try done.
    - eauto with ledger.
    - congruence.
    - intros w Hw. apply getActiveWallet_Some in Hw as (data & Hd & _). eauto. }
  destruct (negb (Subscription.is_active sub)).
  { intros [= <- <-]. split_and!; try done; [eauto with ledger | congruence]. }
  destruct (getPlanConfigById PLAN_CONFIG (Subscription.plan_id sub)).
  2:{ intros [= <- <-]. split_and!; try done; [eauto with ledger | congruence]. }
  case_if.
  { intros [= <- <-]. by apply Hsame. }
  case_if.
  { intros [= <- <-]. by apply Hsame. }
  intros Hopen. apply openWalletForSubscription_spec in Hopen
    as (Hs & Hu & Hw & Hkeep & Hnew & Hres).
  rewrite Hs, Hu, Hw. split_and!; try done.
  - intros k w Hk.
    destruct (closeWalletsForUser_keeps st u "period_reset" now k w Hk) as (w1 & Hk1 & Hs1).
    destruct (Hkeep k w1 Hk1) as (w2 & Hk2 & Hs2).
    eauto using same_account_trans.
  - intros k w' Hk. apply Hnew. by apply closeWalletsForUser_none.
  - intros w Hw'. rewrite (Hres w Hw'). eauto.
Qed.



Lemma reserveUsage_tx_inv st wref u r a amt nowIso k :
  0 ≤ amt → ledger_inv k st →
  ledger_inv k (reserveUsage_tx st wref u r a amt nowIso).2.
Proof.
  intros Hamt [Hb Hu]. unfold reserveUsage_tx.
  destruct (quota_wallets st !! wref) as [wd|] eqn:Hw; [|done].
  destruct (negb (Wallet.is_active wd)); [done|].
  destruct (quota_usages st !! usage_doc_id u r) eqn:Hus; [done|].
  destruct (Z.ltb_spec (Wallet.quota_total wd) (Wallet.quota_used wd + amt)); [done|].
  simpl. split.
  - destruct Hb as (w & Hk & Hbounds). unfold wallet_within_bounds. simpl.
    destruct (decide (wref = k)) as [->|Hne].
    + rewrite lookup_insert_eq. eexists; split; [done|]. simpl.
      assert (wd = w) as -> by congruence. lia.
    + rewrite lookup_insert_ne by done. eauto.
  - intros k' u'. simpl.
    destruct (decide (usage_doc_id u r = k')) as [<-|Hne].
    + rewrite lookup_insert_eq. by intros [= <-].
    + rewrite lookup_insert_ne by done. apply Hu.
Qed.

Lemma ensureActiveWallet_inv st u sub now k :
  ledger_inv k st →
  ledger_inv k (ensureActiveWallet PLAN_CONFIG Date_parse st u sub now).2.
Proof.
  intros [Hb Hu].
  destruct (ensureActiveWallet PLAN_CONFIG Date_parse st u sub now) as [r st1] eqn:He.
  apply ensureActiveWallet_spec in He as (_ & Hus & _ & Hkeep & _ & _). simpl.
  split.
  - destruct Hb as (w & Hk & Hbounds).
    destruct (Hkeep k w Hk) as (w' & Hk' & (_ & _ & _ & Ht & Hq)).
    exists w'. split; [done|]. lia.
  - unfold usage_amounts_nonneg. by rewrite Hus.
Qed.

Lemma reserveUsage_inv st u r a amt now k :
  0 ≤ amt → ledger_inv k st →
  ledger_inv k (reserveUsage PLAN_CONFIG Date_parse st u r a amt now).2.
Proof.
  intros Hamt Hinv. unfold reserveUsage.
  destruct (negb (JS.truthy (Some r))); [done|].
  destruct (getSubscription st u) as [sub|]; [|done].
  destruct (negb (Subscription.is_active sub)); [done|].
  pose proof (ensureActiveWallet_inv st u sub now k Hinv) as Hinv1.
  destruct (ensureActiveWallet PLAN_CONFIG Date_parse st u sub now) as [[w|] st1]; [|done].
  by apply reserveUsage_tx_inv.
Qed.

Lemma commitUsage_inv st u r now k :
  ledger_inv k st → ledger_inv k (commitUsage st u r now).2.
Proof.
  intros [Hb Hu]. unfold commitUsage.
  destruct (negb (JS.truthy (Some r))); [done|].
  destruct (quota_usages st !! usage_doc_id u r) as [us|] eqn:Hus; [|done].
  destruct (Usage.status us); [|done..].
  split; [done|]. intros k' u'. simpl.
  destruct (decide (usage_doc_id u r = k')) as [<-|Hne].
  - rewrite lookup_insert_eq. intros [= <-]. simpl. by eapply Hu.
  - rewrite lookup_insert_ne by done. apply Hu.
Qed.

Lemma rollbackUsage_inv st u r now k :
  ledger_inv k st → ledger_inv k (rollbackUsage st u r now).2.
Proof.
  intros [Hb Hu]. unfold rollbackUsage.
  destruct (negb (JS.truthy (Some r))); [done|].
  destruct (quota_usages st !! usage_doc_id u r) as [us|] eqn:Hus; [|done].
  destruct (Usage.status us); [|done..].
  pose proof (Hu _ _ Hus) as Hamt.
  destruct (quota_wallets st !! Usage.wallet_id us) as [w|] eqn:Hw; simpl.
  - split.
    + destruct Hb as (w0 & Hk & Hbounds). unfold wallet_within_bounds. simpl.
      destruct (decide (Usage.wallet_id us = k)) as [Heq|Hne].
      * rewrite Heq in *. rewrite lookup_insert_eq. eexists; split; [done|]. simpl.
        assert (w = w0) as -> by congruence. lia.
      * rewrite lookup_insert_ne by done. eauto.
    + intros k' u'. simpl.
      destruct (decide (usage_doc_id u r = k')) as [<-|Hne].
      * rewrite lookup_insert_eq. intros [= <-]. simpl. done.
      * rewrite lookup_insert_ne by done. apply Hu.
  - split; [done|]. intros k' u'. simpl.
    destruct (decide (usage_doc_id u r = k')) as [<-|Hne].
    + rewrite lookup_insert_eq. intros [= <-]. simpl. done.
    + rewrite lookup_insert_ne by done. apply Hu.
Qed.

Lemma apply_op_inv st op k :
  op_amount_nonneg op → ledger_inv k st →
  ledger_inv k (apply_op PLAN_CONFIG Date_parse st op).
Proof.
  destruct op; simpl; intros Hop Hinv.
  - by apply reserveUsage_inv.
  - by apply commitUsage_inv.
  - by apply rollbackUsage_inv.
Qed.

Lemma run_ops_inv ops : ∀ st k,
  Forall op_amount_nonneg ops → ledger_inv k st →
  ledger_inv k (run_ops PLAN_CONFIG Date_parse st ops).
Proof.
  induction ops as [|op ops IH]; intros st k Hops Hinv; [done|].
  apply Forall_cons in Hops as [Hop Hops]. simpl.
  apply IH; [done|]. by apply apply_op_inv.
Qed.

(** Claim C1.  A wallet whose [quota_used] lies between 0 and
    [quota_total] keeps that property after every operation of any finite
    sequence of Reserve, Commit and Rollback operations, whichever users and
    requests they name: after each prefix [take n ops] of the sequence the
    wallet is still there and has [0 ≤ quota_used ≤ quota_total].  Amounts
    are those of the data model: no Reserve of the sequence and no usage
    document of the initial store has a negative amount. *)
Theorem quota_used_stays_within_total st ops walletId n :
  wallet_within_bounds st walletId →
  usage_amounts_nonneg st →
  Forall op_amount_nonneg ops →
  wallet_within_bounds (run_ops PLAN_CONFIG Date_parse st (take n ops)) walletId.
Proof.
  intros Hb Hu Hops.
  apply (run_ops_inv (take n ops) st walletId); [|done].
  by apply Forall_take.
Qed.


(** *** The order of the active-wallet query *)

Lemma string_leb_refl a : String.leb a a = true.
Proof. apply Is_true_true. apply (reflexivity (R := String.le)). Qed.

Lemma string_leb_trans a b c :
  String.leb a b = true → String.leb b c = true → String.leb a c = true.
Proof.
  intros H1%Is_true_true H2%Is_true_true. apply Is_true_true.
  by apply (transitivity (R := String.le) (y := b)).
Qed.

Lemma string_leb_antisym a b :
  String.leb a b = true → String.leb b a = true → a = b.
Proof. apply String.leb_antisym. Qed.

Lemma period_leb_refl a : period_leb a a = true.
Proof. destruct a; simpl; [apply string_leb_refl | done]. Qed.

Lemma period_leb_trans a b c :
  period_leb a b = true → period_leb b c = true → period_leb a c = true.
Proof. destruct a, b, c; simpl; try done. apply string_leb_trans. Qed.

Lemma period_leb_antisym a b :
  period_leb a b = true → period_leb b a = true → a = b.
Proof.
  destruct a, b; simpl; try done. intros H1 H2. f_equal. by apply string_leb_antisym.
Qed.

Lemma period_leb_total a b : period_leb a b = true ∨ period_leb b a = true.
Proof. destruct a, b; simpl; auto. apply String.leb_total. Qed.

Lemma precedes_refl a : precedes a a = true.
Proof. unfold precedes. rewrite decide_True by done. apply string_leb_refl. Qed.

Lemma precedes_total a b : precedes a b = true ∨ precedes b a = true.
Proof.
  unfold precedes.
  destruct (decide (Wallet.period_end a.2 = Wallet.period_end b.2)) as [Heq|Hne].
  - rewrite decide_True by done. destruct (String.leb_total a.1 b.1); auto.
  - rewrite decide_False by done.
    destruct (period_leb_total (Wallet.period_end a.2) (Wallet.period_end b.2)); auto.
Qed.

Lemma precedes_trans a b c :
  precedes a b = true → precedes b c = true → precedes a c = true.
Proof.
  unfold precedes.
  destruct (decide (Wallet.period_end a.2 = Wallet.period_end b.2)) as [Hab|Hab];
  destruct (decide (Wallet.period_end b.2 = Wallet.period_end c.2)) as [Hbc|Hbc].
  - rewrite decide_True by congruence. intros; by eapply string_leb_trans.
  - rewrite decide_False by congruence. rewrite Hab. done.
  - rewrite decide_False by congruence. rewrite Hbc. done.
  - intros H1 H2.
    destruct (decide (Wallet.period_end a.2 = Wallet.period_end c.2)) as [Hac|Hac].
    + exfalso. apply Hab. apply period_leb_antisym; [|done]. by rewrite Hac.
    + by eapply period_leb_trans.
Qed.

Lemma precedes_antisym a b :
  precedes a b = true → precedes b a = true → a.1 = b.1.
Proof.
  unfold precedes.
  destruct (decide (Wallet.period_end a.2 = Wallet.period_end b.2)) as [Hab|Hab].
  - rewrite decide_True by done. intros H1 H2. by apply string_leb_antisym.
  - rewrite decide_False by done. intros H1 H2. exfalso. apply Hab.
    by apply period_leb_antisym.
Qed.

Lemma first_of_nonempty l x : x ∈ l → is_Some (first_of l).
Proof.
  destruct l as [|a l]; [by intros ?%elem_of_nil|]. intros _. simpl.
  destruct (first_of l); [destruct (precedes a _)|]; eauto.
Qed.

Lemma first_of_best l x : first_of l = Some x → ∀ y, y ∈ l → precedes x y = true.
Proof.
  revert x. induction l as [|a l IH]; intros x; simpl; [done|].
  destruct (first_of l) as [z|] eqn:Hz.
  - destruct (precedes a z) eqn:Haz; intros [= <-] y [->|Hy]%elem_of_cons.
    + apply precedes_refl.
    + eapply precedes_trans; [done|]. by apply IH.
    + destruct (precedes_total z a); [done|congruence].
    + by apply IH.
  - intros [= <-] y [->|Hy]%elem_of_cons; [apply precedes_refl|].
    destruct (first_of_nonempty l y Hy) as [? ?]. congruence.
Qed.

Lemma active_wallet_docs_elem st u k w :
  (k, w) ∈ active_wallet_docs st u ↔
  quota_wallets st !! k = Some w ∧ matches_active u w = true.
Proof.
  unfold active_wallet_docs. rewrite list_elem_of_filter, elem_of_map_to_list. simpl.
  rewrite Is_true_true. tauto.
Qed.

Lemma is_first_unique m u k1 w1 k2 w2 :
  is_first m u k1 w1 → is_first m u k2 w2 → k1 = k2 ∧ w1 = w2.
Proof.
  intros (H1 & Hm1 & Hb1) (H2 & Hm2 & Hb2).
  assert (k1 = k2) as ->.
  { apply (precedes_antisym (k1, w1) (k2, w2)); eauto. }
  split; [done|congruence].
Qed.

Lemma getActiveWallet_is_first st u r :
  getActiveWallet st u = Some r ↔
  ∃ k w, is_first (quota_wallets st) u k w ∧ r = Wallet.with_id w k.
Proof.
  unfold getActiveWallet. split.
  - destruct (first_of (active_wallet_docs st u)) as [[k w]|] eqn:Hf; [|done].
    intros [= <-]. exists k, w. split; [|done].
    pose proof (first_of_elem _ _ Hf) as Hin.
    apply active_wallet_docs_elem in Hin as [Hk Hm].
    split_and!; [done..|]. intros k' w' Hk' Hm'.
    apply (first_of_best _ _ Hf). by apply active_wallet_docs_elem.
  - intros (k & w & Hfirst & ->).
    assert (Hin : (k, w) ∈ active_wallet_docs st u).
    { apply active_wallet_docs_elem. by destruct Hfirst as (? & ? & _). }
    destruct (first_of_nonempty _ _ Hin) as [[k2 w2] Hf]. rewrite Hf.
    assert (is_first (quota_wallets st) u k2 w2) as Hfirst2.
    { pose proof (first_of_elem _ _ Hf) as Hin2.
      apply active_wallet_docs_elem in Hin2 as [Hk2 Hm2].
      split_and!; [done..|]. intros k' w' Hk' Hm'.
      apply (first_of_best _ _ Hf). by apply active_wallet_docs_elem. }
    destruct (is_first_unique _ _ _ _ _ _ Hfirst Hfirst2) as [-> ->]. done.
Qed.

Lemma getActiveWallet_None st u :
  getActiveWallet st u = None ↔
  ∀ k w, quota_wallets st !! k = Some w → matches_active u w = false.
Proof.
  unfold getActiveWallet. split.
  - destruct (first_of (active_wallet_docs st u)) as [[k0 w0]|] eqn:Hf; [done|].
    intros _ k w Hk. destruct (matches_active u w) eqn:Hm; [|done].
    assert (Hin : (k, w) ∈ active_wallet_docs st u) by by apply active_wallet_docs_elem.
    destruct (first_of_nonempty _ _ Hin) as [? ?]. congruence.
  - intros Hnone.
    destruct (first_of (active_wallet_docs st u)) as [[k0 w0]|] eqn:Hf; [|done].
    apply first_of_elem, active_wallet_docs_elem in Hf as [Hk Hm].
    rewrite (Hnone _ _ Hk) in Hm. done.
Qed.


Lemma with_id_same w : Wallet.with_id w (Wallet.id w) = w.
Proof. by destruct w. Qed.

Lemma getActiveWallet_lookup st u w :
  wallet_ids_ok st → getActiveWallet st u = Some w →
  is_first (quota_wallets st) u (Wallet.id w) w.
Proof.
  intros Hids (k & w0 & Hfirst & ->)%getActiveWallet_is_first. simpl.
  pose proof Hfirst as (Hk & _). rewrite <- (Hids _ _ Hk), with_id_same.
  by rewrite (Hids _ _ Hk).
Qed.

Lemma is_first_getActiveWallet st u w :
  is_first (quota_wallets st) u (Wallet.id w) w → getActiveWallet st u = Some w.
Proof.
  intros Hfirst. apply getActiveWallet_is_first.
  exists (Wallet.id w), w. by rewrite with_id_same.
Qed.

(** Rewriting fields other than the user, the status and the period end of
    one document does not change which document comes first. *)
Lemma is_first_insert m u k w k0 w0 w0' :
  m !! k0 = Some w0 →
  Wallet.user_id w0' = Wallet.user_id w0 →
  Wallet.status w0' = Wallet.status w0 →
  Wallet.period_end w0' = Wallet.period_end w0 →
  is_first m u k w →
  is_first (<[k0 := w0']> m) u k (if decide (k = k0) then w0' else w).
Proof.
  intros Hk0 Hu Hs Hp (Hk & Hm & Hbest).
  assert (Hmatch : matches_active u w0' = matches_active u w0).
  { unfold matches_active, Wallet.is_active. by rewrite Hu, Hs. }
  assert (Hprec : ∀ a b (x y x' y' : Wallet.t),
            Wallet.period_end x' = Wallet.period_end x →
            Wallet.period_end y' = Wallet.period_end y →
            precedes (a, x') (b, y') = precedes (a, x) (b, y)).
  { intros a b x y x' y' Hx Hy. unfold precedes. simpl. by rewrite Hx, Hy. }
  split_and!.
  - destruct (decide (k = k0)) as [->|Hne].
    + by rewrite lookup_insert_eq.
    + by rewrite lookup_insert_ne.
  - destruct (decide (k = k0)) as [->|Hne]; [|done].
    rewrite Hmatch. congruence.
  - intros k' w'. destruct (decide (k0 = k')) as [<-|Hne'].
    + rewrite lookup_insert_eq. intros [= <-]. rewrite Hmatch. intros Hm0.
      destruct (decide (k = k0)) as [->|Hne].
      * apply precedes_refl.
      * rewrite (Hprec k k0 w w0 w w0'); [by apply Hbest|done..].
    + rewrite lookup_insert_ne by done. intros Hk' Hm'.
      destruct (decide (k = k0)) as [->|Hne].
      * assert (w = w0) as -> by congruence.
        rewrite (Hprec k0 k' w0 w' w0' w'); [by apply Hbest|done..].
      * by apply Hbest.
Qed.

Lemma is_first_only m u k w :
  m !! k = Some w → matches_active u w = true →
  (∀ k' w', m !! k' = Some w' → matches_active u w' = true → k' = k) →
  is_first m u k w.
Proof.
  intros Hk Hm Honly. split_and!; [done..|]. intros k' w' Hk' Hm'.
  assert (k' = k) as -> by eauto. assert (w' = w) as -> by congruence.
  apply precedes_refl.
Qed.

Lemma closeWalletsForUser_no_active st u reason z now k w :
  quota_wallets (closeWalletsForUser st u reason z now) !! k = Some w →
  matches_active u w = false.
Proof.
  rewrite closeWalletsForUser_lookup.
  destruct (quota_wallets st !! k) as [w0|]; [|done]. simpl.
  destruct (matches_active u w0) eqn:Hm; intros [= <-]; [|done].
  unfold matches_active. simpl. apply andb_false_r.
Qed.

Lemma closeWalletsForUser_ids_ok st u reason z now :
  wallet_ids_ok st → wallet_ids_ok (closeWalletsForUser st u reason z now).
Proof.
  intros Hids k w. rewrite closeWalletsForUser_lookup.
  destruct (quota_wallets st !! k) as [w0|] eqn:Hk; [|done]. simpl.
  destruct (matches_active u w0); intros [= <-]; simpl; by apply Hids.
Qed.

Lemma closeWalletsForUser_idle st u reason z now :
  (∀ k w, quota_wallets st !! k = Some w → matches_active u w = false) →
  closeWalletsForUser st u reason z now = st.
Proof.
  intros Hnone. unfold closeWalletsForUser, set_wallets. destruct st as [s w us wh].
  simpl in *. f_equal. apply map_eq. intros k. rewrite lookup_fmap.
  destruct (w !! k) as [w0|] eqn:Hk; [|done]. simpl. by rewrite (Hnone _ _ Hk).
Qed.

Lemma openWalletForSubscription_active st sub now w st1 :
  wallet_ids_ok st →
  (∀ k w, quota_wallets st !! k = Some w →
          matches_active (Subscription.user_id sub) w = false) →
  openWalletForSubscription PLAN_CONFIG st sub true now = (Some w, st1) →
  getActiveWallet st1 (Subscription.user_id sub) = Some w ∧ wallet_ids_ok st1.
Proof.
  intros Hids Hnone. unfold openWalletForSubscription.
  destruct (getPlanConfigById PLAN_CONFIG (Subscription.plan_id sub)) as [pc|]; [|done].
  rewrite (closeWalletsForUser_idle st _ _ _ _ Hnone).
  pose proof (new_wallet_id_fresh st) as Hfresh.
  intros [= <- <-]. split.
  - apply is_first_getActiveWallet. simpl. apply is_first_only.
    + by rewrite lookup_insert_eq.
    + unfold matches_active. simpl. by rewrite String.eqb_refl.
    + intros k' w'. destruct (decide (new_wallet_id st = k')) as [<-|Hne]; [done|].
      rewrite lookup_insert_ne by done. intros Hk' Hm'.
      rewrite (Hnone _ _ Hk') in Hm'. done.
  - intros k w. simpl. destruct (decide (new_wallet_id st = k)) as [<-|Hne].
    + rewrite lookup_insert_eq. by intros [= <-].
    + rewrite lookup_insert_ne by done. apply Hids.
Qed.

(** The wallet [ensureActiveWallet] returns is the one the active-wallet
    query finds in the store it leaves. *)
Lemma ensureActiveWallet_active st u sub now w st1 :
  wallet_ids_ok st → Subscription.user_id sub = u →
  ensureActiveWallet PLAN_CONFIG Date_parse st u sub now = (Some w, st1) →
  getActiveWallet st1 u = Some w ∧ wallet_ids_ok st1.
Proof.
  intros Hids Hu. unfold ensureActiveWallet.
  destruct (negb (Subscription.is_active sub)); [done|].
  destruct (getPlanConfigById PLAN_CONFIG (Subscription.plan_id sub)); [|done].
  case_if.
  { by intros [= <- <-]. }
  case_if.
  { by intros [= <- <-]. }
  intros Hopen. rewrite <- Hu.
  eapply openWalletForSubscription_active; [| |done].
  - by apply closeWalletsForUser_ids_ok.
  - intros k w0. rewrite Hu. apply closeWalletsForUser_no_active.
Qed.

(** While the active wallet is within its period, [ensureActiveWallet]
    returns it and writes nothing. *)
Lemma ensureActiveWallet_running st u sub now w :
  Subscription.is_active sub = true →
  is_Some (getPlanConfigById PLAN_CONFIG (Subscription.plan_id sub)) →
  getActiveWallet st u = Some w →
  wallet_still_running Date_parse sub w now = true →
  ensureActiveWallet PLAN_CONFIG Date_parse st u sub now = (Some w, st).
Proof.
  intros Ha [pc Hpc] Hw Hrun. unfold ensureActiveWallet.
  by rewrite Ha, Hpc, Hw, Hrun.
Qed.


Lemma truthy_nonempty r : r ≠ "" → JS.truthy (Some r) = true.
Proof. by destruct r. Qed.

Lemma truthy_Some_inv r : JS.truthy (Some r) = true → r ≠ "".
Proof. by destruct r. Qed.

Lemma matches_active_is_active u w :
  matches_active u w = true → Wallet.is_active w = true.
Proof. unfold matches_active. by intros [_ ?]%andb_true_iff. Qed.

Lemma ensureActiveWallet_ids_ok st u sub now :
  wallet_ids_ok st →
  wallet_ids_ok (ensureActiveWallet PLAN_CONFIG Date_parse st u sub now).2.
Proof.
  intros Hids.
  destruct (ensureActiveWallet PLAN_CONFIG Date_parse st u sub now) as [r st1] eqn:He.
  apply ensureActiveWallet_spec in He as (_ & _ & _ & Hkeep & Hnew & _). simpl.
  intros k w' Hk'. destruct (quota_wallets st !! k) as [w|] eqn:Hk.
  - destruct (Hkeep k w Hk) as (w2 & Hk2 & (Hid & _)).
    assert (w2 = w') as -> by congruence. rewrite Hid. by apply Hids.
  - by destruct (Hnew k w' Hk Hk').
Qed.

Lemma ensureActiveWallet_result st u sub now w st1 :
  wallet_ids_ok st →
  ensureActiveWallet PLAN_CONFIG Date_parse st u sub now = (Some w, st1) →
  quota_wallets st1 !! Wallet.id w = Some w ∧ Wallet.is_active w = true.
Proof.
  intros Hids. unfold ensureActiveWallet.
  assert (Hexisting : getActiveWallet st u = Some w →
            quota_wallets st !! Wallet.id w = Some w ∧ Wallet.is_active w = true).
  { intros Hw. apply getActiveWallet_lookup in Hw as (Hk & Hm & _); [|done].
    eauto using matches_active_is_active. }
  destruct (negb (Subscription.is_active sub)); [done|].
  destruct (getPlanConfigById PLAN_CONFIG (Subscription.plan_id sub)) eqn:Hplan; [|done].
  case_if.
  { intros [= Hw <-]. by apply Hexisting. }
  case_if.
  { intros [= Hw <-]. by apply Hexisting. }
  unfold openWalletForSubscription. rewrite Hplan. intros [= <- <-]. simpl.
  by rewrite lookup_insert_eq.
Qed.

(** What a call of [reserveUsage] that returns [reserved] has done. *)
Lemma reserveUsage_reserved_inv st u r a amt now res st2 :
  wallet_ids_ok st →
  reserveUsage PLAN_CONFIG Date_parse st u r a amt now = (res, st2) →
  status res = usage_status Usage.reserved →
  ∃ sub w st1,
    r ≠ "" ∧ getSubscription st u = Some sub ∧
    ensureActiveWallet PLAN_CONFIG Date_parse st u sub now = (Some w, st1) ∧
    quota_wallets st1 !! Wallet.id w = Some w ∧
    ((∃ usage, quota_usages st1 !! usage_doc_id u r = Some usage ∧
               Usage.status usage = Usage.reserved ∧ st2 = st1 ∧
               res = mkReserveResult true (usage_status Usage.reserved)
                       (Z.max 0 (Wallet.quota_total w - Wallet.quota_used w))
                       (Some (Wallet.id w)))
     ∨ (quota_usages st1 !! usage_doc_id u r = None ∧
        st2 = set_usages
                (set_wallets st1
                   (<[Wallet.id w :=
                        Wallet.update_usage w (Wallet.quota_used w + amt)
                          (Some (JSDate.format now)) (JSDate.format now)]>
                      (quota_wallets st1)))
                (<[usage_doc_id u r :=
                     Usage.mk (usage_doc_id u r) u (Wallet.id w) r a amt
                       Usage.reserved (JSDate.format now) (JSDate.format now)]>
                   (quota_usages st1)) ∧
        res = mkReserveResult true (usage_status Usage.reserved)
                (Z.max 0 (Wallet.quota_total w - (Wallet.quota_used w + amt)))
                (Some (Wallet.id w)))).
Proof.
  intros Hids. unfold reserveUsage.
  destruct (JS.truthy (Some r)) eqn:Hr; [|by intros [= <- <-]]. simpl.
  apply truthy_Some_inv in Hr.
  destruct (getSubscription st u) as [sub|] eqn:Hsub; [|by intros [= <- <-]].
  destruct (negb (Subscription.is_active sub)); [by intros [= <- <-]|].
  destruct (ensureActiveWallet PLAN_CONFIG Date_parse st u sub now) as [[w|] st1] eqn:He;
    [|by intros [= <- <-]].
  destruct (ensureActiveWallet_result _ _ _ _ _ _ Hids He) as [Hk Hact].
  unfold reserveUsage_tx. rewrite Hk, Hact. simpl.
  destruct (quota_usages st1 !! usage_doc_id u r) as [usage|] eqn:Hus.
  - intros [= <- <-]. simpl. intros [= Hst].
    exists sub, w, st1. split_and!; try done. left. exists usage.
    split_and!; try done. by rewrite Hst.
  - destruct (Wallet.quota_total w <? Wallet.quota_used w + amt); [by intros [= <- <-]|].
    intros [= <- <-] _. exists sub, w, st1. split_and!; try done. by right.
Qed.


Lemma reserveUsage_running st u r a amt now sub w :
  wallet_ids_ok st → r ≠ "" →
  getSubscription st u = Some sub →
  Subscription.is_active sub = true →
  is_Some (getPlanConfigById PLAN_CONFIG (Subscription.plan_id sub)) →
  getActiveWallet st u = Some w →
  wallet_still_running Date_parse sub w now = true →
  reserveUsage PLAN_CONFIG Date_parse st u r a amt now =
  reserveUsage_tx st (Wallet.id w) u r a amt (JSDate.format now) ∧
  quota_wallets st !! Wallet.id w = Some w ∧ Wallet.is_active w = true.
Proof.
  intros Hids Hr Hsub Hact Hplan Hw Hrun.
  pose proof (ensureActiveWallet_running st u sub now w Hact Hplan Hw Hrun) as He.
  split; [|by eapply ensureActiveWallet_result].
  unfold reserveUsage. by rewrite (truthy_nonempty r Hr), Hsub, Hact, He.
Qed.

(** [ensureActiveWallet] keeps the active wallet for which no rollover is
    due, and writes nothing. *)
Lemma ensureActiveWallet_kept st u sub now w :
  Subscription.is_active sub = true →
  is_Some (getPlanConfigById PLAN_CONFIG (Subscription.plan_id sub)) →
  getActiveWallet st u = Some w →
  no_rollover_due Date_parse sub w now →
  ensureActiveWallet PLAN_CONFIG Date_parse st u sub now = (Some w, st).
Proof.
  intros Hact [plan Hplan] Hw Hkeep. unfold ensureActiveWallet.
  rewrite Hact, Hplan, Hw. cbn [negb].
  destruct Hkeep as [Hrun|[Hstart|Hend]].
  - by rewrite Hrun.
  - destruct (wallet_still_running Date_parse sub w now); [done|]. by rewrite Hstart.
  - destruct (wallet_still_running Date_parse sub w now); [done|].
    by rewrite Hend, orb_true_r.
Qed.

(** A wallet is found only for an active subscription with a catalog
    plan. *)
Lemma ensureActiveWallet_found st u sub now w st1 :
  ensureActiveWallet PLAN_CONFIG Date_parse st u sub now = (Some w, st1) →
  Subscription.is_active sub = true ∧
  is_Some (getPlanConfigById PLAN_CONFIG (Subscription.plan_id sub)).
Proof.
  unfold ensureActiveWallet.
  destruct (Subscription.is_active sub); [|done]. simpl.
  destruct (getPlanConfigById _ _); [eauto|done].
Qed.

Lemma ensureActiveWallet_no_rollover st u sub now w st1 w0 :
  ensureActiveWallet PLAN_CONFIG Date_parse st u sub now = (Some w, st1) →
  getActiveWallet st u = Some w0 →
  no_rollover_due Date_parse sub w0 now →
  st1 = st ∧ w = w0.
Proof.
  intros He Hw0 Hkeep.
  destruct (ensureActiveWallet_found _ _ _ _ _ _ He) as [Hact Hplan].
  rewrite (ensureActiveWallet_kept st u sub now w0 Hact Hplan Hw0 Hkeep) in He.
  by injection He as <- <-.
Qed.

(** A rollover debits no wallet. *)
Lemma ensureActiveWallet_quota_used st u sub now r st1 k :
  ensureActiveWallet PLAN_CONFIG Date_parse st u sub now = (r, st1) →
  quota_used_of st1 k = quota_used_of st k.
Proof.
  intros He.
  apply ensureActiveWallet_spec in He as (_ & _ & _ & Hold & Hnew & _).
  unfold quota_used_of.
  destruct (quota_wallets st !! k) as [w|] eqn:Hk.
  - destruct (Hold _ _ Hk) as (w' & -> & Hsame). simpl.
    by destruct Hsame as (_ & _ & _ & _ & ->).
  - destruct (quota_wallets st1 !! k) as [w'|] eqn:Hk'; [|done].
    simpl. by destruct (Hnew _ _ Hk Hk').
Qed.

(** A Reserve for which a wallet is found runs its transaction on that
    wallet, in the store [ensureActiveWallet] leaves. *)
Lemma reserveUsage_found st u r a amt now sub w st1 :
  wallet_ids_ok st → r ≠ "" →
  getSubscription st u = Some sub →
  ensureActiveWallet PLAN_CONFIG Date_parse st u sub now = (Some w, st1) →
  reserveUsage PLAN_CONFIG Date_parse st u r a amt now =
  reserveUsage_tx st1 (Wallet.id w) u r a amt (JSDate.format now) ∧
  quota_wallets st1 !! Wallet.id w = Some w ∧ Wallet.is_active w = true ∧
  quota_usages st1 = quota_usages st ∧
  subscriptions_quota st1 = subscriptions_quota st.
Proof.
  intros Hids Hr Hsub He.
  destruct (ensureActiveWallet_found _ _ _ _ _ _ He) as [Hact _].
  destruct (ensureActiveWallet_result _ _ _ _ _ _ Hids He) as [Hk Hwact].
  pose proof (ensureActiveWallet_spec _ _ _ _ _ _ He) as (Hs & Hus & _).
  split; [|done].
  unfold reserveUsage. by rewrite (truthy_nonempty r Hr), Hsub, Hact, He.
Qed.

(** Claim C2, as amended.  A Reserve call that finds the usage document
    [{userId}_{requestId}], in every state in which a wallet is found for
    the user, returns the document's current status, [allowed] exactly
    when that status is not [rolled_back], and the id of the wallet found;
    it creates no usage document and changes no wallet's [quota_used].
    When no rollover is due for the user's active wallet (it is within its
    period, or the subscription has no period), the call leaves the whole
    store as it was and returns the id of that wallet; and when the store
    is then the one a Reserve call for the pair has just produced with
    status [reserved], the result is that call's result: same status, same
    [walletId]. *)
Theorem reserve_replay_repeats_outcome st u r action amount now sub usage w st1 :
  wallet_ids_ok st →
  r ≠ "" →
  getSubscription st u = Some sub →
  quota_usages st !! usage_doc_id u r = Some usage →
  ensureActiveWallet PLAN_CONFIG Date_parse st u sub now = (Some w, st1) →
  let out := reserveUsage PLAN_CONFIG Date_parse st u r action amount now in
  out.2 = st1 ∧
  status out.1 = usage_status (Usage.status usage) ∧
  (allowed out.1 = true ↔ Usage.status usage ≠ Usage.rolled_back) ∧
  walletId out.1 = Some (Wallet.id w) ∧
  remaining out.1 = Z.max 0 (Wallet.quota_total w - Wallet.quota_used w) ∧
  quota_usages out.2 = quota_usages st ∧
  (∀ k, quota_used_of out.2 k = quota_used_of st k) ∧
  ∀ w0,
    getActiveWallet st u = Some w0 →
    no_rollover_due Date_parse sub w0 now →
    out.2 = st ∧
    walletId out.1 = Some (Wallet.id w0) ∧
    ∀ st0 action0 amount0 now0 res0,
      wallet_ids_ok st0 → subscription_ids_ok st0 →
      reserveUsage PLAN_CONFIG Date_parse st0 u r action0 amount0 now0 = (res0, st) →
      status res0 = usage_status Usage.reserved →
      out.1 = res0.
Proof.
  intros Hids Hr Hsub Hus He out.
  destruct (reserveUsage_found st u r action amount now sub w st1 Hids Hr Hsub He)
    as (Heq & Hk & Hwact & Hus1 & _).
  assert (Hout : out =
    (mkReserveResult
       (match Usage.status usage with Usage.rolled_back => false | _ => true end)
       (usage_status (Usage.status usage))
       (Z.max 0 (Wallet.quota_total w - Wallet.quota_used w))
       (Some (Wallet.id w)), st1)).
  { subst out. rewrite Heq. unfold reserveUsage_tx. by rewrite Hk, Hwact, Hus1, Hus. }
  rewrite Hout. simpl. split_and!; try done.
  { destruct (Usage.status usage); split; done. }
  { intros k. by eapply ensureActiveWallet_quota_used. }
  intros w0 Hw Hkeep.
  destruct (ensureActiveWallet_no_rollover _ _ _ _ _ _ _ He Hw Hkeep) as [-> ->].
  split_and!; try done.
  intros st0 action0 amount0 now0 res0 Hids0 Hsids0 Hfirst Hres0.
  destruct (reserveUsage_reserved_inv _ _ _ _ _ _ _ _ Hids0 Hfirst Hres0)
    as (sub0 & w1 & st2 & _ & Hsub0 & He0 & Hk0 & Hcases).
  assert (Hu0 : Subscription.user_id sub0 = u) by (by apply Hsids0).
  destruct (ensureActiveWallet_active _ _ _ _ _ _ Hids0 Hu0 He0) as [Hact1 Hids1].
  apply getActiveWallet_lookup in Hact1; [|done].
  destruct Hcases as [(usage0 & Hus0 & Hst0 & -> & ->)|(Hus0 & -> & ->)].
  - assert (usage0 = usage) as -> by congruence.
    apply is_first_getActiveWallet in Hact1.
    assert (w1 = w0) as -> by congruence. by rewrite Hst0.
  - simpl in Hus. rewrite lookup_insert_eq in Hus. injection Hus as <-. simpl.
    pose proof (is_first_insert _ u _ _ (Wallet.id w1) w1
      (Wallet.update_usage w1 (Wallet.quota_used w1 + amount0)
         (Some (JSDate.format now0)) (JSDate.format now0))
      Hk0 eq_refl eq_refl eq_refl Hact1) as Hfirst'.
    rewrite decide_True in Hfirst' by done.
    match type of Hw with
    | getActiveWallet ?s _ = _ =>
        pose proof (is_first_getActiveWallet s u
                      (Wallet.update_usage w1 (Wallet.quota_used w1 + amount0)
                         (Some (JSDate.format now0)) (JSDate.format now0))
                      Hfirst') as Hw'
    end.
    rewrite Hw in Hw'. injection Hw' as ->. done.
Qed.

(** The boundary: on a wallet one unit short of its total, a Reserve of
    one unit succeeds, and the next Reserve of one unit under another new
    request id, before which no rollover is due, is rejected. *)
Lemma reserveUsage_boundary st u sub now w st1 r1 r2 action1 action2 now2 :
  wallet_ids_ok st →
  getSubscription st u = Some sub →
  ensureActiveWallet PLAN_CONFIG Date_parse st u sub now = (Some w, st1) →
  getActiveWallet st1 u = Some w →
  Wallet.quota_used w = Wallet.quota_total w - 1 →
  r1 ≠ "" → r2 ≠ "" → r2 ≠ r1 →
  quota_usages st !! usage_doc_id u r1 = None →
  quota_usages st !! usage_doc_id u r2 = None →
  no_rollover_due Date_parse sub w now2 →
  ∃ st2,
    reserveUsage PLAN_CONFIG Date_parse st u r1 action1 1 now =
    (mkReserveResult true (usage_status Usage.reserved) 0 (Some (Wallet.id w)), st2) ∧
    reserveUsage PLAN_CONFIG Date_parse st2 u r2 action2 1 now2 =
    (mkReserveResult false rejected 0 (Some (Wallet.id w)), st2).
Proof.
  intros Hids Hsub He Hw Hused Hr1 Hr2 Hne Hus1 Hus2 Hkeep2.
  destruct (reserveUsage_found st u r1 action1 1 now sub w st1 Hids Hr1 Hsub He)
    as (-> & Hk & Hwact & Hus & Hs).
  destruct (ensureActiveWallet_found _ _ _ _ _ _ He) as [Hact Hplan].
  pose proof (ensureActiveWallet_ids_ok st u sub now Hids) as Hids1.
  rewrite He in Hids1. simpl in Hids1.
  unfold reserveUsage_tx at 1. rewrite Hk, Hwact, Hus, Hus1. simpl.
  destruct (Z.ltb_spec (Wallet.quota_total w) (Wallet.quota_used w + 1)); [lia|].
  eexists. split.
  { f_equal. f_equal. lia. }
  set (w' := Wallet.update_usage w _ _ _).
  set (st2 := set_usages _ _).
  assert (Hids2 : wallet_ids_ok st2).
  { intros k x. subst st2. simpl. destruct (decide (Wallet.id w = k)) as [<-|Hk'].
    - rewrite lookup_insert_eq. by intros [= <-].
    - rewrite lookup_insert_ne by done. apply Hids1. }
  assert (Hw2 : getActiveWallet st2 u = Some w').
  { apply (is_first_getActiveWallet st2 u w').
    pose proof (getActiveWallet_lookup _ _ _ Hids1 Hw) as Hfirst.
    pose proof (is_first_insert _ u _ _ (Wallet.id w) w w'
                  Hk eq_refl eq_refl eq_refl Hfirst) as Hfirst'.
    by rewrite decide_True in Hfirst' by done. }
  assert (Hsub2 : getSubscription st2 u = Some sub).
  { unfold getSubscription in *. subst st2. simpl. by rewrite Hs. }
  assert (He2 : ensureActiveWallet PLAN_CONFIG Date_parse st2 u sub now2 = (Some w', st2)).
  { by apply ensureActiveWallet_kept. }
  destruct (reserveUsage_found st2 u r2 action2 1 now2 sub w' st2 Hids2 Hr2 Hsub2 He2)
    as (-> & Hk2 & Hwact2 & _).
  unfold reserveUsage_tx. rewrite Hk2, Hwact2.
  assert (Hkey : usage_doc_id u r1 ≠ usage_doc_id u r2).
  { unfold usage_doc_id. intros Heq. apply Hne.
    apply (inj (String.app u)) in Heq. apply (inj (String.app "_")) in Heq. done. }
  subst st2. simpl. rewrite lookup_insert_ne by done. rewrite ?Hus, Hus2. simpl.
  destruct (Z.ltb_spec (Wallet.quota_total w) (Wallet.quota_used w + 1 + 1)); [|lia].
  f_equal. f_equal. lia.
Qed.

(** Claim C5, as amended.  In every state in which a wallet is found for
    the user, a Reserve for a request without usage document and with
    [quota_used + amount > quota_total] on that wallet returns
    [allowed = false], [status = rejected] and
    [remaining = max 0 (quota_total - quota_used)], creates no usage
    document and changes no wallet's [quota_used].  It writes nothing at
    all when no rollover is due for the user's active wallet (it is within
    its period, or the subscription has no period); otherwise the rollover
    before the transaction is all it writes.  At the boundary
    [quota_used = quota_total - 1] a Reserve of one unit succeeds, after
    which a Reserve of one unit under a different, new request id, before
    which no rollover is due, is rejected. *)
Theorem reserve_beyond_quota_rejected st u sub now w st1 :
  wallet_ids_ok st →
  getSubscription st u = Some sub →
  ensureActiveWallet PLAN_CONFIG Date_parse st u sub now = (Some w, st1) →
  (∀ r action amount,
     r ≠ "" → quota_usages st !! usage_doc_id u r = None →
     Wallet.quota_total w < Wallet.quota_used w + amount →
     reserveUsage PLAN_CONFIG Date_parse st u r action amount now =
     (mkReserveResult false rejected
        (Z.max 0 (Wallet.quota_total w - Wallet.quota_used w))
        (Some (Wallet.id w)), st1)) ∧
  quota_usages st1 = quota_usages st ∧
  (∀ k, quota_used_of st1 k = quota_used_of st k) ∧
  (∀ w0, getActiveWallet st u = Some w0 → no_rollover_due Date_parse sub w0 now →
         st1 = st ∧ w = w0) ∧
  (Subscription.user_id sub = u → getActiveWallet st1 u = Some w) ∧
  (∀ r1 r2 action1 action2 now2,
     getActiveWallet st1 u = Some w →
     Wallet.quota_used w = Wallet.quota_total w - 1 →
     r1 ≠ "" → r2 ≠ "" → r2 ≠ r1 →
     quota_usages st !! usage_doc_id u r1 = None →
     quota_usages st !! usage_doc_id u r2 = None →
     no_rollover_due Date_parse sub w now2 →
     ∃ st2,
       reserveUsage PLAN_CONFIG Date_parse st u r1 action1 1 now =
       (mkReserveResult true (usage_status Usage.reserved) 0 (Some (Wallet.id w)), st2) ∧
       reserveUsage PLAN_CONFIG Date_parse st2 u r2 action2 1 now2 =
       (mkReserveResult false rejected 0 (Some (Wallet.id w)), st2)).
Proof.
  intros Hids Hsub He. split_and!.
  - intros r action amount Hr Hus Hover.
    destruct (reserveUsage_found st u r action amount now sub w st1 Hids Hr Hsub He)
      as (-> & Hk & Hwact & Hus1 & _).
    unfold reserveUsage_tx. rewrite Hk, Hwact, Hus1, Hus. simpl.
    destruct (Z.ltb_spec (Wallet.quota_total w) (Wallet.quota_used w + amount)); [done|lia].
  - by apply ensureActiveWallet_spec in He as (_ & ? & _).
  - intros k. by eapply ensureActiveWallet_quota_used.
  - intros w0. by apply ensureActiveWallet_no_rollover.
  - intros Hu. by destruct (ensureActiveWallet_active _ _ _ _ _ _ Hids Hu He).
  - intros r1 r2 action1 action2 now2. by apply reserveUsage_boundary.
Qed.

(** Claim C4.  When the usage document of a request is [committed],
    Rollback returns [committed] and leaves the store as it was: neither
    the usage status nor any wallet's [quota_used] changes. *)
Theorem rollback_after_commit_is_ignored st u r now usage :
  r ≠ "" →
  quota_usages st !! usage_doc_id u r = Some usage →
  Usage.status usage = Usage.committed →
  rollbackUsage st u r now = (Some Usage.committed, st).
Proof.
  intros Hr Hus Hst. unfold rollbackUsage.
  by rewrite (truthy_nonempty r Hr), Hus, Hst.
Qed.

(** Claim C10.  For an active subscription whose [plan_id] resolves to no
    catalog entry, [ensureActiveWallet] returns no wallet and leaves the
    store as it was, whatever the wallet collection holds, and
    [reserveUsage] answers [allowed = false], [status = rejected],
    [remaining = 0], [walletId = null] without a write. *)
Theorem unresolved_plan_rejects_reserve st u sub r action amount now :
  getSubscription st u = Some sub →
  Subscription.is_active sub = true →
  getPlanConfigById PLAN_CONFIG (Subscription.plan_id sub) = None →
  (∀ wallets,
     ensureActiveWallet PLAN_CONFIG Date_parse (set_wallets st wallets) u sub now =
     (None, set_wallets st wallets)) ∧
  ensureActiveWallet PLAN_CONFIG Date_parse st u sub now = (None, st) ∧
  reserveUsage PLAN_CONFIG Date_parse st u r action amount now =
  (mkReserveResult false rejected 0 None, st).
Proof.
  intros Hsub Hact Hplan.
  assert (He : ∀ st', ensureActiveWallet PLAN_CONFIG Date_parse st' u sub now = (None, st')).
  { intros st'. unfold ensureActiveWallet. by rewrite Hact, Hplan. }
  split_and!; [done..|].
  unfold reserveUsage. destruct (JS.truthy (Some r)); [|done]. simpl.
  by rewrite Hsub, Hact, He.
Qed.


Lemma rollbackUsage_reserved st u r now usage wallet :
  r ≠ "" →
  quota_usages st !! usage_doc_id u r = Some usage →
  Usage.status usage = Usage.reserved →
  quota_wallets st !! Usage.wallet_id usage = Some wallet →
  rollbackUsage st u r now =
  (Some Usage.rolled_back,
   set_usages
     (set_wallets st
        (<[Usage.wallet_id usage :=
             Wallet.update_usage wallet
               (Z.max 0 (Wallet.quota_used wallet - Usage.amount usage))
               (Wallet.last_usage_at wallet) (JSDate.format now)]>
           (quota_wallets st)))
     (<[usage_doc_id u r :=
          Usage.with_status usage Usage.rolled_back (JSDate.format now)]>
        (quota_usages st))).
Proof.
  intros Hr Hus Hst Hw. unfold rollbackUsage.
  by rewrite (truthy_nonempty r Hr), Hus, Hst, Hw.
Qed.

(** Claim C3, as amended.  A Reserve that creates the reservation (no
    usage document existed for the pair) and returns [reserved], followed
    by Rollback of the same pair, returns [rolled_back], leaves the usage
    document in status [rolled_back] and every wallet that existed before
    the Reserve with the [quota_used] it had; a wallet the Reserve opened
    ends with [quota_used = 0]. *)
Theorem new_reserve_then_rollback_restores_quota
    st u r action amount now now' res st1 out st2 :
  wallet_ids_ok st →
  (∀ k w, quota_wallets st !! k = Some w → 0 ≤ Wallet.quota_used w) →
  quota_usages st !! usage_doc_id u r = None →
  reserveUsage PLAN_CONFIG Date_parse st u r action amount now = (res, st1) →
  status res = usage_status Usage.reserved →
  rollbackUsage st1 u r now' = (out, st2) →
  out = Some Usage.rolled_back ∧
  Usage.status <$> quota_usages st2 !! usage_doc_id u r = Some Usage.rolled_back ∧
  (∀ k w, quota_wallets st !! k = Some w →
     Wallet.quota_used <$> quota_wallets st2 !! k = Some (Wallet.quota_used w)) ∧
  (∀ k w, quota_wallets st !! k = None → quota_wallets st2 !! k = Some w →
     Wallet.quota_used w = 0).
Proof.
  intros Hids Hpos Hnew Hres Hstatus Hroll.
  destruct (reserveUsage_reserved_inv _ _ _ _ _ _ _ _ Hids Hres Hstatus)
    as (sub & w & st' & Hr & Hsub & He & Hk & Hcases).
  pose proof (ensureActiveWallet_spec _ _ _ _ _ _ He)
    as (_ & Hus & _ & Hkeep & Hopened & _).
  destruct Hcases as [(usage0 & Hus0 & _)|(_ & -> & ->)]; [congruence|].
  erewrite rollbackUsage_reserved in Hroll; [|done|simpl; apply lookup_insert_eq|done|simpl; apply lookup_insert_eq].
  injection Hroll as <- <-. simpl.
  rewrite lookup_insert_eq. split_and!; [done..| |].
  - intros k w0 Hk0. destruct (Hkeep k w0 Hk0) as (w1 & Hk1 & (_ & _ & _ & _ & Hq)).
    destruct (decide (Wallet.id w = k)) as [<-|Hne].
    + rewrite lookup_insert_eq. simpl. assert (w1 = w) as -> by congruence.
      f_equal. pose proof (Hpos _ _ Hk0). lia.
    + rewrite !lookup_insert_ne by done. rewrite Hk1. simpl. by rewrite Hq.
  - intros k w0 Hk0. destruct (decide (Wallet.id w = k)) as [<-|Hne].
    + rewrite lookup_insert_eq. intros [= <-]. simpl.
      destruct (Hopened _ _ Hk0 Hk) as [_ ->]. lia.
    + rewrite !lookup_insert_ne by done. intros Hk1.
      by destruct (Hopened _ _ Hk0 Hk1).
Qed.

End Ledger.

Section Webhook.
Variable PLAN_CONFIG : list PlanConfig.

Lemma processRevenueCatEvent_duplicate st payload now :
  is_Some (webhook_events st !! getWebhookEventId payload) →
  processRevenueCatEvent PLAN_CONFIG st payload now = st.
Proof. intros [doc Hdoc]. unfold processRevenueCatEvent. by rewrite Hdoc. Qed.

Lemma openWalletForSubscription_webhook_events st sub ce now :
  webhook_events (openWalletForSubscription PLAN_CONFIG st sub ce now).2 = webhook_events st.
Proof.
  destruct (openWalletForSubscription PLAN_CONFIG st sub ce now) as [r st1] eqn:Ho.
  by apply openWalletForSubscription_spec in Ho as (_ & _ & Hw & _).
Qed.

Lemma processRevenueCatEvent_recorded st payload now :
  webhook_events st !! getWebhookEventId payload = None →
  ∃ doc,
    webhook_events (processRevenueCatEvent PLAN_CONFIG st payload now)
      !! getWebhookEventId payload = Some doc ∧
    WebhookEvent.id doc = getWebhookEventId payload ∧
    WebhookEvent.event_type doc = normalizeEventType (Some (eventType payload)) ∧
    WebhookEvent.status doc = WebhookEvent.processed.
Proof.
  intros Hnew. unfold processRevenueCatEvent. rewrite Hnew. simpl.
  rewrite lookup_partial_alter_eq.
  match goal with
  | |- context [webhook_events (if ?b then ?x else ?y)] =>
      assert (Hwh : webhook_events (if b then x else y) = webhook_events y)
  end.
  { case_if; [|done].
    apply openWalletForSubscription_webhook_events. }
  rewrite Hwh. clear Hwh.
  match goal with
  | |- context [webhook_events (if ?b then ?x else ?y)] =>
      assert (Hwh : webhook_events (if b then x else y) = webhook_events y)
  end.
  { by case_if. }
  rewrite Hwh. simpl. rewrite lookup_insert_eq. simpl. eauto.
Qed.

Lemma processRevenueCatEvent_known st payload now :
  is_Some (webhook_events (processRevenueCatEvent PLAN_CONFIG st payload now)
             !! getWebhookEventId payload).
Proof.
  destruct (webhook_events st !! getWebhookEventId payload) as [doc|] eqn:Hdoc.
  - rewrite processRevenueCatEvent_duplicate by eauto. eauto.
  - destruct (processRevenueCatEvent_recorded st payload now Hdoc) as (d & -> & _). eauto.
Qed.

(** Claim C6.  The first processing of a billing event leaves the event's
    [webhook_events] document in the store (a new event's document carries
    the event id and is marked processed); every call after the first, at
    whatever time, finds that document and writes nothing, so that
    processing the event any number of times leaves the store the first
    processing produced.  The same holds for any later payload that
    derives the same event id. *)
Theorem billing_event_replay_changes_nothing st payload now nows :
  let first := processRevenueCatEvent PLAN_CONFIG st payload now in
  let after n :=
    foldl (λ s t, processRevenueCatEvent PLAN_CONFIG s payload t) st
      (now :: take n nows) in
  is_Some (webhook_events first !! getWebhookEventId payload) ∧
  (webhook_events st !! getWebhookEventId payload = None →
   ∃ doc, webhook_events first !! getWebhookEventId payload = Some doc ∧
          WebhookEvent.id doc = getWebhookEventId payload ∧
          WebhookEvent.status doc = WebhookEvent.processed) ∧
  (∀ n, is_Some (webhook_events (after n) !! getWebhookEventId payload) ∧
        after n = first) ∧
  foldl (λ s t, processRevenueCatEvent PLAN_CONFIG s payload t) st (now :: nows) = first ∧
  ∀ payload' now',
    getWebhookEventId payload' = getWebhookEventId payload →
    is_Some (webhook_events first !! getWebhookEventId payload') ∧
    processRevenueCatEvent PLAN_CONFIG first payload' now' = first.
Proof.
  intros first after.
  assert (Hknown : is_Some (webhook_events first !! getWebhookEventId payload))
    by apply processRevenueCatEvent_known.
  assert (Hdup : ∀ payload' now',
    getWebhookEventId payload' = getWebhookEventId payload →
    processRevenueCatEvent PLAN_CONFIG first payload' now' = first).
  { intros payload' now' Hid. apply processRevenueCatEvent_duplicate. by rewrite Hid. }
  assert (Hfold : ∀ l,
    foldl (λ s t, processRevenueCatEvent PLAN_CONFIG s payload t) st (now :: l) = first).
  { intros l. simpl. fold first.
    induction l as [|t l IH]; [done|]. simpl. by rewrite Hdup. }
  split_and!.
  - done.
  - intros Hnew.
    destruct (processRevenueCatEvent_recorded st payload now Hnew)
      as (doc & Hdoc & Hid & _ & Hstatus).
    by exists doc.
  - intros n. subst after. cbv beta. by rewrite Hfold.
  - apply Hfold.
  - intros payload' now' Hid. split; [by rewrite Hid|by apply Hdup].
Qed.

Lemma truthy_spec o : JS.truthy o = true ↔ ∃ s, o = Some s ∧ s ≠ "".
Proof.
  split.
  - destruct o as [[|c s]|]; try done. intros _. by eexists.
  - intros ([|c s] & -> & Hs); done.
Qed.

Lemma closeWalletsForUser_dom st u reason z now k :
  quota_wallets (closeWalletsForUser st u reason z now) !! k = None ↔
  quota_wallets st !! k = None.
Proof.
  rewrite closeWalletsForUser_lookup. destruct (quota_wallets st !! k); done.
Qed.

Lemma subscription_tx_planChanged payload ty planConfig existing nowIso :
  planChanged (subscription_tx PLAN_CONFIG payload ty planConfig existing nowIso) = true ↔
  plan_changed (next_plan PLAN_CONFIG planConfig existing) existing.
Proof.
  unfold subscription_tx, plan_changed. simpl.
  destruct (next_plan PLAN_CONFIG planConfig existing) as [plan|].
  2:{ split; [done|]. by intros (? & ? & ? & _). }
  rewrite andb_true_iff, truthy_spec, negb_true_iff, bool_decide_eq_false. split.
  - intros [(old & Hold & Hne) Hdiff]. exists plan, old. split_and!; try done.
    intros Heq. apply Hdiff. by rewrite Hold, Heq.
  - intros (plan' & old & [= <-] & Hold & Hne & Hdiff). split; [eauto|].
    rewrite Hold. by intros [= ?].
Qed.

Lemma subscription_tx_periodChanged payload ty planConfig existing nowIso :
  periodChanged (subscription_tx PLAN_CONFIG payload ty planConfig existing nowIso) = true ↔
  period_changed payload existing.
Proof.
  unfold subscription_tx, period_changed. simpl.
  rewrite !andb_true_iff, !truthy_spec, negb_true_iff, bool_decide_eq_false. split.
  - intros [[(pe & Hpe & Hne) (old & Hold & Hne')] Hdiff].
    destruct (periodEnd payload) as [pe'|] eqn:Hp; simpl in *.
    + injection Hpe as ->. exists pe, old. split_and!; try done.
      intros ->. apply Hdiff. by rewrite Hold.
    + exfalso. by apply Hdiff.
  - intros (pe & old & -> & Hne & Hold & Hne' & Hdiff). simpl. split_and!; eauto.
    rewrite Hold. by intros [= ?].
Qed.

(** Claim C7, as amended.  Processing an event that is not a duplicate
    opens a new wallet exactly when the derived [is_active] is true, the
    event is a purchase event or the plan changed or the period changed,
    and the [plan_id] of the written subscription resolves in the catalog;
    the plan changed when a plan is resolved, the existing subscription
    names one and the two ids differ, and the period changed when the
    payload's period end and the existing subscription's are both present
    and differ. *)
Theorem billing_event_opens_wallet_iff st payload now :
  webhook_events st !! getWebhookEventId payload = None →
  let existing := subscriptions_quota st !! userId payload in
  let ty := normalizeEventType (Some (eventType payload)) in
  let nextPlan := next_plan PLAN_CONFIG (payload_plan PLAN_CONFIG payload) existing in
  let next :=
    nextSubscription
      (subscription_tx PLAN_CONFIG payload ty (payload_plan PLAN_CONFIG payload)
         existing (JSDate.format now)) in
  opens_wallet st (processRevenueCatEvent PLAN_CONFIG st payload now) ↔
  Subscription.is_active next = true ∧
  (isPurchaseEvent ty = true ∨ plan_changed nextPlan existing ∨
   period_changed payload existing) ∧
  is_Some (getPlanConfigById PLAN_CONFIG (Subscription.plan_id next)).
Proof.
  intros Hnew existing ty nextPlan next.
  set (tr := subscription_tx PLAN_CONFIG payload ty (payload_plan PLAN_CONFIG payload)
               existing (JSDate.format now)) in *.
  assert (Hshould : shouldOpenWallet tr = true ↔
            Subscription.is_active next = true ∧
            (isPurchaseEvent ty = true ∨ plan_changed nextPlan existing ∨
             period_changed payload existing)).
  { subst nextPlan.
    rewrite <- (subscription_tx_planChanged payload ty (payload_plan PLAN_CONFIG payload)
                  existing (JSDate.format now)).
    rewrite <- (subscription_tx_periodChanged payload ty (payload_plan PLAN_CONFIG payload)
                  existing (JSDate.format now)).
    fold tr. subst tr next. unfold subscription_tx. simpl.
    rewrite andb_true_iff, !orb_true_iff. tauto. }
  enough (Hopen : opens_wallet st (processRevenueCatEvent PLAN_CONFIG st payload now) ↔
            shouldOpenWallet tr = true ∧
            is_Some (getPlanConfigById PLAN_CONFIG (Subscription.plan_id next))).
  { rewrite Hopen, Hshould. tauto. }
  clear Hshould.
  unfold processRevenueCatEvent. rewrite Hnew. cbv zeta.
  cbn [subscriptions_quota set_webhook_events].
  fold existing. fold ty. fold tr. fold next.
  set (st2 := set_subscriptions _ _).
  set (st3 := if shouldCloseWallet tr then _ else st2).
  assert (Hdom : ∀ k, quota_wallets st3 !! k = None ↔ quota_wallets st !! k = None).
  { intros k. subst st3. destruct (shouldCloseWallet tr); [|done].
    by rewrite closeWalletsForUser_dom. }
  unfold opens_wallet.
  destruct (shouldOpenWallet tr).
  2:{ split; [|by intros [? _]]. intros (k & Hk & Hsome). simpl in Hsome.
      apply Hdom in Hk. rewrite Hk in Hsome. by destruct Hsome. }
  unfold openWalletForSubscription.
  destruct (getPlanConfigById PLAN_CONFIG (Subscription.plan_id next)) as [pc|].
  2:{ split; [|by intros [_ [? ?]]]. intros (k & Hk & Hsome). simpl in Hsome.
      apply Hdom in Hk. rewrite Hk in Hsome. by destruct Hsome. }
  split; [eauto|]. intros _. cbv zeta.
  set (st3' := if (planChanged tr || periodChanged tr) then _ else st3).
  exists (new_wallet_id st3'). simpl. rewrite lookup_insert_eq. split; [|eauto].
  apply Hdom. pose proof (new_wallet_id_fresh st3') as Hfresh. subst st3'.
  destruct (planChanged tr || periodChanged tr); [|done].
  by apply closeWalletsForUser_dom in Hfresh.
Qed.

(** Claim C8, as amended.  The webhook event document id is [rc_]
    followed by the provider event id when that is present and not empty,
    and otherwise [rc_] followed by the SHA-256 of
    [userId:eventType:periodStart:periodEnd] over the event type as the
    payload carries it, an absent period bound counting as the empty
    string.  [processRevenueCatEvent] keeps the event under that id, with
    the upper-cased type in [event_type]; the hash is over the upper-cased
    type whenever the payload's type is already upper case. *)
Theorem webhook_event_document_id st payload now :
  getWebhookEventId payload = webhook_doc_id payload (eventType payload) ∧
  is_Some (webhook_events (processRevenueCatEvent PLAN_CONFIG st payload now)
             !! webhook_doc_id payload (eventType payload)) ∧
  (webhook_events st !! webhook_doc_id payload (eventType payload) = None →
   ∃ doc,
     webhook_events (processRevenueCatEvent PLAN_CONFIG st payload now)
       !! webhook_doc_id payload (eventType payload) = Some doc ∧
     WebhookEvent.id doc = webhook_doc_id payload (eventType payload) ∧
     WebhookEvent.event_type doc =
       JS.toUpperCase (if decide (eventType payload = "") then "UNKNOWN"
                       else eventType payload)) ∧
  (JS.toUpperCase (eventType payload) = eventType payload →
   getWebhookEventId payload =
   webhook_doc_id payload (JS.toUpperCase (eventType payload))).
Proof.
  assert (Hid : getWebhookEventId payload = webhook_doc_id payload (eventType payload)).
  { unfold getWebhookEventId, webhook_doc_id, toHash.
    destruct (eventId payload) as [[|c e]|]; done. }
  rewrite <- Hid. split_and!; [done| | |].
  - apply processRevenueCatEvent_known.
  - intros Hnew.
    destruct (processRevenueCatEvent_recorded st payload now Hnew)
      as (doc & Hdoc & Hdid & Hty & _).
    exists doc. split_and!; [done..|]. rewrite Hty. unfold normalizeEventType.
    destruct (eventType payload); done.
  - intros ->. done.
Qed.

End Webhook.


(** ** Calendar arithmetic of [Date.UTC] and the plan-sync period *)

Lemma leap_year_successor y : JSDate.is_leap y = true → JSDate.is_leap (y + 1) = false.
Proof.
  unfold JSDate.is_leap. intros H.
  apply orb_true_iff in H. rewrite andb_true_iff, negb_true_iff, !Z.eqb_eq, Z.eqb_neq in H.
  apply orb_false_iff. rewrite andb_false_iff, negb_false_iff, !Z.eqb_neq.
  split; [left|]; Z.div_mod_to_equations; lia.
Qed.

Lemma days_in_month_bounds y m : 28 ≤ JSDate.days_in_month y m ≤ 31.
Proof.
  unfold JSDate.days_in_month.
  repeat case_if; lia.
Qed.

Lemma TimeClip_in_range y m d :
  1970 ≤ y ≤ 275759 →
  JSDate.TimeClip (JSDate.mkDate y m d 0 0 0 0) = Some (JSDate.mkDate y m d 0 0 0 0).
Proof.
  intros Hy. unfold JSDate.TimeClip, JSDate.compare, JSDate.MIN_DATE, JSDate.MAX_DATE.
  cbn [JSDate.fields JSDate.lex_compare JSDate.getUTCFullYear].
  destruct (Z.compare_spec (-271821) y); try lia.
  destruct (Z.compare_spec y 275760); try lia. done.
Qed.

Lemma roll_forward_in_month fuel y m d :
  d ≤ JSDate.days_in_month y m →
  JSDate.roll_forward (S fuel) y m d = (y, m, d).
Proof.
  intros Hd. cbn [JSDate.roll_forward].
  destruct (Z.leb_spec d (JSDate.days_in_month y m)); [done|lia].
Qed.

Lemma roll_forward_carry fuel y m d :
  JSDate.days_in_month y m < d →
  JSDate.roll_forward (S fuel) y m d =
  JSDate.roll_forward fuel (JSDate.next_month y m).1 (JSDate.next_month y m).2
    (d - JSDate.days_in_month y m).
Proof.
  intros Hd. cbn [JSDate.roll_forward].
  destruct (Z.leb_spec d (JSDate.days_in_month y m)); [lia|].
  by destruct (JSDate.next_month y m).
Qed.

(** With the fuel [MakeDay] gives them, the carry and the borrow stop on a
    day of the month they have reached. *)
Lemma roll_forward_lands fuel : ∀ y m d,
  0 ≤ m ≤ 11 → 1 ≤ d → d ≤ 28 * Z.of_nat fuel →
  let '(y', m', d') := JSDate.roll_forward fuel y m d in
  0 ≤ m' ≤ 11 ∧ 1 ≤ d' ≤ JSDate.days_in_month y' m'.
Proof.
  induction fuel as [|fuel IH]; intros y m d Hm Hd Hfuel; [simpl in *; lia|].
  cbn [JSDate.roll_forward].
  destruct (Z.leb_spec d (JSDate.days_in_month y m)) as [Hin|Hover]; [lia|].
  pose proof (days_in_month_bounds y m).
  unfold JSDate.next_month. destruct (Z.eqb_spec m 11); apply IH; lia.
Qed.

Lemma roll_backward_lands fuel : ∀ y m d,
  0 ≤ m ≤ 11 → d ≤ JSDate.days_in_month y m → 1 - d ≤ 28 * Z.of_nat fuel →
  let '(y', m', d') := JSDate.roll_backward fuel y m d in
  0 ≤ m' ≤ 11 ∧ 1 ≤ d' ≤ JSDate.days_in_month y' m'.
Proof.
  induction fuel as [|fuel IH]; intros y m d Hm Hd Hfuel; [simpl in *; lia|].
  cbn [JSDate.roll_backward].
  destruct (Z.leb_spec 1 d) as [Hin|Hunder]; [lia|].
  unfold JSDate.prev_month. destruct (Z.eqb_spec m 0).
  - pose proof (days_in_month_bounds (y - 1) 11). apply IH; lia.
  - pose proof (days_in_month_bounds y (m - 1)). apply IH; lia.
Qed.

Lemma MakeDay_lands y m d :
  let '(y', m', d') := JSDate.MakeDay y m d in
  0 ≤ m' ≤ 11 ∧ 1 ≤ d' ≤ JSDate.days_in_month y' m'.
Proof.
  unfold JSDate.MakeDay.
  assert (0 ≤ m mod 12 ≤ 11) by (pose proof (Z.mod_pos_bound m 12); lia).
  pose proof (days_in_month_bounds (y + m / 12) (m mod 12)).
  destruct (Z.leb_spec 1 d).
  - apply roll_forward_lands; lia.
  - apply roll_backward_lands; lia.
Qed.

Lemma UTC_one_year_later now :
  JSDate.valid now → 1970 ≤ JSDate.getUTCFullYear now ≤ 275758 →
  JSDate.UTC (JSDate.getUTCFullYear now + 1) (JSDate.getUTCMonth now)
    (JSDate.getUTCDate now) =
  Some (one_year_later now).
Proof.
  intros (Hm & Hd & _) Hy. unfold JSDate.UTC, one_year_later.
  destruct now as [y m d h mi sec f].
  cbn [JSDate.getUTCFullYear JSDate.getUTCMonth JSDate.getUTCDate] in *.
  replace ((0 <=? y + 1) && (y + 1 <=? 99)) with false by lia.
  unfold JSDate.MakeDay.
  rewrite (Z.div_small m 12), (Z.mod_small m 12), Z.add_0_r by lia.
  destruct (Z.leb_spec 1 d); [|lia].
  destruct ((m =? 1) && (d =? 29)) eqn:Hfeb.
  - apply andb_true_iff in Hfeb as [->%Z.eqb_eq ->%Z.eqb_eq].
    assert (JSDate.is_leap y = true) as Hleap.
    { unfold JSDate.days_in_month in Hd. change (1 =? 1) with true in Hd.
      cbv iota in Hd. destruct (JSDate.is_leap y); [done|lia]. }
    assert (JSDate.days_in_month (y + 1) 1 = 28) as Hdim.
    { unfold JSDate.days_in_month. change (1 =? 1) with true. cbv iota.
      by rewrite (leap_year_successor y Hleap). }
    change (Z.to_nat 29) with (S (S 27)).
    rewrite roll_forward_carry by lia. rewrite Hdim.
    change (JSDate.next_month (y + 1) 1) with (y + 1, 2). cbn [fst snd].
    change (29 - 28) with 1.
    rewrite roll_forward_in_month by (pose proof (days_in_month_bounds (y + 1) 2); lia).
    apply TimeClip_in_range. lia.
  - assert (d ≤ JSDate.days_in_month (y + 1) m) as Hle.
    { unfold JSDate.days_in_month in *.
      destruct (Z.eqb_spec m 1) as [->|Hne]; [|by destruct Hd].
      rewrite andb_true_l in Hfeb. apply Z.eqb_neq in Hfeb.
      destruct (JSDate.is_leap y), (JSDate.is_leap (y + 1)); lia. }
    destruct (Z.to_nat d) as [|fuel] eqn:Hfuel; [lia|].
    rewrite roll_forward_in_month by done.
    apply TimeClip_in_range. lia.
Qed.

Lemma UTC_first_of_next_month now :
  JSDate.valid now → 1970 ≤ JSDate.getUTCFullYear now ≤ 275758 →
  JSDate.UTC (JSDate.getUTCFullYear now) (JSDate.getUTCMonth now + 1) 1 =
  Some (first_of_next_month now).
Proof.
  intros (Hm & _) Hy. unfold JSDate.UTC, first_of_next_month.
  destruct now as [y m d h mi sec f].
  cbn [JSDate.getUTCFullYear JSDate.getUTCMonth JSDate.getUTCDate] in *.
  replace ((0 <=? y) && (y <=? 99)) with false by lia.
  unfold JSDate.MakeDay. change (1 <=? 1) with true. cbv iota.
  change (Z.to_nat 1) with 1%nat.
  rewrite roll_forward_in_month
    by (pose proof (days_in_month_bounds (y + (m + 1) / 12) ((m + 1) mod 12)); lia).
  destruct (Z.eqb_spec m 11) as [->|Hne].
  - change ((11 + 1) / 12) with 1. change ((11 + 1) mod 12) with 0.
    apply TimeClip_in_range. lia.
  - rewrite (Z.div_small (m + 1) 12), (Z.mod_small (m + 1) 12) by lia.
    rewrite Z.add_0_r. apply TimeClip_in_range. lia.
Qed.

Section PlanSync.
Variable PLAN_CONFIG : list PlanConfig.

Lemma openWalletForSubscription_subscriptions st sub ce now :
  subscriptions_quota (openWalletForSubscription PLAN_CONFIG st sub ce now).2 =
  subscriptions_quota st.
Proof.
  destruct (openWalletForSubscription PLAN_CONFIG st sub ce now) as [r st1] eqn:Ho.
  by apply openWalletForSubscription_spec in Ho as (Hs & _).
Qed.

(** Claim C9, as amended.  A plan sync at UTC time [now] writes a period
    starting at [now]; for a monthly plan it ends at midnight UTC on the
    first day of the following month, for a yearly plan at midnight UTC on
    the same month and day of the following year, except that a sync on
    29 February ends on 1 March of the following year. *)
Theorem plan_sync_writes_period st u candidate now plan :
  JSDate.valid now →
  1970 ≤ JSDate.getUTCFullYear now ≤ 275758 →
  getPlanConfigById PLAN_CONFIG (resolvePlanId PLAN_CONFIG candidate) = Some plan →
  ∃ st' sub,
    syncQuotaFromPlan PLAN_CONFIG st u candidate now = Some st' ∧
    subscriptions_quota st' !! u = Some sub ∧
    Subscription.current_period_start sub = Some (JSDate.format now) ∧
    Subscription.current_period_end sub =
      Some (JSDate.format
              match QuotaConfig.cycle plan with
              | QuotaConfig.monthly => first_of_next_month now
              | QuotaConfig.yearly => one_year_later now
              end).
Proof.
  intros Hvalid Hyear Hplan. unfold syncQuotaFromPlan.
  assert (Hcfg : (if JS.truthy (resolvePlanId PLAN_CONFIG candidate)
                  then getPlanConfigById PLAN_CONFIG (resolvePlanId PLAN_CONFIG candidate)
                  else None) = Some plan).
  { destruct (resolvePlanId PLAN_CONFIG candidate) as [[|c s]|]; done. }
  rewrite Hcfg.
  rewrite (UTC_first_of_next_month now Hvalid Hyear).
  rewrite (UTC_one_year_later now Hvalid Hyear).
  set (periodEnd := JSDate.format
                      match QuotaConfig.cycle plan with
                      | QuotaConfig.monthly => first_of_next_month now
                      | QuotaConfig.yearly => one_year_later now
                      end).
  assert (Hend : match QuotaConfig.cycle plan with
                 | QuotaConfig.monthly => JSDate.toISOString (Some (first_of_next_month now))
                 | QuotaConfig.yearly => JSDate.toISOString (Some (one_year_later now))
                 end = Some periodEnd).
  { subst periodEnd. by destruct (QuotaConfig.cycle plan). }
  rewrite Hend. cbn [mbind option_bind].
  destruct (negb (String.eqb (QuotaConfig.planId plan) "free")).
  - eexists _, _. split; [reflexivity|].
    rewrite openWalletForSubscription_subscriptions.
    cbn [subscriptions_quota set_subscriptions]. rewrite lookup_insert_eq. done.
  - eexists _, _. split; [reflexivity|].
    cbn [subscriptions_quota set_subscriptions]. rewrite lookup_insert_eq. done.
Qed.

End PlanSync.

(** ** The properties on sample data *)

Lemma wallet_ids_ok_singleton st k w :
  quota_wallets st = {[ k := w ]} → Wallet.id w = k → wallet_ids_ok st.
Proof.
  intros Hst Hid k' w'. rewrite Hst. by intros [<- <-]%lookup_singleton_Some.
Qed.

Lemma valid_sample_now : JSDate.valid sample_now.
Proof. unfold JSDate.valid. vm_compute. repeat split; discriminate. Qed.

Lemma quota_used_stays_within_total_witness :
  wallet_within_bounds (sample_store feb feb 99 ∅) "w1" ∧
  usage_amounts_nonneg (sample_store feb feb 99 ∅) ∧
  Forall op_amount_nonneg sample_ops ∧
  wallet_within_bounds
    (run_ops default_plans JSDate.parseISO (sample_store feb feb 99 ∅) (take 2 sample_ops)) "w1".
Proof.
  assert (H1 : wallet_within_bounds (sample_store feb feb 99 ∅) "w1").
  { exists (sample_wallet 99 feb). split; [reflexivity|simpl; lia]. }
  assert (H2 : usage_amounts_nonneg (sample_store feb feb 99 ∅)).
  { intros k us. simpl. by rewrite lookup_empty. }
  assert (H3 : Forall op_amount_nonneg sample_ops).
  { repeat constructor; simpl; lia. }
  exact (conj H1 (conj H2 (conj H3
    (quota_used_stays_within_total default_plans JSDate.parseISO _ _ "w1" 2 H1 H2 H3)))).
Defined.

(** Against claim C2 as stated.  A replay after Commit returns
    [committed], not the [reserved] of the first call; a replay on a
    subscription whose period has ended closes the wallet the first call
    named and returns the id of a new one; and a replay after a refund has
    ended the subscription is rejected and names no wallet. *)
Lemma replay_differs_from_first_call :
  let reserve st := reserveUsage default_plans JSDate.parseISO st "u" "r1" "ai_detect" 1 sample_now in
  let made := reserve (sample_store feb feb 5 ∅) in
  let committed := commitUsage made.2 "u" "r1" sample_now in
  let replayed := reserve committed.2 in
  let first := reserve stale_store in
  let second := reserve first.2 in
  let refunded := reserve (processRevenueCatEvent default_plans made.2 refund_event sample_now) in
  status made.1 = usage_status Usage.reserved ∧
  is_Some (quota_usages committed.2 !! usage_doc_id "u" "r1") ∧
  status replayed.1 = usage_status Usage.committed ∧
  status first.1 = usage_status Usage.reserved ∧
  is_Some (quota_usages first.2 !! usage_doc_id "u" "r1") ∧
  walletId first.1 = Some "0" ∧
  walletId second.1 = Some "1" ∧
  Wallet.status <$> quota_wallets first.2 !! "0" = Some Wallet.active ∧
  Wallet.status <$> quota_wallets second.2 !! "0" = Some Wallet.closed ∧
  is_Some (quota_wallets second.2 !! "1") ∧
  walletId made.1 = Some "w1" ∧
  status refunded.1 = rejected ∧
  allowed refunded.1 = false ∧
  walletId refunded.1 = None.
Proof. vm_compute. split_and!; eauto. Qed.

Lemma reserve_replay_repeats_outcome_witness :
  let out := reserveUsage default_plans JSDate.parseISO replay_store "u" "r1" "ai_detect" 1
               sample_now in
  wallet_ids_ok replay_store ∧
  "r1" ≠ "" ∧
  getSubscription replay_store "u" = Some (sample_subscription feb) ∧
  quota_usages replay_store !! usage_doc_id "u" "r1" = Some (sample_usage Usage.reserved) ∧
  ensureActiveWallet default_plans JSDate.parseISO replay_store "u"
    (sample_subscription feb) sample_now = (Some (sample_wallet 5 feb), replay_store) ∧
  getActiveWallet replay_store "u" = Some (sample_wallet 5 feb) ∧
  no_rollover_due JSDate.parseISO (sample_subscription feb) (sample_wallet 5 feb)
    sample_now ∧
  out.2 = replay_store ∧
  status out.1 = usage_status Usage.reserved ∧
  walletId out.1 = Some "w1".
Proof.
  intros out.
  assert (H1 : wallet_ids_ok replay_store).
  { by apply (wallet_ids_ok_singleton _ "w1" (sample_wallet 5 feb)). }
  assert (H2 : "r1" ≠ "") by discriminate.
  assert (H3 : getSubscription replay_store "u" = Some (sample_subscription feb))
    by reflexivity.
  assert (H4 : quota_usages replay_store !! usage_doc_id "u" "r1"
               = Some (sample_usage Usage.reserved)).
  { vm_compute. reflexivity. }
  assert (H5 : ensureActiveWallet default_plans JSDate.parseISO replay_store "u"
                 (sample_subscription feb) sample_now
               = (Some (sample_wallet 5 feb), replay_store)).
  { vm_compute. reflexivity. }
  assert (H6 : getActiveWallet replay_store "u" = Some (sample_wallet 5 feb)).
  { vm_compute. reflexivity. }
  assert (H7 : no_rollover_due JSDate.parseISO (sample_subscription feb)
                 (sample_wallet 5 feb) sample_now).
  { left. vm_compute. reflexivity. }
  destruct (reserve_replay_repeats_outcome default_plans JSDate.parseISO replay_store "u" "r1"
              "ai_detect" 1 sample_now _ _ _ _ H1 H2 H3 H4 H5)
    as (_ & Hstatus & _ & _ & _ & _ & _ & Hkept).
  destruct (Hkept _ H6 H7) as (Hst & Hwid & _).
  exact (conj H1 (conj H2 (conj H3 (conj H4 (conj H5 (conj H6 (conj H7
           (conj Hst (conj Hstatus Hwid))))))))).
Defined.

(** Against claim C3 as stated.  A Reserve that replays an existing
    reservation returns [reserved] too; the Rollback after it leaves
    [quota_used] one below its value before that Reserve. *)
Lemma replayed_reserve_then_rollback_lowers_quota :
  let reserve := reserveUsage default_plans JSDate.parseISO replay_store "u" "r1" "ai_detect" 1 sample_now in
  let rollback := rollbackUsage reserve.2 "u" "r1" sample_now in
  allowed reserve.1 = true ∧
  status reserve.1 = usage_status Usage.reserved ∧
  Wallet.quota_used <$> quota_wallets replay_store !! "w1" = Some 5 ∧
  Wallet.quota_used <$> quota_wallets rollback.2 !! "w1" = Some 4.
Proof. vm_compute. split_and!; reflexivity. Qed.

Lemma new_reserve_then_rollback_restores_quota_witness :
  let st := sample_store feb feb 5 ∅ in
  let reserve := reserveUsage default_plans JSDate.parseISO st "u" "r1" "ai_detect" 1 sample_now in
  let rollback := rollbackUsage reserve.2 "u" "r1" sample_now in
  wallet_ids_ok st ∧
  (∀ k w, quota_wallets st !! k = Some w → 0 ≤ Wallet.quota_used w) ∧
  quota_usages st !! usage_doc_id "u" "r1" = None ∧
  status reserve.1 = usage_status Usage.reserved ∧
  Wallet.quota_used <$> quota_wallets rollback.2 !! "w1" = Some 5.
Proof.
  intros st reserve rollback.
  assert (H1 : wallet_ids_ok st).
  { by apply (wallet_ids_ok_singleton _ "w1" (sample_wallet 5 feb)). }
  assert (H2 : ∀ k w, quota_wallets st !! k = Some w → 0 ≤ Wallet.quota_used w).
  { intros k w. simpl. intros [<- <-]%lookup_singleton_Some. simpl. lia. }
  assert (H3 : quota_usages st !! usage_doc_id "u" "r1" = None) by reflexivity.
  assert (H4 : reserveUsage default_plans JSDate.parseISO st "u" "r1" "ai_detect" 1 sample_now
               = (reserve.1, reserve.2)) by apply surjective_pairing.
  assert (H5 : status reserve.1 = usage_status Usage.reserved).
  { vm_compute. reflexivity. }
  assert (H6 : rollbackUsage reserve.2 "u" "r1" sample_now = (rollback.1, rollback.2))
    by apply surjective_pairing.
  destruct (new_reserve_then_rollback_restores_quota default_plans JSDate.parseISO st "u" "r1"
              "ai_detect" 1 sample_now sample_now _ _ _ _ H1 H2 H3 H4 H5 H6)
    as (_ & _ & Hkeep & _).
  exact (conj H1 (conj H2 (conj H3 (conj H5
           (Hkeep "w1" (sample_wallet 5 feb) eq_refl))))).
Defined.

Lemma rollback_after_commit_is_ignored_witness :
  "r1" ≠ "" ∧
  quota_usages committed_store !! usage_doc_id "u" "r1"
    = Some (sample_usage Usage.committed) ∧
  Usage.status (sample_usage Usage.committed) = Usage.committed ∧
  rollbackUsage committed_store "u" "r1" sample_now
    = (Some Usage.committed, committed_store).
Proof.
  assert (H1 : "r1" ≠ "") by discriminate.
  assert (H2 : quota_usages committed_store !! usage_doc_id "u" "r1"
               = Some (sample_usage Usage.committed)) by reflexivity.
  assert (H3 : Usage.status (sample_usage Usage.committed) = Usage.committed)
    by reflexivity.
  exact (conj H1 (conj H2 (conj H3
    (rollback_after_commit_is_ignored committed_store "u" "r1" sample_now _ H1 H2 H3)))).
Defined.

(** Against claim C5 as stated.  A Reserve of more than the plan's quota,
    made after the wallet's period has ended, is rejected after it has
    closed the old wallet and opened a new one.  At the boundary after the
    period's end, the Reserve of one unit is made on the new wallet, and
    the next one is allowed as well.  And when no wallet is found, because
    the subscription's plan is not in the catalog, the remaining quota
    returned is 0, whatever the user's wallet holds. *)
Lemma rejected_reserve_after_period_end_writes :
  let st := sample_store feb past 0 ∅ in
  let reserve := reserveUsage default_plans JSDate.parseISO st "u" "r9" "ai_detect" 101 sample_now in
  let edge := sample_store feb past 99 ∅ in
  let first := reserveUsage default_plans JSDate.parseISO edge "u" "r1" "ai_detect" 1 sample_now in
  let second := reserveUsage default_plans JSDate.parseISO first.2 "u" "r2" "ai_detect" 1 sample_now in
  let orphan := reserveUsage default_plans JSDate.parseISO orphan_store "u" "r9" "ai_detect" 101 sample_now in
  quota_usages st !! usage_doc_id "u" "r9" = None ∧
  Wallet.quota_total (sample_wallet 0 past) < Wallet.quota_used (sample_wallet 0 past) + 101 ∧
  allowed reserve.1 = false ∧
  status reserve.1 = rejected ∧
  Wallet.status <$> quota_wallets st !! "w1" = Some Wallet.active ∧
  Wallet.status <$> quota_wallets reserve.2 !! "w1" = Some Wallet.closed ∧
  quota_wallets st !! "0" = None ∧
  is_Some (quota_wallets reserve.2 !! "0") ∧
  getActiveWallet edge "u" = Some (sample_wallet 99 past) ∧
  allowed first.1 = true ∧
  walletId first.1 = Some "0" ∧
  allowed second.1 = true ∧
  status second.1 = usage_status Usage.reserved ∧
  getActiveWallet orphan_store "u" = Some (sample_wallet 5 feb) ∧
  status orphan.1 = rejected ∧
  remaining orphan.1 = 0 ∧
  walletId orphan.1 = None.
Proof. vm_compute. split_and!; eauto. Qed.

Lemma reserve_beyond_quota_rejected_witness :
  let st := sample_store feb feb 99 ∅ in
  wallet_ids_ok st ∧
  getSubscription st "u" = Some (sample_subscription feb) ∧
  ensureActiveWallet default_plans JSDate.parseISO st "u" (sample_subscription feb)
    sample_now = (Some (sample_wallet 99 feb), st) ∧
  getActiveWallet st "u" = Some (sample_wallet 99 feb) ∧
  no_rollover_due JSDate.parseISO (sample_subscription feb) (sample_wallet 99 feb)
    sample_now ∧
  reserveUsage default_plans JSDate.parseISO st "u" "r1" "ai_detect" 2 sample_now
    = (mkReserveResult false rejected 1 (Some "w1"), st) ∧
  ∃ st1,
    reserveUsage default_plans JSDate.parseISO st "u" "r1" "ai_detect" 1 sample_now
      = (mkReserveResult true (usage_status Usage.reserved) 0 (Some "w1"), st1) ∧
    reserveUsage default_plans JSDate.parseISO st1 "u" "r2" "ai_detect" 1 sample_now
      = (mkReserveResult false rejected 0 (Some "w1"), st1).
Proof.
  intros st.
  assert (H1 : wallet_ids_ok st).
  { by apply (wallet_ids_ok_singleton _ "w1" (sample_wallet 99 feb)). }
  assert (H2 : getSubscription st "u" = Some (sample_subscription feb)) by reflexivity.
  assert (H3 : ensureActiveWallet default_plans JSDate.parseISO st "u"
                 (sample_subscription feb) sample_now
               = (Some (sample_wallet 99 feb), st)).
  { vm_compute. reflexivity. }
  assert (H4 : getActiveWallet st "u" = Some (sample_wallet 99 feb)).
  { vm_compute. reflexivity. }
  assert (H5 : no_rollover_due JSDate.parseISO (sample_subscription feb)
                 (sample_wallet 99 feb) sample_now).
  { left. vm_compute. reflexivity. }
  destruct (reserve_beyond_quota_rejected default_plans JSDate.parseISO st "u" _ sample_now
              _ _ H1 H2 H3) as (Hreject & _ & _ & _ & _ & Hboundary).
  assert (Hover : Wallet.quota_total (sample_wallet 99 feb)
                  < Wallet.quota_used (sample_wallet 99 feb) + 2) by (simpl; lia).
  assert (Hr1 : "r1" ≠ "") by discriminate.
  assert (Hr2 : "r2" ≠ "") by discriminate.
  assert (Hne : "r2" ≠ "r1") by discriminate.
  pose proof (Hreject "r1" "ai_detect" 2 Hr1 eq_refl Hover) as Hrejected.
  destruct (Hboundary "r1" "r2" "ai_detect" "ai_detect" sample_now
              H4 eq_refl Hr1 Hr2 Hne eq_refl eq_refl H5) as (st1 & Hfirst & Hsecond).
  split_and!; [done..| |].
  - rewrite Hrejected. reflexivity.
  - exists st1. split; [rewrite Hfirst|rewrite Hsecond]; reflexivity.
Defined.

(** Against claim C7 as stated.  An active purchase event for which no plan
    resolves opens no wallet. *)
Lemma purchase_without_plan_opens_no_wallet :
  let after := processRevenueCatEvent default_plans empty_store purchase_without_product sample_now in
  webhook_events empty_store !! getWebhookEventId purchase_without_product = None ∧
  Subscription.is_active <$> subscriptions_quota after !! "u" = Some true ∧
  isPurchaseEvent (normalizeEventType (Some (eventType purchase_without_product))) = true ∧
  ¬ opens_wallet empty_store after.
Proof.
  intros after. split_and!; [reflexivity| by vm_compute | by vm_compute |].
  intros (k & _ & Hsome).
  assert (Hw : quota_wallets after = ∅) by (vm_compute; reflexivity).
  rewrite Hw, lookup_empty in Hsome. by destruct Hsome.
Qed.

Lemma billing_event_replay_changes_nothing_witness :
  let first := processRevenueCatEvent default_plans empty_store renewal_event sample_now in
  getWebhookEventId renewal_event = getWebhookEventId renewal_event ∧
  webhook_events empty_store !! getWebhookEventId renewal_event = None ∧
  is_Some (webhook_events first !! getWebhookEventId renewal_event) ∧
  foldl (λ s t, processRevenueCatEvent default_plans s renewal_event t) empty_store
    [sample_now; leap_day; sample_now] = first ∧
  processRevenueCatEvent default_plans first renewal_event leap_day = first.
Proof.
  intros first.
  destruct (billing_event_replay_changes_nothing default_plans empty_store
              renewal_event sample_now [leap_day; sample_now])
    as (Hknown & _ & _ & Hfold & Hsame).
  exact (conj eq_refl (conj eq_refl (conj Hknown (conj Hfold
           (proj2 (Hsame renewal_event leap_day eq_refl)))))).
Defined.

Lemma billing_event_opens_wallet_iff_witness :
  webhook_events empty_store !! getWebhookEventId renewal_event = None ∧
  opens_wallet empty_store (processRevenueCatEvent default_plans empty_store renewal_event sample_now).
Proof.
  assert (H1 : webhook_events empty_store !! getWebhookEventId renewal_event = None)
    by reflexivity.
  split; [done|].
  apply (billing_event_opens_wallet_iff default_plans empty_store renewal_event sample_now H1).
  split_and!; [by vm_compute | left; by vm_compute | eexists; vm_compute; reflexivity].
Defined.

(** Against claim C8 as stated.  The id of an event whose type arrives in
    lower case is the hash over the lower-case type. *)
Lemma lower_case_event_type_is_hashed_as_received :
  getWebhookEventId lower_case_event =
    "rc_dc5e8be8413cc1c2df5847f872581400681403b45670b356f477b32971b4bd63" ∧
  webhook_doc_id lower_case_event (JS.toUpperCase (eventType lower_case_event)) =
    "rc_574aaa9b6ad3d837c170e664be6bbde7f71648f1359cf3291db0696f6a808341" ∧
  getWebhookEventId lower_case_event ≠
    webhook_doc_id lower_case_event (JS.toUpperCase (eventType lower_case_event)).
Proof. vm_compute. split_and!; [reflexivity..|discriminate]. Qed.

Lemma webhook_event_document_id_witness :
  getWebhookEventId renewal_event = "rc_E2" ∧
  is_Some (webhook_events
             (processRevenueCatEvent default_plans empty_store renewal_event sample_now)
             !! "rc_E2").
Proof.
  destruct (webhook_event_document_id default_plans empty_store renewal_event sample_now)
    as (Hid & Hkept & _).
  exact (conj Hid Hkept).
Defined.

(** Against claim C9 as stated.  A yearly sync on 29 February 2024 ends on
    1 March 2025. *)
Lemma yearly_sync_on_leap_day_ends_on_first_of_march :
  (st ← syncQuotaFromPlan default_plans empty_store "u" (Some "aiorreal-yearly") leap_day;
   sub ← subscriptions_quota st !! "u";
   Some (Subscription.cycle sub, Subscription.current_period_start sub,
         Subscription.current_period_end sub))
  = Some (Some QuotaConfig.yearly, Some "2024-02-29T12:00:00.000Z",
          Some "2025-03-01T00:00:00.000Z").
Proof. vm_compute. reflexivity. Qed.

Lemma plan_sync_writes_period_witness :
  JSDate.valid sample_now ∧
  1970 ≤ JSDate.getUTCFullYear sample_now ≤ 275758 ∧
  getPlanConfigById default_plans (resolvePlanId default_plans (Some "aiorreal-monthly"))
    = Some (QuotaConfig.mkPlanConfig "premium_monthly" "base" QuotaConfig.monthly 100
              ["ai_or_real_premium:aiorreal-monthly"; "aiorreal-monthly"]) ∧
  ∃ st' sub,
    syncQuotaFromPlan default_plans empty_store "u" (Some "aiorreal-monthly") sample_now = Some st' ∧
    subscriptions_quota st' !! "u" = Some sub ∧
    Subscription.current_period_start sub = Some "2025-01-31T12:00:00.000Z" ∧
    Subscription.current_period_end sub = Some "2025-02-01T00:00:00.000Z".
Proof.
  assert (H1 : JSDate.valid sample_now) by exact valid_sample_now.
  assert (H2 : 1970 ≤ JSDate.getUTCFullYear sample_now ≤ 275758) by (simpl; lia).
  assert (H3 : getPlanConfigById default_plans (resolvePlanId default_plans (Some "aiorreal-monthly"))
    = Some (QuotaConfig.mkPlanConfig "premium_monthly" "base" QuotaConfig.monthly 100
              ["ai_or_real_premium:aiorreal-monthly"; "aiorreal-monthly"])).
  { vm_compute. reflexivity. }
  split_and!; [done..|].
  destruct (plan_sync_writes_period default_plans empty_store "u" (Some "aiorreal-monthly")
              sample_now _ H1 H2 H3) as (st' & sub & Hsync & Hsub & Hstart & Hend).
  exists st', sub. split_and!; [done..|].
  rewrite Hend. vm_compute. reflexivity.
Defined.

Lemma unresolved_plan_rejects_reserve_witness :
  getSubscription orphan_store "u" = Some orphan_subscription ∧
  Subscription.is_active orphan_subscription = true ∧
  getPlanConfigById default_plans (Subscription.plan_id orphan_subscription) = None ∧
  ensureActiveWallet default_plans JSDate.parseISO orphan_store "u" orphan_subscription sample_now
    = (None, orphan_store) ∧
  reserveUsage default_plans JSDate.parseISO orphan_store "u" "r1" "ai_detect" 1 sample_now
    = (mkReserveResult false rejected 0 None, orphan_store).
Proof.
  assert (H1 : getSubscription orphan_store "u" = Some orphan_subscription) by reflexivity.
  assert (H2 : Subscription.is_active orphan_subscription = true) by reflexivity.
  assert (H3 : getPlanConfigById default_plans (Subscription.plan_id orphan_subscription) = None).
  { vm_compute. reflexivity. }
  destruct (unresolved_plan_rejects_reserve default_plans JSDate.parseISO orphan_store "u"
              orphan_subscription "r1" "ai_detect" 1 sample_now H1 H2 H3)
    as (_ & Hensure & Hreserve).
  exact (conj H1 (conj H2 (conj H3 (conj Hensure Hreserve)))).
Defined.

(** ** SHA-256 test vectors (FIPS 180-4, appendix B) *)

Example sha256_empty :
  SHA256.digest_hex "" =
  "e3b0c44298fc1c149afbf4c8996fb92427ae41e4649b934ca495991b7852b855".
Proof. vm_compute. reflexivity. Qed.

Example sha256_abc :
  SHA256.digest_hex "abc" =
  "ba7816bf8f01cfea414140de5dae2223b00361a396177a9cb410ff61f20015ad".
Proof. vm_compute. reflexivity. Qed.

Example sha256_two_blocks :
  SHA256.digest_hex "abcdbcdecdefdefgefghfghighijhijkijkljklmklmnlmnomnopnopq" =
  "248d6a61d20638b8e5c026930c3e6039a33ce45964ff2167f6ecedd419db06c1".
Proof. vm_compute. reflexivity. Qed.

(** * Further properties of the service *)

Section Evolution.
Variable PLAN_CONFIG : list PlanConfig.
Variable Date_parse : string → option Date.

Lemma wallet_evolves_refl w : wallet_evolves w w.
Proof. by repeat split. Qed.

Lemma wallet_evolves_trans w1 w2 w3 :
  wallet_evolves w1 w2 → wallet_evolves w2 w3 → wallet_evolves w1 w3.
Proof.
  unfold wallet_evolves. intros H1 H2.
  destruct H1 as (?&?&?&?&?&?&?&?&?&?), H2 as (?&?&?&?&?&?&?&?&?&?).
  repeat split; try congruence. auto.
Qed.

Lemma usage_evolves_refl u : usage_evolves u u.
Proof. repeat split. by left. Qed.

Lemma usage_evolves_trans u1 u2 u3 :
  usage_evolves u1 u2 → usage_evolves u2 u3 → usage_evolves u1 u3.
Proof.
  unfold usage_evolves. intros H1 H2.
  destruct H1 as (?&?&?&?&?&?&?&Ha), H2 as (?&?&?&?&?&?&?&Hb).
  repeat split; try congruence.
  destruct Ha as [Ha|Ha], Hb as [Hb|Hb]; [left|right|right|right]; congruence.
Qed.

Lemma store_evolves_refl st : store_evolves st st.
Proof.
  repeat split; eauto using wallet_evolves_refl, usage_evolves_refl.
Qed.

Lemma store_evolves_trans s1 s2 s3 :
  store_evolves s1 s2 → store_evolves s2 s3 → store_evolves s1 s3.
Proof.
  intros (Hw1 & Hu1 & Hs1 & He1) (Hw2 & Hu2 & Hs2 & He2). repeat split.
  - intros k w Hk. destruct (Hw1 _ _ Hk) as (w' & Hk' & ?).
    destruct (Hw2 _ _ Hk') as (w'' & ? & ?). eauto using wallet_evolves_trans.
  - intros k u Hk. destruct (Hu1 _ _ Hk) as (u' & Hk' & ?).
    destruct (Hu2 _ _ Hk') as (u'' & ? & ?). eauto using usage_evolves_trans.
  - auto.
  - auto.
Qed.

(** A step that rewrites the wallet collection only. *)
Lemma store_evolves_wallets st m :
  (∀ k w, quota_wallets st !! k = Some w →
     ∃ w', m !! k = Some w' ∧ wallet_evolves w w') →
  store_evolves st (set_wallets st m).
Proof.
  intros H. repeat split; simpl; eauto using usage_evolves_refl.
Qed.

Lemma close_wallet_evolves reason z now w :
  wallet_evolves w (close_wallet reason z now w).
Proof. by repeat split. Qed.

Lemma update_usage_evolves w used last now :
  wallet_evolves w (Wallet.update_usage w used last now).
Proof. by repeat split. Qed.

Lemma closeWalletsForUser_evolves st u reason z now :
  store_evolves st (closeWalletsForUser st u reason z now).
Proof.
  apply store_evolves_wallets. intros k w Hk.
  rewrite lookup_fmap, Hk. simpl. eexists; split; [done|].
  case_if; auto using wallet_evolves_refl, close_wallet_evolves.
Qed.

Lemma store_evolves_insert_wallet st k w' :
  (∀ w, quota_wallets st !! k = Some w → wallet_evolves w w') →
  store_evolves st (set_wallets st (<[k := w']> (quota_wallets st))).
Proof.
  intros H. apply store_evolves_wallets. intros k0 w Hk.
  destruct (decide (k0 = k)) as [->|Hne].
  - rewrite lookup_insert_eq. eauto.
  - rewrite lookup_insert_ne by done. eauto using wallet_evolves_refl.
Qed.

Lemma openWalletForSubscription_evolves st sub ce now :
  store_evolves st (openWalletForSubscription PLAN_CONFIG st sub ce now).2.
Proof.
  unfold openWalletForSubscription.
  destruct (getPlanConfigById _ _); simpl; [|apply store_evolves_refl].
  eapply store_evolves_trans; [|apply store_evolves_insert_wallet].
  - destruct ce; [apply closeWalletsForUser_evolves|apply store_evolves_refl].
  - intros w Hw. by rewrite new_wallet_id_fresh in Hw.
Qed.

Lemma ensureActiveWallet_evolves st u sub now :
  store_evolves st (ensureActiveWallet PLAN_CONFIG Date_parse st u sub now).2.
Proof.
  unfold ensureActiveWallet.
  repeat (case_if || destruct (getPlanConfigById _ _)); simpl;
    try apply store_evolves_refl.
  eapply store_evolves_trans;
    [apply closeWalletsForUser_evolves|apply openWalletForSubscription_evolves].
Qed.

Lemma reserveUsage_tx_evolves st wref u r a amt nowIso :
  store_evolves st (reserveUsage_tx st wref u r a amt nowIso).2.
Proof.
  unfold reserveUsage_tx.
  destruct (quota_wallets st !! wref) as [w|] eqn:Hw; [|apply store_evolves_refl].
  case_if; [apply store_evolves_refl|].
  destruct (quota_usages st !! usage_doc_id u r) eqn:Hu; [apply store_evolves_refl|].
  case_if; [apply store_evolves_refl|]. simpl.
  repeat split; simpl.
  - intros k w0 Hk. destruct (decide (k = wref)) as [->|Hne].
    + rewrite lookup_insert_eq. eexists; split; [done|].
      assert (w0 = w) as -> by congruence. apply update_usage_evolves.
    + rewrite lookup_insert_ne by done. eauto using wallet_evolves_refl.
  - intros k u0 Hk. destruct (decide (k = usage_doc_id u r)) as [->|Hne].
    + congruence.
    + rewrite lookup_insert_ne by done. eauto using usage_evolves_refl.
  - auto.
  - auto.
Qed.

Lemma reserveUsage_evolves st u r a amt now :
  store_evolves st (reserveUsage PLAN_CONFIG Date_parse st u r a amt now).2.
Proof.
  unfold reserveUsage. case_if; [apply store_evolves_refl|].
  destruct (getSubscription st u) as [sub|]; [|apply store_evolves_refl].
  case_if; [apply store_evolves_refl|].
  pose proof (ensureActiveWallet_evolves st u sub now) as He.
  destruct (ensureActiveWallet _ _ st u sub now) as [[w|] st1]; simpl in *; [|done].
  eapply store_evolves_trans; [done|apply reserveUsage_tx_evolves].
Qed.

Lemma store_evolves_insert_usage st k u' :
  (∀ u, quota_usages st !! k = Some u → usage_evolves u u') →
  store_evolves st (set_usages st (<[k := u']> (quota_usages st))).
Proof.
  intros H. repeat split; simpl; eauto using wallet_evolves_refl.
  intros k0 u Hk. destruct (decide (k0 = k)) as [->|Hne].
  - rewrite lookup_insert_eq. eauto.
  - rewrite lookup_insert_ne by done. eauto using usage_evolves_refl.
Qed.

Lemma with_status_evolves u s now :
  Usage.status u = Usage.reserved → usage_evolves u (Usage.with_status u s now).
Proof. intros. repeat split. by right. Qed.

Lemma commitUsage_evolves st u r now :
  store_evolves st (commitUsage st u r now).2.
Proof.
  unfold commitUsage. case_if; [apply store_evolves_refl|].
  destruct (quota_usages st !! usage_doc_id u r) as [usage|] eqn:Hu;
    [|apply store_evolves_refl].
  destruct (Usage.status usage) eqn:Hs; simpl; try apply store_evolves_refl.
  apply store_evolves_insert_usage. intros u0 Hu0.
  assert (u0 = usage) as -> by congruence. by apply with_status_evolves.
Qed.

Lemma rollbackUsage_evolves st u r now :
  store_evolves st (rollbackUsage st u r now).2.
Proof.
  unfold rollbackUsage. case_if; [apply store_evolves_refl|].
  destruct (quota_usages st !! usage_doc_id u r) as [usage|] eqn:Hu;
    [|apply store_evolves_refl].
  destruct (Usage.status usage) eqn:Hs; simpl; try apply store_evolves_refl.
  eapply store_evolves_trans; [|apply store_evolves_insert_usage].
  - destruct (quota_wallets st !! Usage.wallet_id usage) as [w|] eqn:Hw;
      [|apply store_evolves_refl].
    apply store_evolves_insert_wallet. intros w0 Hw0.
    assert (w0 = w) as -> by congruence. apply update_usage_evolves.
  - intros u0 Hu0.
    assert (quota_usages st !! usage_doc_id u r = Some u0) as Hu1.
    { by destruct (quota_wallets st !! Usage.wallet_id usage). }
    assert (u0 = usage) as -> by congruence. by apply with_status_evolves.
Qed.

Lemma processRevenueCatEvent_evolves st payload now :
  store_evolves st (processRevenueCatEvent PLAN_CONFIG st payload now).
Proof.
  unfold processRevenueCatEvent.
  destruct (webhook_events st !! getWebhookEventId payload) eqn:Hdup;
    [apply store_evolves_refl|].
  cbv zeta.
  set (st1 := set_webhook_events st _).
  set (tr := subscription_tx _ _ _ _ _ _).
  set (st2 := set_subscriptions st1 _).
  set (st3 := if shouldCloseWallet tr then _ else st2).
  set (st4 := if shouldOpenWallet tr then _ else st3).
  assert (store_evolves st st2) as H2.
  { repeat split; simpl; eauto using wallet_evolves_refl, usage_evolves_refl.
    - intros k Hk. destruct (decide (k = userId payload)) as [->|Hne].
      + by rewrite lookup_insert_eq.
      + by rewrite lookup_insert_ne.
    - intros k Hk. destruct (decide (k = getWebhookEventId payload)) as [->|Hne].
      + by rewrite lookup_insert_eq.
      + by rewrite lookup_insert_ne. }
  assert (store_evolves st2 st3) as H3.
  { subst st3. case_if; [apply closeWalletsForUser_evolves|apply store_evolves_refl]. }
  assert (store_evolves st3 st4) as H4.
  { subst st4. case_if; [apply openWalletForSubscription_evolves|apply store_evolves_refl]. }
  eapply store_evolves_trans; [exact H2|].
  eapply store_evolves_trans; [exact H3|].
  eapply store_evolves_trans; [exact H4|].
  repeat split; simpl; eauto using wallet_evolves_refl, usage_evolves_refl.
  intros k Hk. destruct (decide (k = getWebhookEventId payload)) as [->|Hne].
  - rewrite lookup_partial_alter_eq. destruct (webhook_events st4 !! _); simpl; eauto.
  - by rewrite lookup_partial_alter_ne.
Qed.

Lemma syncQuotaFromPlan_evolves st u candidate now st' :
  syncQuotaFromPlan PLAN_CONFIG st u candidate now = Some st' →
  store_evolves st st'.
Proof.
  unfold syncQuotaFromPlan.
  destruct (if JS.truthy _ then _ else _) as [plan|];
    [|intros [= <-]; apply store_evolves_refl].
  cbv zeta.
  destruct (match QuotaConfig.cycle plan with
            | QuotaConfig.monthly => _ | QuotaConfig.yearly => _ end)
    as [periodEnd|]; simpl; [|done].
  set (st1 := set_subscriptions st _).
  assert (store_evolves st st1) as H1.
  { repeat split; simpl; eauto using wallet_evolves_refl, usage_evolves_refl.
    intros k Hk. destruct (decide (k = u)) as [->|Hne].
    - by rewrite lookup_insert_eq.
    - by rewrite lookup_insert_ne. }
  case_if; intros [= <-]; [|done].
  eapply store_evolves_trans; [exact H1|apply openWalletForSubscription_evolves].
Qed.

Lemma ensureQuotaForUser_evolves db u ps now :
  store_evolves (documents db)
    (documents (ensureQuotaForUser PLAN_CONFIG db u ps now).2).
Proof.
  unfold ensureQuotaForUser. cbv zeta.
  destruct (getSubscription _ _); simpl; [apply store_evolves_refl|].
  destruct (ps ≫= premium) as [[]|]; simpl; try apply store_evolves_refl.
  case_if; simpl; [|apply store_evolves_refl].
  destruct (syncQuotaFromPlan _ _ _ _ _) eqn:Hs; simpl; [|apply store_evolves_refl].
  by eapply syncQuotaFromPlan_evolves.
Qed.

Lemma apply_call_evolves db c :
  store_evolves (documents db) (documents (apply_call PLAN_CONFIG Date_parse db c)).
Proof.
  destruct c as [[]| | |]; simpl.
  - apply reserveUsage_evolves.
  - apply commitUsage_evolves.
  - apply rollbackUsage_evolves.
  - apply processRevenueCatEvent_evolves.
  - destruct (syncQuotaFromPlan _ _ _ _ _) eqn:Hs; simpl;
      [by eapply syncQuotaFromPlan_evolves|apply store_evolves_refl].
  - apply ensureQuotaForUser_evolves.
Qed.

(** Extra property X3.  Over every sequence of service calls (usage
    operations, billing events, plan syncs, first calls of a user) no
    wallet, usage, subscription or webhook document is ever deleted; a
    wallet keeps its id, user, subscription, plan, scope, period,
    [quota_total] and creation time, and once closed stays closed; a usage
    document keeps its id, user, wallet, request, action, amount and
    creation time, and its status changes only while it is [reserved]. *)
Theorem service_calls_only_evolve_documents db calls :
  store_evolves (documents db)
    (documents (run_calls PLAN_CONFIG Date_parse db calls)).
Proof.
  revert db. induction calls as [|c calls IH]; intros db; simpl.
  - apply store_evolves_refl.
  - eapply store_evolves_trans; [apply apply_call_evolves|apply IH].
Qed.

End Evolution.

Section Bounds.
Variable PLAN_CONFIG : list PlanConfig.
Variable Date_parse : string → option Date.
Hypothesis catalog_ok : catalog_quotas_nonneg PLAN_CONFIG.

Lemma getPlanConfigById_elem id plan :
  getPlanConfigById PLAN_CONFIG id = Some plan → plan ∈ PLAN_CONFIG.
Proof.
  unfold getPlanConfigById, QuotaConfig.getPlanConfigById.
  destruct id as [[|c s]|]; try done.
  intros H. apply find_some in H as [H _]. by apply list_elem_of_In.
Qed.

Lemma closeWalletsForUser_bounds st u reason z now :
  bounds_inv st → bounds_inv (closeWalletsForUser st u reason z now).
Proof.
  intros [Hb Ha]. split; [|done].
  intros k w. rewrite closeWalletsForUser_lookup.
  destruct (quota_wallets st !! k) as [w0|] eqn:Hk; [|done]. simpl.
  intros [= <-]. specialize (Hb _ _ Hk).
  case_if; [|done]. destruct z; simpl; lia.
Qed.

Lemma openWalletForSubscription_bounds st sub ce now :
  bounds_inv st →
  bounds_inv (openWalletForSubscription PLAN_CONFIG st sub ce now).2.
Proof.
  intros Hi. unfold openWalletForSubscription.
  destruct (getPlanConfigById _ _) as [plan|] eqn:Hp; [|done]. simpl.
  assert (bounds_inv (if ce then closeWalletsForUser st (Subscription.user_id sub)
                                  "plan_change" false now else st)) as [Hb Ha].
  { destruct ce; [by apply closeWalletsForUser_bounds|done]. }
  split; [|done]. intros k w. simpl.
  destruct (decide (k = new_wallet_id
              (if ce then closeWalletsForUser st (Subscription.user_id sub)
                            "plan_change" false now else st))) as [->|Hne].
  - rewrite lookup_insert_eq. intros [= <-]. simpl.
    pose proof (catalog_ok _ (getPlanConfigById_elem _ _ Hp)). lia.
  - rewrite lookup_insert_ne by done. apply Hb.
Qed.

Lemma ensureActiveWallet_bounds st u sub now :
  bounds_inv st →
  bounds_inv (ensureActiveWallet PLAN_CONFIG Date_parse st u sub now).2.
Proof.
  intros Hi. unfold ensureActiveWallet.
  repeat (case_if || destruct (getPlanConfigById _ _)); simpl; try done.
  by apply openWalletForSubscription_bounds, closeWalletsForUser_bounds.
Qed.

Lemma reserveUsage_tx_bounds st wref u r a amt nowIso :
  0 ≤ amt → bounds_inv st →
  bounds_inv (reserveUsage_tx st wref u r a amt nowIso).2.
Proof.
  intros Hamt [Hb Ha]. unfold reserveUsage_tx.
  destruct (quota_wallets st !! wref) as [w|] eqn:Hw; [|done].
  case_if; [done|].
  destruct (quota_usages st !! usage_doc_id u r) eqn:Hu; [done|].
  destruct (Z.ltb_spec (Wallet.quota_total w) (Wallet.quota_used w + amt)); [done|].
  simpl. split.
  - intros k w0. simpl. destruct (decide (k = wref)) as [->|Hne].
    + rewrite lookup_insert_eq. intros [= <-]. simpl.
      specialize (Hb _ _ Hw). lia.
    + rewrite lookup_insert_ne by done. apply Hb.
  - intros k u0. simpl. destruct (decide (k = usage_doc_id u r)) as [->|Hne].
    + rewrite lookup_insert_eq. by intros [= <-].
    + rewrite lookup_insert_ne by done. apply Ha.
Qed.

Lemma reserveUsage_bounds st u r a amt now :
  0 ≤ amt → bounds_inv st →
  bounds_inv (reserveUsage PLAN_CONFIG Date_parse st u r a amt now).2.
Proof.
  intros Hamt Hi. unfold reserveUsage. case_if; [done|].
  destruct (getSubscription st u) as [sub|]; [|done].
  case_if; [done|].
  pose proof (ensureActiveWallet_bounds st u sub now Hi) as He.
  destruct (ensureActiveWallet _ _ st u sub now) as [[w|] st1]; simpl in *; [|done].
  by apply reserveUsage_tx_bounds.
Qed.

Lemma commitUsage_bounds st u r now :
  bounds_inv st → bounds_inv (commitUsage st u r now).2.
Proof.
  intros [Hb Ha]. unfold commitUsage. case_if; [done|].
  destruct (quota_usages st !! usage_doc_id u r) as [usage|] eqn:Hu; [|done].
  destruct (Usage.status usage); try done. simpl. split; [done|].
  intros k u0. simpl. destruct (decide (k = usage_doc_id u r)) as [->|Hne].
  - rewrite lookup_insert_eq. intros [= <-]. simpl. eauto.
  - rewrite lookup_insert_ne by done. apply Ha.
Qed.

Lemma rollbackUsage_bounds st u r now :
  bounds_inv st → bounds_inv (rollbackUsage st u r now).2.
Proof.
  intros [Hb Ha]. unfold rollbackUsage. case_if; [done|].
  destruct (quota_usages st !! usage_doc_id u r) as [usage|] eqn:Hu; [|done].
  destruct (Usage.status usage); try done. simpl.
  pose proof (Ha _ _ Hu) as Hamt.
  assert (bounds_inv
            match quota_wallets st !! Usage.wallet_id usage with
            | Some wallet =>
                set_wallets st
                  (<[Usage.wallet_id usage :=
                       Wallet.update_usage wallet
                         (Z.max 0 (Wallet.quota_used wallet - Usage.amount usage))
                         (Wallet.last_usage_at wallet) (JSDate.format now)]>
                     (quota_wallets st))
            | None => st
            end) as [Hb1 Ha1].
  { destruct (quota_wallets st !! Usage.wallet_id usage) as [w|] eqn:Hw; [|done].
    split; [|done]. intros k w0. simpl.
    destruct (decide (k = Usage.wallet_id usage)) as [->|Hne].
    - rewrite lookup_insert_eq. intros [= <-]. simpl. specialize (Hb _ _ Hw). lia.
    - rewrite lookup_insert_ne by done. apply Hb. }
  split; [done|].
  intros k u0. simpl. destruct (decide (k = usage_doc_id u r)) as [->|Hne].
  - rewrite lookup_insert_eq. intros [= <-]. simpl. done.
  - rewrite lookup_insert_ne by done. apply Ha1.
Qed.

Lemma processRevenueCatEvent_bounds st payload now :
  bounds_inv st → bounds_inv (processRevenueCatEvent PLAN_CONFIG st payload now).
Proof.
  intros Hi. unfold processRevenueCatEvent.
  destruct (webhook_events st !! getWebhookEventId payload); [done|].
  cbv zeta.
  set (st1 := set_webhook_events st _).
  set (tr := subscription_tx _ _ _ _ _ _).
  set (st2 := set_subscriptions st1 _).
  set (st3 := if shouldCloseWallet tr then _ else st2).
  set (st4 := if shouldOpenWallet tr then _ else st3).
  assert (bounds_inv st2) as H2 by done.
  assert (bounds_inv st3) as H3.
  { subst st3. case_if; [by apply closeWalletsForUser_bounds|done]. }
  assert (bounds_inv st4) as H4.
  { subst st4. case_if; [by apply openWalletForSubscription_bounds|done]. }
  done.
Qed.

Lemma syncQuotaFromPlan_bounds st u candidate now st' :
  syncQuotaFromPlan PLAN_CONFIG st u candidate now = Some st' →
  bounds_inv st → bounds_inv st'.
Proof.
  unfold syncQuotaFromPlan. intros Hs Hi. revert Hs.
  destruct (if JS.truthy _ then _ else _) as [plan|]; [|by intros [= <-]].
  cbv zeta.
  destruct (match QuotaConfig.cycle plan with
            | QuotaConfig.monthly => _ | QuotaConfig.yearly => _ end)
    as [periodEnd|]; simpl; [|done].
  case_if; intros [= <-]; [|done].
  by apply openWalletForSubscription_bounds.
Qed.

Lemma apply_call_bounds db c :
  call_amount_nonneg c → bounds_inv (documents db) →
  bounds_inv (documents (apply_call PLAN_CONFIG Date_parse db c)).
Proof.
  intros Hc Hi. destruct c as [[]| | |u ps now]; simpl.
  - by apply reserveUsage_bounds.
  - by apply commitUsage_bounds.
  - by apply rollbackUsage_bounds.
  - by apply processRevenueCatEvent_bounds.
  - destruct (syncQuotaFromPlan _ _ _ _ _) eqn:Hs; simpl;
      [by eapply syncQuotaFromPlan_bounds|done].
  - unfold ensureQuotaForUser. cbv zeta.
    destruct (getSubscription _ _); simpl; [done|].
    destruct (ps ≫= premium) as [[]|]; simpl; try done.
    case_if; simpl; [|done].
    destruct (syncQuotaFromPlan _ _ _ _ _) eqn:Hs; simpl; [|done].
    by eapply syncQuotaFromPlan_bounds.
Qed.

(** Extra property X2.  With a catalog whose quotas are not negative and
    amounts that are not negative, every wallet document, the ones opened
    on the way included, has [0 ≤ quota_used ≤ quota_total] after every
    sequence of service calls: usage operations, billing events (which
    close wallets with [quota_used := quota_total]), plan syncs and first
    calls of a user. *)
Theorem every_wallet_stays_within_total db calls :
  all_wallets_within_bounds (documents db) →
  usage_amounts_nonneg (documents db) →
  Forall call_amount_nonneg calls →
  all_wallets_within_bounds (documents (run_calls PLAN_CONFIG Date_parse db calls)).
Proof.
  intros Hb Ha Hcalls.
  enough (bounds_inv (documents (run_calls PLAN_CONFIG Date_parse db calls)))
    as [? _] by done.
  assert (bounds_inv (documents db)) as Hi by done. clear Hb Ha.
  revert db Hi. induction Hcalls as [|c calls Hc _ IH]; intros db Hi; simpl; [done|].
  by apply IH, apply_call_bounds.
Qed.

End Bounds.

Section SingleActive.
Variable PLAN_CONFIG : list PlanConfig.
Variable Date_parse : string → option Date.

Lemma single_active_wallets st st' :
  quota_wallets st' = quota_wallets st →
  single_active_wallet st → single_active_wallet st'.
Proof. unfold single_active_wallet. intros ->. auto. Qed.

Lemma closeWalletsForUser_active_inv st u reason z now u' k w' :
  quota_wallets (closeWalletsForUser st u reason z now) !! k = Some w' →
  matches_active u' w' = true →
  quota_wallets st !! k = Some w' ∧ matches_active u w' = false.
Proof.
  rewrite closeWalletsForUser_lookup.
  destruct (quota_wallets st !! k) as [w|] eqn:Hk; [|done]. simpl.
  destruct (matches_active u w) eqn:Hm; intros [= <-]; [|done].
  unfold matches_active, Wallet.is_active. simpl. by rewrite andb_false_r.
Qed.

Lemma closeWalletsForUser_single st u reason z now :
  single_active_wallet st →
  single_active_wallet (closeWalletsForUser st u reason z now).
Proof.
  intros Hs u' k1 k2 w1 w2 H1 H2 Hm1 Hm2.
  apply (closeWalletsForUser_active_inv _ _ _ _ _ u') in H1 as [H1 _]; [|done].
  apply (closeWalletsForUser_active_inv _ _ _ _ _ u') in H2 as [H2 _]; [|done].
  eauto.
Qed.

Lemma matches_active_user u w : matches_active u w = true → Wallet.user_id w = u.
Proof.
  unfold matches_active. intros [H _]%andb_prop. by apply String.eqb_eq in H.
Qed.

Lemma openWalletForSubscription_single st sub now :
  single_active_wallet st →
  single_active_wallet (openWalletForSubscription PLAN_CONFIG st sub true now).2.
Proof.
  intros Hs. unfold openWalletForSubscription.
  destruct (getPlanConfigById _ _) as [plan|]; [|done]. simpl.
  set (st1 := closeWalletsForUser st _ _ _ _).
  assert (single_active_wallet st1) as Hs1 by by apply closeWalletsForUser_single.
  assert (∀ k w, quota_wallets st1 !! k = Some w →
                 matches_active (Subscription.user_id sub) w = false) as Hno.
  { intros k w. apply closeWalletsForUser_no_active. }
  intros u' k1 k2 w1 w2. simpl.
  destruct (decide (k1 = new_wallet_id st1)) as [->|Hn1];
    destruct (decide (k2 = new_wallet_id st1)) as [->|Hn2]; [done| | |].
  - rewrite lookup_insert_eq, lookup_insert_ne by done.
    intros [= <-] H2 Hm1 Hm2. apply matches_active_user in Hm1. simpl in Hm1.
    subst u'. by rewrite (Hno _ _ H2) in Hm2.
  - rewrite lookup_insert_eq, lookup_insert_ne by done.
    intros H1 [= <-] Hm1 Hm2. apply matches_active_user in Hm2. simpl in Hm2.
    subst u'. by rewrite (Hno _ _ H1) in Hm1.
  - rewrite !lookup_insert_ne by done. apply Hs1.
Qed.

Lemma ensureActiveWallet_single st u sub now :
  single_active_wallet st →
  single_active_wallet (ensureActiveWallet PLAN_CONFIG Date_parse st u sub now).2.
Proof.
  intros Hs. unfold ensureActiveWallet.
  repeat (case_if || destruct (getPlanConfigById _ _)); simpl; try done.
  by apply openWalletForSubscription_single, closeWalletsForUser_single.
Qed.

(** Rewriting the usage fields of a wallet document does not change which
    wallets are active. *)
Lemma update_usage_single st k w used last now :
  quota_wallets st !! k = Some w →
  single_active_wallet st →
  single_active_wallet
    (set_wallets st (<[k := Wallet.update_usage w used last now]> (quota_wallets st))).
Proof.
  intros Hk Hs u' k1 k2 w1 w2. simpl.
  assert (∀ k0 w0,
            <[k := Wallet.update_usage w used last now]> (quota_wallets st) !! k0
              = Some w0 →
            matches_active u' w0 = true →
            ∃ w0', quota_wallets st !! k0 = Some w0' ∧ matches_active u' w0' = true)
    as Hold.
  { intros k0 w0. destruct (decide (k0 = k)) as [->|Hne].
    - rewrite lookup_insert_eq. intros [= <-] Hm. eauto.
    - rewrite lookup_insert_ne by done. eauto. }
  intros H1 H2 Hm1 Hm2.
  destruct (Hold _ _ H1 Hm1) as (? & ? & ?), (Hold _ _ H2 Hm2) as (? & ? & ?).
  eauto.
Qed.

Lemma reserveUsage_tx_single st wref u r a amt nowIso :
  single_active_wallet st →
  single_active_wallet (reserveUsage_tx st wref u r a amt nowIso).2.
Proof.
  intros Hs. unfold reserveUsage_tx.
  destruct (quota_wallets st !! wref) as [w|] eqn:Hw; [|done].
  case_if; [done|].
  destruct (quota_usages st !! usage_doc_id u r); [done|].
  case_if; [done|]. simpl.
  eapply single_active_wallets; [|by apply (update_usage_single st wref w)]. done.
Qed.

Lemma reserveUsage_single st u r a amt now :
  single_active_wallet st →
  single_active_wallet (reserveUsage PLAN_CONFIG Date_parse st u r a amt now).2.
Proof.
  intros Hs. unfold reserveUsage. case_if; [done|].
  destruct (getSubscription st u) as [sub|]; [|done].
  case_if; [done|].
  pose proof (ensureActiveWallet_single st u sub now Hs) as He.
  destruct (ensureActiveWallet _ _ st u sub now) as [[w|] st1]; simpl in *; [|done].
  by apply reserveUsage_tx_single.
Qed.

Lemma commitUsage_wallets st u r now :
  quota_wallets (commitUsage st u r now).2 = quota_wallets st.
Proof.
  unfold commitUsage. case_if; [done|].
  destruct (quota_usages st !! usage_doc_id u r) as [usage|]; [|done].
  by destruct (Usage.status usage).
Qed.

Lemma rollbackUsage_single st u r now :
  single_active_wallet st → single_active_wallet (rollbackUsage st u r now).2.
Proof.
  intros Hs. unfold rollbackUsage. case_if; [done|].
  destruct (quota_usages st !! usage_doc_id u r) as [usage|]; [|done].
  destruct (Usage.status usage); try done. simpl.
  destruct (quota_wallets st !! Usage.wallet_id usage) as [w|] eqn:Hw; [|done].
  apply (single_active_wallets
           (set_wallets st
              (<[Usage.wallet_id usage :=
                   Wallet.update_usage w
                     (Z.max 0 (Wallet.quota_used w - Usage.amount usage))
                     (Wallet.last_usage_at w) (JSDate.format now)]>
                 (quota_wallets st)))); [done|].
  by apply update_usage_single.
Qed.

Lemma syncQuotaFromPlan_single st u candidate now st' :
  syncQuotaFromPlan PLAN_CONFIG st u candidate now = Some st' →
  single_active_wallet st → single_active_wallet st'.
Proof.
  unfold syncQuotaFromPlan. intros Hsync Hs. revert Hsync.
  destruct (if JS.truthy _ then _ else _) as [plan|]; [|by intros [= <-]].
  cbv zeta.
  destruct (match QuotaConfig.cycle plan with
            | QuotaConfig.monthly => _ | QuotaConfig.yearly => _ end)
    as [periodEnd|]; simpl; [|done].
  case_if; intros [= <-]; [|done].
  by apply openWalletForSubscription_single.
Qed.

Lemma apply_call_single db c :
  ¬ is_billing_event c →
  single_active_wallet (documents db) →
  single_active_wallet (documents (apply_call PLAN_CONFIG Date_parse db c)).
Proof.
  intros Hc Hs. destruct c as [[]| | |u ps now]; simpl.
  - by apply reserveUsage_single.
  - eapply single_active_wallets; [apply commitUsage_wallets|done].
  - by apply rollbackUsage_single.
  - by destruct Hc.
  - destruct (syncQuotaFromPlan _ _ _ _ _) eqn:Hsync; simpl;
      [by eapply syncQuotaFromPlan_single|done].
  - unfold ensureQuotaForUser. cbv zeta.
    destruct (getSubscription _ _); simpl; [done|].
    destruct (ps ≫= premium) as [[]|]; simpl; try done.
    case_if; simpl; [|done].
    destruct (syncQuotaFromPlan _ _ _ _ _) eqn:Hsync; simpl; [|done].
    by eapply syncQuotaFromPlan_single.
Qed.

(** Extra property X4.  When no user has two active wallets, no user has
    two after any sequence of usage operations, plan syncs and first calls:
    every wallet these calls open is opened after the user's active wallets
    have been closed.  Billing events are left out: see X12. *)
Theorem one_active_wallet_per_user db calls :
  single_active_wallet (documents db) →
  Forall (λ c, ¬ is_billing_event c) calls →
  single_active_wallet (documents (run_calls PLAN_CONFIG Date_parse db calls)).
Proof.
  intros Hs Hcalls. revert db Hs.
  induction Hcalls as [|c calls Hc _ IH]; intros db Hs; simpl; [done|].
  by apply IH, apply_call_single.
Qed.

End SingleActive.

Section Keys.
Variable PLAN_CONFIG : list PlanConfig.
Variable Date_parse : string → option Date.

Lemma store_keys_ok_wallets st st' :
  subscriptions_quota st' = subscriptions_quota st →
  quota_usages st' = quota_usages st →
  webhook_events st' = webhook_events st →
  wallet_ids_ok st' →
  store_keys_ok st → store_keys_ok st'.
Proof.
  unfold store_keys_ok. intros -> -> -> Hw (_ & ? & ? & ?). done.
Qed.

Lemma openWalletForSubscription_ids_ok st sub ce now :
  wallet_ids_ok st →
  wallet_ids_ok (openWalletForSubscription PLAN_CONFIG st sub ce now).2.
Proof.
  intros Hok.
  destruct (openWalletForSubscription PLAN_CONFIG st sub ce now) as [r st1] eqn:Ho.
  apply openWalletForSubscription_spec in Ho as (_ & _ & _ & Hold & Hnew & _).
  intros k w' Hk. simpl in Hk.
  destruct (quota_wallets st !! k) as [w|] eqn:Hk0.
  - destruct (Hold _ _ Hk0) as (w'' & Hk' & Hid & _).
    assert (w'' = w') as -> by congruence. rewrite Hid. by apply Hok.
  - by destruct (Hnew _ _ Hk0 Hk).
Qed.

Lemma closeWalletsForUser_keys_ok st u reason z now :
  store_keys_ok st → store_keys_ok (closeWalletsForUser st u reason z now).
Proof.
  intros Hok. pose proof (closeWalletsForUser_others st u reason z now) as (? & ? & ?).
  eapply store_keys_ok_wallets; try done.
  apply closeWalletsForUser_ids_ok, Hok.
Qed.

Lemma openWalletForSubscription_keys_ok st sub ce now :
  store_keys_ok st →
  store_keys_ok (openWalletForSubscription PLAN_CONFIG st sub ce now).2.
Proof.
  intros Hok.
  pose proof (openWalletForSubscription_ids_ok st sub ce now (proj1 Hok)) as Hids.
  destruct (openWalletForSubscription PLAN_CONFIG st sub ce now) as [r st1] eqn:Ho.
  apply openWalletForSubscription_spec in Ho as (? & ? & ? & _).
  by eapply store_keys_ok_wallets.
Qed.

Lemma ensureActiveWallet_keys_ok st u sub now :
  store_keys_ok st →
  store_keys_ok (ensureActiveWallet PLAN_CONFIG Date_parse st u sub now).2.
Proof.
  intros Hok.
  pose proof (ensureActiveWallet_ids_ok PLAN_CONFIG Date_parse st u sub now (proj1 Hok))
    as Hids.
  destruct (ensureActiveWallet PLAN_CONFIG Date_parse st u sub now) as [r st1] eqn:He.
  apply ensureActiveWallet_spec in He as (? & ? & ? & _).
  by eapply store_keys_ok_wallets.
Qed.

Lemma update_usage_ids_ok st k w used last now :
  quota_wallets st !! k = Some w →
  wallet_ids_ok st →
  wallet_ids_ok
    (set_wallets st (<[k := Wallet.update_usage w used last now]> (quota_wallets st))).
Proof.
  intros Hk Hok k0 w0. simpl. destruct (decide (k0 = k)) as [->|Hne].
  - rewrite lookup_insert_eq. intros [= <-]. simpl. by apply Hok.
  - rewrite lookup_insert_ne by done. apply Hok.
Qed.

Lemma reserveUsage_tx_keys_ok st wref u r a amt nowIso :
  r ≠ "" → store_keys_ok st →
  store_keys_ok (reserveUsage_tx st wref u r a amt nowIso).2.
Proof.
  intros Hr Hok. unfold reserveUsage_tx.
  destruct (quota_wallets st !! wref) as [w|] eqn:Hw; [|done].
  case_if; [done|].
  destruct (quota_usages st !! usage_doc_id u r); [done|].
  case_if; [done|]. simpl.
  destruct Hok as (Hids & Hsubs & Hus & Hev).
  split; [|split; [done|split; [|done]]].
  - by apply (update_usage_ids_ok st wref w).
  - intros k u0. simpl. destruct (decide (k = usage_doc_id u r)) as [->|Hne].
    + rewrite lookup_insert_eq. by intros [= <-].
    + rewrite lookup_insert_ne by done. apply Hus.
Qed.

Lemma reserveUsage_keys_ok st u r a amt now :
  store_keys_ok st →
  store_keys_ok (reserveUsage PLAN_CONFIG Date_parse st u r a amt now).2.
Proof.
  intros Hok. unfold reserveUsage.
  destruct (JS.truthy (Some r)) eqn:Hr; [|done]. simpl.
  apply truthy_Some_inv in Hr.
  destruct (getSubscription st u) as [sub|]; [|done].
  case_if; [done|].
  pose proof (ensureActiveWallet_keys_ok st u sub now Hok) as He.
  destruct (ensureActiveWallet _ _ st u sub now) as [[w|] st1]; simpl in *; [|done].
  by apply reserveUsage_tx_keys_ok.
Qed.

Lemma with_status_keys_ok st k usage s now :
  quota_usages st !! k = Some usage →
  store_keys_ok st →
  store_keys_ok
    (set_usages st (<[k := Usage.with_status usage s now]> (quota_usages st))).
Proof.
  intros Hk (Hids & Hsubs & Hus & Hev).
  split; [done|split; [done|split; [|done]]].
  intros k0 u0. simpl. destruct (decide (k0 = k)) as [->|Hne].
  - rewrite lookup_insert_eq. intros [= <-]. simpl. by apply Hus.
  - rewrite lookup_insert_ne by done. apply Hus.
Qed.

Lemma commitUsage_keys_ok st u r now :
  store_keys_ok st → store_keys_ok (commitUsage st u r now).2.
Proof.
  intros Hok. unfold commitUsage. case_if; [done|].
  destruct (quota_usages st !! usage_doc_id u r) as [usage|] eqn:Hu; [|done].
  destruct (Usage.status usage); try done. simpl.
  by apply with_status_keys_ok.
Qed.

Lemma rollbackUsage_keys_ok st u r now :
  store_keys_ok st → store_keys_ok (rollbackUsage st u r now).2.
Proof.
  intros Hok. unfold rollbackUsage. case_if; [done|].
  destruct (quota_usages st !! usage_doc_id u r) as [usage|] eqn:Hu; [|done].
  destruct (Usage.status usage); try done. simpl.
  destruct (quota_wallets st !! Usage.wallet_id usage) as [w|] eqn:Hw.
  - apply (with_status_keys_ok (set_wallets st _)); [done|].
    destruct Hok as (Hids & Hrest).
    split; [|done]. by apply (update_usage_ids_ok st _ w).
  - by apply with_status_keys_ok.
Qed.

Lemma subscription_tx_keys payload ty planConfig existing nowIso :
  let next :=
    nextSubscription (subscription_tx PLAN_CONFIG payload ty planConfig existing nowIso) in
  Subscription.id next = userId payload ∧
  Subscription.user_id next = userId payload ∧
  subscription_consistent next.
Proof.
  unfold subscription_tx, subscription_consistent.
  cbn [nextSubscription Subscription.id Subscription.user_id Subscription.is_active
       Subscription.status].
  split; [done|split; [done|]].
  destruct (event_status ty existing); split; intros H; try done;
    try (by left); try (by right); by destruct H.
Qed.

Lemma processRevenueCatEvent_keys_ok st payload now :
  store_keys_ok st → store_keys_ok (processRevenueCatEvent PLAN_CONFIG st payload now).
Proof.
  intros Hok. unfold processRevenueCatEvent.
  destruct (webhook_events st !! getWebhookEventId payload) eqn:Hdup; [done|].
  cbv zeta.
  set (st1 := set_webhook_events st _).
  set (tr := subscription_tx _ _ _ _ _ _).
  set (st2 := set_subscriptions st1 _).
  set (st3 := if shouldCloseWallet tr then _ else st2).
  set (st4 := if shouldOpenWallet tr then _ else st3).
  assert (store_keys_ok st2) as H2.
  { destruct Hok as (Hids & Hsubs & Hus & Hev).
    split; [done|split; [|split; [done|]]].
    - intros k s. simpl. destruct (decide (k = userId payload)) as [->|Hne].
      + rewrite lookup_insert_eq. intros [= <-]. apply subscription_tx_keys.
      + rewrite lookup_insert_ne by done. apply Hsubs.
    - intros k e. simpl. destruct (decide (k = getWebhookEventId payload)) as [->|Hne].
      + rewrite lookup_insert_eq. by intros [= <-].
      + rewrite lookup_insert_ne by done. apply Hev. }
  assert (webhook_events st2 !! getWebhookEventId payload ≠ None) as Hin2.
  { simpl. by rewrite lookup_insert_eq. }
  assert (store_keys_ok st3 ∧ webhook_events st3 = webhook_events st2) as [H3 He3].
  { subst st3. case_if; [|done]. split; [by apply closeWalletsForUser_keys_ok|].
    apply closeWalletsForUser_others. }
  assert (store_keys_ok st4 ∧ webhook_events st4 = webhook_events st3) as [H4 He4].
  { subst st4. case_if; [|done]. split; [by apply openWalletForSubscription_keys_ok|].
    apply openWalletForSubscription_webhook_events. }
  destruct H4 as (Hids & Hsubs & Hus & Hev).
  split; [done|split; [done|split; [done|]]].
  intros k e. simpl. destruct (decide (k = getWebhookEventId payload)) as [->|Hne].
  - rewrite lookup_partial_alter_eq.
    destruct (webhook_events st4 !! getWebhookEventId payload) as [d|] eqn:Hd.
    + simpl. intros [= <-]. simpl. by apply Hev.
    + rewrite He4, He3 in Hd. done.
  - rewrite lookup_partial_alter_ne by done. apply Hev.
Qed.

Lemma syncQuotaFromPlan_keys_ok st u candidate now st' :
  syncQuotaFromPlan PLAN_CONFIG st u candidate now = Some st' →
  store_keys_ok st → store_keys_ok st'.
Proof.
  unfold syncQuotaFromPlan. intros Hsync Hok. revert Hsync.
  destruct (if JS.truthy _ then _ else _) as [plan|]; [|by intros [= <-]].
  cbv zeta.
  destruct (match QuotaConfig.cycle plan with
            | QuotaConfig.monthly => _ | QuotaConfig.yearly => _ end)
    as [periodEnd|]; simpl; [|done].
  set (st1 := set_subscriptions st _).
  assert (store_keys_ok st1) as H1.
  { destruct Hok as (Hids & Hsubs & Hus & Hev).
    split; [done|split; [|done]].
    intros k s. simpl. destruct (decide (k = u)) as [->|Hne].
    - rewrite lookup_insert_eq. intros [= <-]. split; [done|split; [done|]].
      unfold subscription_consistent. simpl.
      destruct (negb _); split; intros H; try done; try (by left); by destruct H.
    - rewrite lookup_insert_ne by done. apply Hsubs. }
  case_if; intros [= <-]; [|done].
  by apply openWalletForSubscription_keys_ok.
Qed.

Lemma ensureQuotaForUser_keys_ok db u ps now :
  store_keys_ok (documents db) →
  store_keys_ok (documents (ensureQuotaForUser PLAN_CONFIG db u ps now).2).
Proof.
  intros Hok. unfold ensureQuotaForUser. cbv zeta.
  destruct (getSubscription _ _); simpl; [done|].
  destruct (ps ≫= premium) as [[]|]; simpl; try done.
  case_if; simpl; [|done].
  destruct (syncQuotaFromPlan _ _ _ _ _) eqn:Hsync; simpl; [|done].
  by eapply syncQuotaFromPlan_keys_ok.
Qed.

Lemma apply_call_keys_ok db c :
  store_keys_ok (documents db) →
  store_keys_ok (documents (apply_call PLAN_CONFIG Date_parse db c)).
Proof.
  intros Hok. destruct c as [[]| | |u ps now]; simpl.
  - by apply reserveUsage_keys_ok.
  - by apply commitUsage_keys_ok.
  - by apply rollbackUsage_keys_ok.
  - by apply processRevenueCatEvent_keys_ok.
  - destruct (syncQuotaFromPlan _ _ _ _ _) eqn:Hsync; simpl;
      [by eapply syncQuotaFromPlan_keys_ok|done].
  - by apply ensureQuotaForUser_keys_ok.
Qed.

(** Extra property X5.  Every sequence of service calls keeps the
    documents keyed by their identifying fields: a wallet's [id] is its
    document id; a subscription is stored under its [id] and [user_id] and
    its [is_active] holds exactly for the statuses active and cancelled; a
    usage document is stored under [user_id ++ "_" ++ request_id] with a
    non-empty request id; a webhook event is stored under its [id]. *)
Theorem documents_stay_well_keyed db calls :
  store_keys_ok (documents db) →
  store_keys_ok (documents (run_calls PLAN_CONFIG Date_parse db calls)).
Proof.
  revert db. induction calls as [|c calls IH]; intros db Hok; simpl; [done|].
  by apply IH, apply_call_keys_ok.
Qed.

End Keys.

Section Balance.
Variable PLAN_CONFIG : list PlanConfig.
Variable Date_parse : string → option Date.

Lemma held_total_insert_new m k u wid :
  m !! k = None →
  held_total (<[k := u]> m) wid = held_amount wid u + held_total m wid.
Proof.
  intros Hk. unfold held_total.
  rewrite map_fold_insert_L; [done| |done]. intros. lia.
Qed.

Lemma held_total_delete m k u wid :
  m !! k = Some u →
  held_total m wid = held_amount wid u + held_total (delete k m) wid.
Proof.
  intros Hk. unfold held_total.
  erewrite map_fold_delete_L; [done| |done]. intros. lia.
Qed.

Lemma held_total_insert_old m k u u' wid :
  m !! k = Some u →
  held_total (<[k := u']> m) wid =
  held_amount wid u' + held_total m wid - held_amount wid u.
Proof.
  intros Hk. rewrite <- insert_delete_eq.
  rewrite held_total_insert_new by apply lookup_delete_eq.
  rewrite (held_total_delete m k u wid Hk). lia.
Qed.

Lemma held_amount_nonneg wid u : 0 ≤ Usage.amount u → 0 ≤ held_amount wid u.
Proof.
  intros Ha. unfold held_amount. case_if; [|done]. by destruct (Usage.status u).
Qed.

Lemma held_total_nonneg m wid :
  (∀ k u, m !! k = Some u → 0 ≤ Usage.amount u) → 0 ≤ held_total m wid.
Proof.
  induction m as [|k u m Hk IH] using map_ind; intros Ha.
  - unfold held_total. by rewrite map_fold_empty.
  - rewrite held_total_insert_new by done.
    pose proof (held_amount_nonneg wid u (Ha k u (lookup_insert_eq _ _ _))).
    assert (0 ≤ held_total m wid); [|lia].
    apply IH. intros k0 u0 Hk0. apply (Ha k0).
    rewrite lookup_insert_ne; [done|]. congruence.
Qed.

Lemma held_total_unused m wid :
  (∀ k u, m !! k = Some u → Usage.wallet_id u ≠ wid) → held_total m wid = 0.
Proof.
  induction m as [|k u m Hk IH] using map_ind; intros Ha.
  - unfold held_total. by rewrite map_fold_empty.
  - rewrite held_total_insert_new by done.
    assert (held_amount wid u = 0) as ->.
    { unfold held_amount. pose proof (Ha k u (lookup_insert_eq _ _ _)).
      by case_if. }
    rewrite IH; [done|]. intros k0 u0 Hk0. apply (Ha k0).
    rewrite lookup_insert_ne; [done|]. congruence.
Qed.

Lemma closeWalletsForUser_balanced st u reason now :
  ledger_balanced st → ledger_balanced (closeWalletsForUser st u reason false now).
Proof.
  intros [Hb Hr]. split.
  - intros k w'. rewrite closeWalletsForUser_lookup.
    destruct (quota_wallets st !! k) as [w|] eqn:Hk; [|done]. simpl.
    intros [= <-]. rewrite <- (Hb _ _ Hk). by case_if.
  - intros k us Hk. simpl in Hk. destruct (Hr _ _ Hk) as [w Hw].
    rewrite closeWalletsForUser_lookup, Hw. by eexists.
Qed.

Lemma openWalletForSubscription_balanced st sub ce now :
  ledger_balanced st →
  ledger_balanced (openWalletForSubscription PLAN_CONFIG st sub ce now).2.
Proof.
  intros Hbal. unfold openWalletForSubscription.
  destruct (getPlanConfigById _ _) as [plan|]; [|done]. simpl.
  set (st1 := if ce then _ else st).
  assert (ledger_balanced st1) as [Hb Hr].
  { subst st1. destruct ce; [by apply closeWalletsForUser_balanced|done]. }
  split; simpl.
  - intros k w. destruct (decide (k = new_wallet_id st1)) as [->|Hne].
    + rewrite lookup_insert_eq. intros [= <-]. simpl.
      symmetry. apply held_total_unused. intros j us Hj Heq.
      destruct (Hr _ _ Hj) as [w Hw]. rewrite Heq, new_wallet_id_fresh in Hw. done.
    + rewrite lookup_insert_ne by done. apply Hb.
  - intros k us Hk. destruct (Hr _ _ Hk) as [w Hw].
    destruct (decide (Usage.wallet_id us = new_wallet_id st1)) as [Heq|Hne].
    + rewrite Heq, lookup_insert_eq. by eexists.
    + rewrite lookup_insert_ne by done. by eexists.
Qed.

Lemma ensureActiveWallet_balanced st u sub now :
  ledger_balanced st →
  ledger_balanced (ensureActiveWallet PLAN_CONFIG Date_parse st u sub now).2.
Proof.
  intros Hbal. unfold ensureActiveWallet.
  repeat (case_if || destruct (getPlanConfigById _ _)); simpl; try done.
  by apply openWalletForSubscription_balanced, closeWalletsForUser_balanced.
Qed.

Lemma reserveUsage_tx_balanced st wref u r a amt nowIso :
  wallet_ids_ok st → ledger_balanced st →
  ledger_balanced (reserveUsage_tx st wref u r a amt nowIso).2.
Proof.
  intros Hids [Hb Hr]. unfold reserveUsage_tx.
  destruct (quota_wallets st !! wref) as [w|] eqn:Hw; [|done].
  case_if; [done|].
  destruct (quota_usages st !! usage_doc_id u r) eqn:Hu; [done|].
  case_if; [done|]. simpl.
  pose proof (Hids _ _ Hw) as Hid.
  split; simpl.
  - intros k w0. rewrite held_total_insert_new by done.
    unfold held_amount. simpl. rewrite Hid.
    destruct (decide (k = wref)) as [->|Hne].
    + rewrite lookup_insert_eq. intros [= <-]. simpl.
      rewrite decide_True by done. rewrite (Hb _ _ Hw). lia.
    + rewrite lookup_insert_ne by done. intros Hk.
      rewrite decide_False by done. rewrite (Hb _ _ Hk). lia.
  - intros k us. destruct (decide (k = usage_doc_id u r)) as [->|Hne].
    + rewrite lookup_insert_eq. intros [= <-]. simpl.
      rewrite Hid, lookup_insert_eq. by eexists.
    + rewrite lookup_insert_ne by done. intros Hk.
      destruct (Hr _ _ Hk) as [w0 Hw0].
      destruct (decide (Usage.wallet_id us = wref)) as [Heq|Hne'].
      * rewrite Heq, lookup_insert_eq. by eexists.
      * rewrite lookup_insert_ne by done. by eexists.
Qed.

Lemma reserveUsage_balanced st u r a amt now :
  wallet_ids_ok st → ledger_balanced st →
  ledger_balanced (reserveUsage PLAN_CONFIG Date_parse st u r a amt now).2.
Proof.
  intros Hids Hbal. unfold reserveUsage. case_if; [done|].
  destruct (getSubscription st u) as [sub|]; [|done].
  case_if; [done|].
  pose proof (ensureActiveWallet_balanced st u sub now Hbal) as He.
  pose proof (ensureActiveWallet_ids_ok PLAN_CONFIG Date_parse st u sub now Hids) as Hi.
  destruct (ensureActiveWallet _ _ st u sub now) as [[w|] st1]; simpl in *; [|done].
  by apply reserveUsage_tx_balanced.
Qed.

Lemma commitUsage_balanced st u r now :
  ledger_balanced st → ledger_balanced (commitUsage st u r now).2.
Proof.
  intros [Hb Hr]. unfold commitUsage. case_if; [done|].
  destruct (quota_usages st !! usage_doc_id u r) as [usage|] eqn:Hu; [|done].
  destruct (Usage.status usage) eqn:Hs; try done. simpl. split; simpl.
  - intros k w Hk. rewrite (held_total_insert_old _ _ usage) by done.
    rewrite (Hb _ _ Hk). unfold held_amount. simpl. rewrite Hs. lia.
  - intros k us. destruct (decide (k = usage_doc_id u r)) as [->|Hne].
    + rewrite lookup_insert_eq. intros [= <-]. simpl. eauto.
    + rewrite lookup_insert_ne by done. eauto.
Qed.

Lemma rollbackUsage_balanced st u r now :
  usage_amounts_nonneg st → ledger_balanced st →
  ledger_balanced (rollbackUsage st u r now).2.
Proof.
  intros Ha [Hb Hr]. unfold rollbackUsage. case_if; [done|].
  destruct (quota_usages st !! usage_doc_id u r) as [usage|] eqn:Hu; [|done].
  destruct (Usage.status usage) eqn:Hs; try done. simpl.
  destruct (Hr _ _ Hu) as [w Hw]. rewrite Hw. simpl.
  assert (Usage.amount usage ≤ Wallet.quota_used w) as Hle.
  { rewrite (Hb _ _ Hw), (held_total_delete _ _ usage _ Hu).
    unfold held_amount at 1. rewrite decide_True by done. rewrite Hs.
    match goal with |- _ ≤ _ + ?x => assert (0 ≤ x) as H; [|lia] end.
    apply held_total_nonneg. intros k us [_ Hk]%lookup_delete_Some. eauto. }
  split; simpl.
  - intros k w0. rewrite (held_total_insert_old _ _ usage) by done.
    unfold held_amount. simpl. rewrite Hs.
    destruct (decide (k = Usage.wallet_id usage)) as [->|Hne].
    + rewrite lookup_insert_eq. intros [= <-]. simpl.
      rewrite !decide_True by done. rewrite <- (Hb _ _ Hw). lia.
    + rewrite lookup_insert_ne by done. intros Hk.
      rewrite !decide_False by done. rewrite (Hb _ _ Hk). lia.
  - intros k us Hk.
    assert (∃ us0, quota_usages st !! k = Some us0 ∧
                   Usage.wallet_id us = Usage.wallet_id us0) as (us0 & Hk0 & ->).
    { destruct (decide (k = usage_doc_id u r)) as [->|Hne].
      - rewrite lookup_insert_eq in Hk. injection Hk as <-. eauto.
      - rewrite lookup_insert_ne in Hk by done. eauto. }
    destruct (Hr _ _ Hk0) as [w0 Hw0].
    destruct (decide (Usage.wallet_id us0 = Usage.wallet_id usage)) as [Heq|Hne].
    + rewrite Heq, lookup_insert_eq. by eexists.
    + rewrite lookup_insert_ne by done. by eexists.
Qed.

Lemma syncQuotaFromPlan_balanced st u candidate now st' :
  syncQuotaFromPlan PLAN_CONFIG st u candidate now = Some st' →
  ledger_balanced st → ledger_balanced st'.
Proof.
  unfold syncQuotaFromPlan. intros Hsync Hbal. revert Hsync.
  destruct (if JS.truthy _ then _ else _) as [plan|]; [|by intros [= <-]].
  cbv zeta.
  destruct (match QuotaConfig.cycle plan with
            | QuotaConfig.monthly => _ | QuotaConfig.yearly => _ end)
    as [periodEnd|]; simpl; [|done].
  case_if; intros [= <-]; [|done].
  by apply openWalletForSubscription_balanced.
Qed.

(** The three facts the balance of the ledger rests on. *)
Lemma syncQuotaFromPlan_usages st u candidate now st' :
  syncQuotaFromPlan PLAN_CONFIG st u candidate now = Some st' →
  quota_usages st' = quota_usages st ∧ (wallet_ids_ok st → wallet_ids_ok st').
Proof.
  unfold syncQuotaFromPlan.
  destruct (if JS.truthy _ then _ else _) as [plan|]; [|by intros [= <-]].
  cbv zeta.
  destruct (match QuotaConfig.cycle plan with
            | QuotaConfig.monthly => _ | QuotaConfig.yearly => _ end)
    as [periodEnd|]; simpl; [|done].
  set (st1 := set_subscriptions st _).
  case_if; intros [= <-]; [|done]. split.
  - destruct (openWalletForSubscription PLAN_CONFIG st1 _ true now) as [r st2] eqn:Ho.
    apply openWalletForSubscription_spec in Ho as (_ & Hus & _). simpl. by rewrite Hus.
  - intros Hids. by apply openWalletForSubscription_ids_ok.
Qed.

Lemma reserveUsage_amounts st u r a amt now :
  0 ≤ amt → wallet_ids_ok st → usage_amounts_nonneg st →
  wallet_ids_ok (reserveUsage PLAN_CONFIG Date_parse st u r a amt now).2 ∧
  usage_amounts_nonneg (reserveUsage PLAN_CONFIG Date_parse st u r a amt now).2.
Proof.
  intros Hamt Hids Ha. unfold reserveUsage. case_if; [done|].
  destruct (getSubscription st u) as [sub|]; [|done].
  case_if; [done|].
  pose proof (ensureActiveWallet_ids_ok PLAN_CONFIG Date_parse st u sub now Hids) as Hi.
  destruct (ensureActiveWallet _ _ st u sub now) as [[w|] st1] eqn:He; simpl in *.
  - apply ensureActiveWallet_spec in He as (_ & Hus & _).
    assert (usage_amounts_nonneg st1) as Ha1.
    { unfold usage_amounts_nonneg. by rewrite Hus. }
    unfold reserveUsage_tx.
    destruct (quota_wallets st1 !! Wallet.id w) as [w0|] eqn:Hw; [|done].
    case_if; [done|].
    destruct (quota_usages st1 !! usage_doc_id u r); [done|].
    case_if; [done|].
    simpl. split; [by apply (update_usage_ids_ok st1 _ w0)|].
    intros k us. simpl. destruct (decide (k = usage_doc_id u r)) as [->|Hne].
    + rewrite lookup_insert_eq. by intros [= <-].
    + rewrite lookup_insert_ne by done. apply Ha1.
  - apply ensureActiveWallet_spec in He as (_ & Hus & _).
    split; [done|]. unfold usage_amounts_nonneg. by rewrite Hus.
Qed.

Lemma commitUsage_amounts st u r now :
  usage_amounts_nonneg st → usage_amounts_nonneg (commitUsage st u r now).2.
Proof.
  intros Ha. unfold commitUsage. case_if; [done|].
  destruct (quota_usages st !! usage_doc_id u r) as [usage|] eqn:Hu; [|done].
  destruct (Usage.status usage); try done. simpl.
  intros k us. simpl. destruct (decide (k = usage_doc_id u r)) as [->|Hne].
  - rewrite lookup_insert_eq. intros [= <-]. simpl. eauto.
  - rewrite lookup_insert_ne by done. apply Ha.
Qed.

Lemma rollbackUsage_amounts st u r now :
  wallet_ids_ok st → usage_amounts_nonneg st →
  wallet_ids_ok (rollbackUsage st u r now).2 ∧
  usage_amounts_nonneg (rollbackUsage st u r now).2.
Proof.
  intros Hids Ha. unfold rollbackUsage. case_if; [done|].
  destruct (quota_usages st !! usage_doc_id u r) as [usage|] eqn:Hu; [|done].
  destruct (Usage.status usage); try done. simpl. split.
  - destruct (quota_wallets st !! Usage.wallet_id usage) as [w|] eqn:Hw; [|done].
    by apply (update_usage_ids_ok st _ w).
  - intros k us Hk.
    assert (<[usage_doc_id u r :=
                Usage.with_status usage Usage.rolled_back (JSDate.format now)]>
              (quota_usages st) !! k = Some us) as Hk'.
    { by destruct (quota_wallets st !! Usage.wallet_id usage). }
    clear Hk. revert Hk'. destruct (decide (k = usage_doc_id u r)) as [->|Hne].
    + rewrite lookup_insert_eq. intros [= <-]. simpl. eauto.
    + rewrite lookup_insert_ne by done. apply Ha.
Qed.

(** The store facts a usage or plan call keeps. *)
Lemma apply_call_ledger db c :
  ¬ is_billing_event c → call_amount_nonneg c →
  wallet_ids_ok (documents db) ∧ usage_amounts_nonneg (documents db) ∧
  ledger_balanced (documents db) →
  let db' := apply_call PLAN_CONFIG Date_parse db c in
  wallet_ids_ok (documents db') ∧ usage_amounts_nonneg (documents db') ∧
  ledger_balanced (documents db').
Proof.
  intros Hc Hamt (Hids & Ha & Hbal).
  assert (∀ st u candidate now,
            wallet_ids_ok st → usage_amounts_nonneg st → ledger_balanced st →
            let st' := default st (syncQuotaFromPlan PLAN_CONFIG st u candidate now) in
            wallet_ids_ok st' ∧ usage_amounts_nonneg st' ∧ ledger_balanced st')
    as Hsync.
  { intros st u candidate now Hi Hn Hb.
    destruct (syncQuotaFromPlan PLAN_CONFIG st u candidate now) as [st'|] eqn:Hs;
      simpl; [|done].
    pose proof (syncQuotaFromPlan_usages _ _ _ _ _ Hs) as [Hus Hi'].
    split; [auto|split; [|by eapply syncQuotaFromPlan_balanced]].
    unfold usage_amounts_nonneg. by rewrite Hus. }
  destruct c as [[u r a amt now|u r now|u r now]| | |u ps now]; simpl.
  - pose proof (reserveUsage_amounts (documents db) u r a amt now Hamt Hids Ha)
      as [? ?].
    split; [done|split; [done|]]. by apply reserveUsage_balanced.
  - split; [|split; [by apply commitUsage_amounts|by apply commitUsage_balanced]].
    unfold wallet_ids_ok. by rewrite commitUsage_wallets.
  - pose proof (rollbackUsage_amounts (documents db) u r now Hids Ha) as [? ?].
    split; [done|split; [done|]]. by apply rollbackUsage_balanced.
  - by destruct Hc.
  - by apply Hsync.
  - unfold ensureQuotaForUser. cbv zeta.
    destruct (getSubscription _ _); simpl; [done|].
    destruct (ps ≫= premium) as [[]|]; simpl; try done.
    case_if; simpl; [|done].
    specialize (Hsync (documents db) u (resolvePlanId PLAN_CONFIG (ps ≫= entitlementProductId))
                  now Hids Ha Hbal).
    by destruct (syncQuotaFromPlan _ _ _ _ _).
Qed.

(** Extra property X1.  The ledger balances: when every wallet's
    [quota_used] equals the sum of the amounts of the reserved and committed
    usage documents naming it, and every usage document names a wallet that
    exists, the same holds after any sequence of usage operations, plan
    syncs and first calls (wallet rollovers and closed wallets included),
    amounts being non-negative. *)
Theorem quota_used_is_sum_of_held_amounts db calls :
  wallet_ids_ok (documents db) →
  usage_amounts_nonneg (documents db) →
  ledger_balanced (documents db) →
  Forall (λ c, ¬ is_billing_event c ∧ call_amount_nonneg c) calls →
  ledger_balanced (documents (run_calls PLAN_CONFIG Date_parse db calls)).
Proof.
  intros Hids Ha Hbal Hcalls.
  enough (wallet_ids_ok (documents (run_calls PLAN_CONFIG Date_parse db calls)) ∧
          usage_amounts_nonneg (documents (run_calls PLAN_CONFIG Date_parse db calls)) ∧
          ledger_balanced (documents (run_calls PLAN_CONFIG Date_parse db calls)))
    as (_ & _ & ?) by done.
  assert (wallet_ids_ok (documents db) ∧ usage_amounts_nonneg (documents db) ∧
          ledger_balanced (documents db)) as Hi by done.
  clear Hids Ha Hbal. revert db Hi.
  induction Hcalls as [|c calls [Hc Hamt] _ IH]; intros db Hi; simpl; [done|].
  by apply IH, apply_call_ledger.
Qed.

End Balance.

Section Settle.
Variable PLAN_CONFIG : list PlanConfig.
Variable Date_parse : string → option Date.

(** What a Commit or a Rollback that answers [s] leaves behind. *)
Lemma settle_leaves_status st u r now s st1 :
  commitUsage st u r now = (Some s, st1) ∨ rollbackUsage st u r now = (Some s, st1) →
  r ≠ "" ∧ s ≠ Usage.reserved ∧
  ∃ usage, quota_usages st1 !! usage_doc_id u r = Some usage ∧ Usage.status usage = s.
Proof.
  unfold commitUsage, rollbackUsage.
  destruct (JS.truthy (Some r)) eqn:Hr; simpl; [|by intros [|]].
  apply truthy_Some_inv in Hr.
  destruct (quota_usages st !! usage_doc_id u r) as [usage|] eqn:Hu; [|by intros [|]].
  destruct (Usage.status usage) eqn:Hs; intros [[= <- <-]|[= <- <-]];
    (split; [done|split; [done|]]); simpl; try (by eexists);
    rewrite lookup_insert_eq; by eexists.
Qed.

Lemma settled_usage_answers st u r now usage :
  r ≠ "" →
  quota_usages st !! usage_doc_id u r = Some usage →
  Usage.status usage ≠ Usage.reserved →
  commitUsage st u r now = (Some (Usage.status usage), st) ∧
  rollbackUsage st u r now = (Some (Usage.status usage), st).
Proof.
  intros Hr Hu Hs. unfold commitUsage, rollbackUsage.
  rewrite truthy_nonempty by done. simpl. rewrite Hu.
  by destruct (Usage.status usage).
Qed.

(** A usage document that has left [reserved] keeps its status. *)
Lemma run_calls_keeps_settled calls : ∀ db k usage,
  quota_usages (documents db) !! k = Some usage →
  Usage.status usage ≠ Usage.reserved →
  ∃ usage',
    quota_usages (documents (run_calls PLAN_CONFIG Date_parse db calls)) !! k
      = Some usage' ∧
    Usage.status usage' = Usage.status usage.
Proof.
  induction calls as [|c calls IH]; intros db k usage Hk Hs; simpl; [by eexists|].
  destruct (apply_call_evolves PLAN_CONFIG Date_parse db c) as (_ & Hus & _).
  destruct (Hus _ _ Hk) as (usage1 & Hk1 & Hev).
  assert (Usage.status usage1 = Usage.status usage) as Hsame.
  { destruct Hev as (_ & _ & _ & _ & _ & _ & _ & [?|?]); [done|]. by destruct Hs. }
  destruct (IH _ _ _ Hk1 ltac:(by rewrite Hsame)) as (usage' & Hk' & Hs').
  exists usage'. split; [done|]. by rewrite Hs'.
Qed.

(** Extra property X6.  Once a Commit or a Rollback has answered with a
    status [s] for a request, every later Commit and Rollback of that
    request, after any sequence of service calls, answers [s] again and
    leaves the store as it is: the first of the two to reach a reservation
    decides it for good. *)
Theorem settled_usage_is_final db u r now s st1 calls :
  commitUsage (documents db) u r now = (Some s, st1) ∨
  rollbackUsage (documents db) u r now = (Some s, st1) →
  let st2 :=
    documents (run_calls PLAN_CONFIG Date_parse (mkDatabase (users_quota db) st1) calls) in
  ∀ now', commitUsage st2 u r now' = (Some s, st2) ∧
          rollbackUsage st2 u r now' = (Some s, st2).
Proof.
  intros Hsettle st2 now'.
  apply settle_leaves_status in Hsettle as (Hr & Hs & usage & Hu & <-).
  destruct (run_calls_keeps_settled calls (mkDatabase (users_quota db) st1) _ usage
              Hu Hs) as (usage' & Hu' & Hsame).
  rewrite <- Hsame. apply settled_usage_answers; [done|done|]. by rewrite Hsame.
Qed.

(** Extra property X9.  After [closeWalletsForUser] the user has no active
    wallet; each wallet that was active is closed with the given reason, its
    [quota_total] kept and its [quota_used] kept or, with
    [setRemainingToZero], raised to [quota_total]; every other wallet is
    untouched, none is created, and closing again changes nothing. *)
Theorem closing_wallets_leaves_none_active st u reason z now :
  let st' := closeWalletsForUser st u reason z now in
  getActiveWallet st' u = None ∧
  (∀ k w, quota_wallets st !! k = Some w → matches_active u w = true →
     ∃ w', quota_wallets st' !! k = Some w' ∧
           Wallet.status w' = Wallet.closed ∧
           Wallet.closed_reason w' = Some reason ∧
           Wallet.quota_total w' = Wallet.quota_total w ∧
           Wallet.quota_used w' =
             (if z then Wallet.quota_total w else Wallet.quota_used w)) ∧
  (∀ k w, quota_wallets st !! k = Some w → matches_active u w = false →
     quota_wallets st' !! k = Some w) ∧
  (∀ k, quota_wallets st !! k = None → quota_wallets st' !! k = None) ∧
  (∀ reason' z' now', closeWalletsForUser st' u reason' z' now' = st').
Proof.
  intros st'. split; [|split; [|split; [|split]]].
  - apply (proj2 (getActiveWallet_None Date_parse _ _)).
    intros k w. apply closeWalletsForUser_no_active.
  - intros k w Hk Hm. subst st'. rewrite closeWalletsForUser_lookup, Hk. simpl.
    rewrite Hm. eexists; split; [done|]. by destruct z.
  - intros k w Hk Hm. subst st'. rewrite closeWalletsForUser_lookup, Hk. simpl.
    by rewrite Hm.
  - intros k Hk. by apply closeWalletsForUser_none.
  - intros reason' z' now'. apply closeWalletsForUser_idle.
    intros k w. apply closeWalletsForUser_no_active.
Qed.

End Settle.

Section Debit.
Variable PLAN_CONFIG : list PlanConfig.
Variable Date_parse : string → option Date.

Lemma ensureActiveWallet_used st u sub now k :
  quota_used_of (ensureActiveWallet PLAN_CONFIG Date_parse st u sub now).2 k =
  quota_used_of st k.
Proof.
  destruct (ensureActiveWallet PLAN_CONFIG Date_parse st u sub now) as [r st1] eqn:He.
  apply ensureActiveWallet_spec in He as (_ & _ & _ & Hold & Hnew & _).
  unfold quota_used_of. simpl.
  destruct (quota_wallets st !! k) as [w|] eqn:Hk.
  - destruct (Hold _ _ Hk) as (w' & -> & Hsame). simpl.
    by destruct Hsame as (_ & _ & _ & _ & ->).
  - destruct (quota_wallets st1 !! k) as [w'|] eqn:Hk'; [|done].
    simpl. by destruct (Hnew _ _ Hk Hk').
Qed.

(** Extra property X7.  A Reserve call debits exactly when it creates the
    reservation.  If no usage document existed for the request and the call
    is allowed, it returns [reserved], writes the usage document with the
    amount and the returned wallet id, and raises [quota_used] of that
    wallet by the amount and of no other.  In every other case (rejected,
    or a replay) the usage collection and every wallet's [quota_used] are
    as before, a wallet rollover notwithstanding. *)
Theorem reserve_debits_iff_it_creates st u r a amt now :
  wallet_ids_ok st →
  let out := reserveUsage PLAN_CONFIG Date_parse st u r a amt now in
  let key := usage_doc_id u r in
  (quota_usages st !! key = None ∧ allowed out.1 = true →
   status out.1 = usage_status Usage.reserved ∧
   ∃ wid,
     walletId out.1 = Some wid ∧
     quota_usages out.2 =
       <[key := Usage.mk key u wid r a amt Usage.reserved
                  (JSDate.format now) (JSDate.format now)]> (quota_usages st) ∧
     ∀ k, quota_used_of out.2 k =
          quota_used_of st k + (if decide (k = wid) then amt else 0)) ∧
  (¬ (quota_usages st !! key = None ∧ allowed out.1 = true) →
   quota_usages out.2 = quota_usages st ∧
   ∀ k, quota_used_of out.2 k = quota_used_of st k).
Proof.
  intros Hids out key. subst out key. unfold reserveUsage.
  case_if; [by split; [intros [_ ?]|]|].
  destruct (getSubscription st u) as [sub|]; [|by split; [intros [_ ?]|]].
  case_if; [by split; [intros [_ ?]|]|].
  pose proof (ensureActiveWallet_used st u sub now) as Hused.
  destruct (ensureActiveWallet _ _ st u sub now) as [[w|] st1] eqn:He; simpl in Hused.
  2:{ apply ensureActiveWallet_spec in He as (_ & Hus & _).
      by split; [intros [_ ?]|]. }
  pose proof (ensureActiveWallet_result _ _ _ _ _ _ _ _ Hids He) as [Hw Hact].
  apply ensureActiveWallet_spec in He as (_ & Hus & _).
  unfold reserveUsage_tx. rewrite Hw, Hact. simpl. rewrite Hus.
  destruct (quota_usages st !! usage_doc_id u r) as [usage|] eqn:Hu.
  { simpl. by split; [intros [? _]|]. }
  case_if; simpl.
  { by split; [intros [_ ?]|]. }
  split; [|by intros []].
  intros _. split; [done|]. exists (Wallet.id w).
  split; [done|split; [done|]].
  intros k. rewrite <- Hused. unfold quota_used_of. simpl.
  destruct (decide (k = Wallet.id w)) as [->|Hne].
  - rewrite lookup_insert_eq, Hw. done.
  - rewrite lookup_insert_ne by done. lia.
Qed.

End Debit.

Section BillingEvents.
Variable PLAN_CONFIG : list PlanConfig.
Variable Date_parse : string → option Date.

Lemma getActiveWallet_wallets st st' u :
  quota_wallets st' = quota_wallets st → getActiveWallet st' u = getActiveWallet st u.
Proof. unfold getActiveWallet, active_wallet_docs. by intros ->. Qed.

Lemma openWalletForSubscription_old st sub ce now k w :
  quota_wallets st !! k = Some w →
  Wallet.user_id w ≠ Subscription.user_id sub →
  quota_wallets (openWalletForSubscription PLAN_CONFIG st sub ce now).2 !! k = Some w.
Proof.
  intros Hk Hu. unfold openWalletForSubscription.
  destruct (getPlanConfigById _ _) as [plan|]; [|done]. simpl.
  set (st1 := if ce then _ else st).
  assert (quota_wallets st1 !! k = Some w) as Hk1.
  { subst st1. destruct ce; [|done].
    rewrite closeWalletsForUser_lookup, Hk. simpl.
    destruct (matches_active _ w) eqn:Hm; [|done].
    by apply matches_active_user in Hm. }
  rewrite lookup_insert_ne; [done|].
  intros <-. by rewrite new_wallet_id_fresh in Hk1.
Qed.

Lemma processRevenueCatEvent_other_events st payload now k :
  k ≠ getWebhookEventId payload →
  webhook_events (processRevenueCatEvent PLAN_CONFIG st payload now) !! k =
  webhook_events st !! k.
Proof.
  intros Hk. unfold processRevenueCatEvent.
  destruct (webhook_events st !! getWebhookEventId payload) eqn:Hdup; [done|].
  cbv zeta.
  set (st1 := set_webhook_events st _).
  set (tr := subscription_tx _ _ _ _ _ _).
  set (st2 := set_subscriptions st1 _).
  set (st3 := if shouldCloseWallet tr then _ else st2).
  set (st4 := if shouldOpenWallet tr then _ else st3).
  assert (webhook_events st3 = webhook_events st2) as He3.
  { subst st3. case_if; [apply closeWalletsForUser_others|done]. }
  assert (webhook_events st4 = webhook_events st3) as He4.
  { subst st4. case_if; [apply openWalletForSubscription_webhook_events|done]. }
  simpl. rewrite lookup_partial_alter_ne by done.
  rewrite He4, He3. simpl. by rewrite lookup_insert_ne.
Qed.

(** Extra property X10.  A billing event never touches the usage
    documents, the subscription of another user, a wallet of another user,
    or the webhook document of another event. *)
Theorem billing_event_is_confined st payload now :
  let st' := processRevenueCatEvent PLAN_CONFIG st payload now in
  quota_usages st' = quota_usages st ∧
  (∀ u, u ≠ userId payload → subscriptions_quota st' !! u = subscriptions_quota st !! u) ∧
  (∀ k w, quota_wallets st !! k = Some w → Wallet.user_id w ≠ userId payload →
          quota_wallets st' !! k = Some w) ∧
  (∀ k, k ≠ getWebhookEventId payload → webhook_events st' !! k = webhook_events st !! k).
Proof.
  intros st'. subst st'. unfold processRevenueCatEvent.
  destruct (webhook_events st !! getWebhookEventId payload) eqn:Hdup; [done|].
  cbv zeta.
  set (st1 := set_webhook_events st _).
  set (tr := subscription_tx _ _ _ _ _ _).
  set (st2 := set_subscriptions st1 _).
  set (st3 := if shouldCloseWallet tr then _ else st2).
  set (st4 := if shouldOpenWallet tr then _ else st3).
  assert (Subscription.user_id (nextSubscription tr) = userId payload) as Hnext
    by apply subscription_tx_keys.
  assert (subscriptions_quota st3 = subscriptions_quota st2 ∧
          quota_usages st3 = quota_usages st2 ∧
          webhook_events st3 = webhook_events st2) as (Hs3 & Hu3 & He3).
  { subst st3. case_if; [apply closeWalletsForUser_others|done]. }
  assert (subscriptions_quota st4 = subscriptions_quota st3 ∧
          quota_usages st4 = quota_usages st3 ∧
          webhook_events st4 = webhook_events st3) as (Hs4 & Hu4 & He4).
  { subst st4. case_if; [|done].
    destruct (openWalletForSubscription _ st3 _ _ _) as [r0 st0] eqn:Ho.
    by apply openWalletForSubscription_spec in Ho as (? & ? & ? & _). }
  simpl. split; [by rewrite Hu4, Hu3|]. split; [|split].
  - intros u Hu. rewrite Hs4, Hs3. simpl. by rewrite lookup_insert_ne.
  - intros k w Hk Hu.
    assert (quota_wallets st3 !! k = Some w) as Hk3.
    { subst st3. case_if; [|done].
      rewrite closeWalletsForUser_lookup. simpl. rewrite Hk. simpl.
      destruct (matches_active _ w) eqn:Hm; [|done].
      apply matches_active_user in Hm. congruence. }
    subst st4. case_if; [|done].
    apply openWalletForSubscription_old; [done|congruence].
  - intros k Hk. rewrite lookup_partial_alter_ne by done.
    rewrite He4, He3. simpl. by rewrite lookup_insert_ne.
Qed.

Lemma subscription_tx_revoked payload ty planConfig existing nowIso :
  isRefundEvent ty || isExpirationEvent ty || isBillingIssueEvent ty = true →
  let tr := subscription_tx PLAN_CONFIG payload ty planConfig existing nowIso in
  Subscription.is_active (nextSubscription tr) = false ∧
  shouldOpenWallet tr = false ∧
  shouldCloseWallet tr = JS.nullish_or (Subscription.is_active <$> existing) false.
Proof.
  intros Hty. unfold subscription_tx.
  cbn [nextSubscription shouldOpenWallet shouldCloseWallet Subscription.is_active].
  unfold event_status.
  destruct (isRefundEvent ty); [done|].
  destruct (isExpirationEvent ty); [done|].
  destruct (isBillingIssueEvent ty); done.
Qed.

(** Extra property X11.  A refund, expiration or billing-issue event that
    has not been seen before leaves the user's subscription inactive, so
    that every later Reserve of the user is rejected with remaining 0 and
    writes nothing; and when the subscription was active before, every
    active wallet of the user is closed with [quota_used = quota_total] and
    the user has no active wallet left. *)
Theorem revoking_event_ends_access st payload now :
  webhook_events st !! getWebhookEventId payload = None →
  let ty := normalizeEventType (Some (eventType payload)) in
  isRefundEvent ty || isExpirationEvent ty || isBillingIssueEvent ty = true →
  let st' := processRevenueCatEvent PLAN_CONFIG st payload now in
  (∃ sub, getSubscription st' (userId payload) = Some sub ∧
          Subscription.is_active sub = false) ∧
  (∀ r action amount now',
     reserveUsage PLAN_CONFIG Date_parse st' (userId payload) r action amount now' =
     (mkReserveResult false rejected 0 None, st')) ∧
  (∀ old, getSubscription st (userId payload) = Some old →
          Subscription.is_active old = true →
     getActiveWallet st' (userId payload) = None ∧
     ∀ k w, quota_wallets st !! k = Some w →
            matches_active (userId payload) w = true →
       ∃ w', quota_wallets st' !! k = Some w' ∧
             Wallet.status w' = Wallet.closed ∧
             Wallet.quota_used w' = Wallet.quota_total w).
Proof.
  intros Hdup ty Hty st'. subst st'. unfold processRevenueCatEvent.
  rewrite Hdup. cbv zeta. fold ty.
  set (st1 := set_webhook_events st _).
  set (tr := subscription_tx _ _ _ _ _ _).
  set (st2 := set_subscriptions st1 _).
  set (st3 := if shouldCloseWallet tr then _ else st2).
  pose proof (subscription_tx_revoked payload ty (payload_plan PLAN_CONFIG payload)
                (subscriptions_quota st1 !! userId payload) (JSDate.format now) Hty)
    as (Hinactive & Hopen & Hclose).
  fold tr in Hinactive, Hopen, Hclose. rewrite Hopen.
  assert (Subscription.user_id (nextSubscription tr) = userId payload) as Hnext
    by apply subscription_tx_keys.
  assert (subscriptions_quota st3 = subscriptions_quota st2) as Hs3.
  { subst st3. case_if; [apply closeWalletsForUser_others|done]. }
  assert (∀ wh, getSubscription (set_webhook_events st3 wh) (userId payload) =
                Some (nextSubscription tr)) as Hsub.
  { intros wh. unfold getSubscription. simpl. rewrite Hs3. simpl.
    by rewrite lookup_insert_eq. }
  split; [|split].
  - eexists. split; [apply Hsub|done].
  - intros r action amount now'. unfold reserveUsage.
    case_if; [done|]. rewrite Hsub, Hinactive. done.
  - intros old Hold Hact.
    assert (shouldCloseWallet tr = true) as Hc.
    { rewrite Hclose. unfold getSubscription in Hold. simpl. rewrite Hold. done. }
    subst st3. rewrite Hc, Hnext. split.
    + erewrite getActiveWallet_wallets; [|done].
      apply (proj2 (getActiveWallet_None Date_parse _ _)).
      intros k w. apply closeWalletsForUser_no_active.
    + intros k w Hk Hm. simpl. rewrite lookup_fmap, Hk. simpl. rewrite Hm.
      eexists; split; [done|]. done.
Qed.

End BillingEvents.

(** ** Strings *)

Lemma string_app_cons (c : ascii) (s t : string) :
  String c s +:+ t = String c (s +:+ t).
Proof. reflexivity. Qed.

Lemma string_app_nil_r (s : string) : s +:+ "" = s.
Proof. induction s as [|c s IH]; [done|]. by rewrite string_app_cons, IH. Qed.

Lemma rev_app_rev_app (s1 s2 s3 : string) :
  String.rev_app (String.rev_app s1 s2) s3 = String.rev_app s2 (s1 +:+ s3).
Proof.
  revert s2 s3. induction s1 as [|c s1 IH]; intros s2 s3; simpl; [done|].
  by rewrite IH, string_app_cons.
Qed.

Lemma string_rev_involutive (s : string) : String.rev (String.rev s) = s.
Proof.
  unfold String.rev. rewrite rev_app_rev_app. simpl. apply string_app_nil_r.
Qed.

Lemma rev_app_app (s1 s2 : string) :
  String.rev_app s1 s2 = String.rev s1 +:+ s2.
Proof.
  unfold String.rev. revert s2. induction s1 as [|c s1 IH]; intros s2; simpl; [done|].
  rewrite (IH (String c s2)), (IH (String c "")).
  generalize (String.rev_app s1 ""). intros t.
  induction t as [|d t IHt]; [done|]. by rewrite !string_app_cons, IHt.
Qed.

Lemma rev_app_snoc (s : string) (c : ascii) (acc : string) :
  String.rev_app (s +:+ String c "") acc = String c (String.rev_app s acc).
Proof.
  revert acc. induction s as [|d s IH]; intros acc; [done|].
  rewrite string_app_cons. simpl. apply IH.
Qed.

Lemma trimStart_clean s : starts_clean (JS.trimStart s).
Proof.
  induction s as [|c s IH]; simpl; [done|].
  by destruct (JS.is_white_space c) eqn:Hc.
Qed.

Lemma trimStart_id s : starts_clean s → JS.trimStart s = s.
Proof. destruct s as [|c s]; simpl; [done|]. by intros ->. Qed.

Lemma trimStart_snoc s c :
  JS.is_white_space c = false →
  JS.trimStart (s +:+ String c "") = JS.trimStart s +:+ String c "".
Proof.
  intros Hc. induction s as [|d s IH]; [simpl; by rewrite Hc|].
  rewrite string_app_cons. simpl. by destruct (JS.is_white_space d).
Qed.

Lemma trimEnd_clean s : starts_clean s → starts_clean (JS.trimEnd s).
Proof.
  destruct s as [|c s]; [done|]. simpl. intros Hc.
  unfold JS.trimEnd, String.rev at 2. simpl.
  rewrite rev_app_app, trimStart_snoc by done.
  unfold String.rev. by rewrite rev_app_snoc.
Qed.

Lemma trimEnd_idemp s : JS.trimEnd (JS.trimEnd s) = JS.trimEnd s.
Proof.
  unfold JS.trimEnd. rewrite string_rev_involutive.
  by rewrite (trimStart_id (JS.trimStart _)) by apply trimStart_clean.
Qed.

Lemma trim_idemp s : JS.trim (JS.trim s) = JS.trim s.
Proof.
  unfold JS.trim.
  rewrite (trimStart_id (JS.trimEnd _)) by apply trimEnd_clean, trimStart_clean.
  apply trimEnd_idemp.
Qed.

Lemma lower_upper_ascii c : JS.lower_ascii (JS.upper_ascii c) = JS.lower_ascii c.
Proof. by destruct c as [[] [] [] [] [] [] [] []]. Qed.

Lemma upper_lower_ascii c : JS.upper_ascii (JS.lower_ascii c) = JS.upper_ascii c.
Proof. by destruct c as [[] [] [] [] [] [] [] []]. Qed.

Lemma lower_lower_ascii c : JS.lower_ascii (JS.lower_ascii c) = JS.lower_ascii c.
Proof. by destruct c as [[] [] [] [] [] [] [] []]. Qed.

Lemma toLowerCase_toUpperCase s : JS.toLowerCase (JS.toUpperCase s) = JS.toLowerCase s.
Proof.
  unfold JS.toLowerCase, JS.toUpperCase.
  induction s as [|c s IH]; simpl; [done|]. by rewrite lower_upper_ascii, IH.
Qed.

Lemma toLowerCase_idemp s : JS.toLowerCase (JS.toLowerCase s) = JS.toLowerCase s.
Proof.
  unfold JS.toLowerCase.
  induction s as [|c s IH]; simpl; [done|]. by rewrite lower_lower_ascii, IH.
Qed.

Section CatalogFacts.
Variable PLAN_CONFIG : list PlanConfig.

(** The lookups read their argument through its lower-case form. *)
Lemma lookup_by_lower_case s t :
  (s = "" ↔ t = "") → JS.toLowerCase s = JS.toLowerCase t →
  getPlanConfigById PLAN_CONFIG (Some s) = getPlanConfigById PLAN_CONFIG (Some t) ∧
  resolvePlanConfig PLAN_CONFIG (Some s) = resolvePlanConfig PLAN_CONFIG (Some t).
Proof.
  intros Hempty Hlow.
  unfold resolvePlanConfig, getPlanConfigById,
    QuotaConfig.resolvePlanConfig, QuotaConfig.getPlanConfigById.
  destruct s as [|c s], t as [|d t]; [done|by destruct Hempty as [-> _]
                                     |by destruct Hempty as [_ ->]|].
  cbv beta iota zeta. by rewrite Hlow.
Qed.

Lemma map_string_empty f s : JS.map_string f s = "" ↔ s = "".
Proof. by destruct s. Qed.

(** Extra property X18.  The catalog lookups ignore the letter case of
    their argument: a plan id or product id in upper or lower case resolves
    as the original does. *)
Theorem plan_lookup_ignores_case (s : string) :
  getPlanConfigById PLAN_CONFIG (Some (JS.toUpperCase s)) =
    getPlanConfigById PLAN_CONFIG (Some s) ∧
  getPlanConfigById PLAN_CONFIG (Some (JS.toLowerCase s)) =
    getPlanConfigById PLAN_CONFIG (Some s) ∧
  resolvePlanConfig PLAN_CONFIG (Some (JS.toUpperCase s)) =
    resolvePlanConfig PLAN_CONFIG (Some s) ∧
  resolvePlanConfig PLAN_CONFIG (Some (JS.toLowerCase s)) =
    resolvePlanConfig PLAN_CONFIG (Some s) ∧
  resolvePlanId PLAN_CONFIG (Some (JS.toUpperCase s)) =
    resolvePlanId PLAN_CONFIG (Some s).
Proof.
  destruct (lookup_by_lower_case (JS.toUpperCase s) s) as [Hu1 Hu2];
    [apply map_string_empty|apply toLowerCase_toUpperCase|].
  destruct (lookup_by_lower_case (JS.toLowerCase s) s) as [Hl1 Hl2];
    [apply map_string_empty|apply toLowerCase_idemp|].
  unfold resolvePlanId. by rewrite Hu1, Hu2, Hl1, Hl2.
Qed.

Lemma getPlanConfigById_found id plan :
  getPlanConfigById PLAN_CONFIG id = Some plan →
  plan ∈ PLAN_CONFIG ∧
  ∃ s, id = Some s ∧ s ≠ "" ∧
       JS.toLowerCase (QuotaConfig.planId plan) = JS.trim (JS.toLowerCase s).
Proof.
  unfold getPlanConfigById, QuotaConfig.getPlanConfigById.
  destruct id as [[|c s]|]; try done.
  intros H. apply find_some in H as [Hin Heq].
  split; [by apply list_elem_of_In|].
  exists (String c s). split; [done|split; [done|]]. by apply String.eqb_eq in Heq.
Qed.

(** A plan found under some id is found under its own [planId]. *)
Lemma getPlanConfigById_planId id plan :
  getPlanConfigById PLAN_CONFIG id = Some plan →
  QuotaConfig.planId plan ≠ "" →
  getPlanConfigById PLAN_CONFIG (Some (QuotaConfig.planId plan)) = Some plan.
Proof.
  intros Hfind Hne.
  pose proof (getPlanConfigById_found _ _ Hfind) as (_ & s & -> & Hs & Hlow).
  revert Hfind. unfold getPlanConfigById, QuotaConfig.getPlanConfigById.
  destruct s as [|c s]; [done|].
  destruct (QuotaConfig.planId plan) as [|d p] eqn:Hp; [done|].
  rewrite Hlow, trim_idemp. done.
Qed.

Lemma resolvePlanConfig_elem candidate plan :
  resolvePlanConfig PLAN_CONFIG candidate = Some plan → plan ∈ PLAN_CONFIG.
Proof.
  unfold resolvePlanConfig, QuotaConfig.resolvePlanConfig.
  destruct candidate as [[|c s]|]; try done.
  cbv zeta. case_if; [done|].
  case_if; [apply (getPlanConfigById_elem PLAN_CONFIG)|].
  case_if; [apply (getPlanConfigById_elem PLAN_CONFIG)|].
  destruct (find _ PLAN_CONFIG) as [p|] eqn:Hfind.
  - intros [= <-]. apply find_some in Hfind as [Hin _]. by apply list_elem_of_In.
  - intros Hfind'. apply find_some in Hfind' as [Hin _]. by apply list_elem_of_In.
Qed.

(** Extra property X19.  The catalog lookups return catalog entries only,
    and a plan found by [getPlanConfigById] under any spelling of its id
    (case, surrounding white space) is found again under its own [planId],
    provided that id is not empty. *)
Theorem plan_found_by_its_own_id id plan :
  getPlanConfigById PLAN_CONFIG id = Some plan →
  plan ∈ PLAN_CONFIG ∧
  (∀ candidate p, resolvePlanConfig PLAN_CONFIG candidate = Some p → p ∈ PLAN_CONFIG) ∧
  (QuotaConfig.planId plan ≠ "" →
   getPlanConfigById PLAN_CONFIG (Some (QuotaConfig.planId plan)) = Some plan ∧
   getPlanConfigById PLAN_CONFIG (Some (JS.toUpperCase (QuotaConfig.planId plan)))
     = Some plan).
Proof.
  intros Hfind. split; [by eapply getPlanConfigById_elem|].
  split; [apply resolvePlanConfig_elem|].
  intros Hne. pose proof (getPlanConfigById_planId _ _ Hfind Hne) as Hown.
  split; [done|].
  destruct (lookup_by_lower_case (JS.toUpperCase (QuotaConfig.planId plan))
              (QuotaConfig.planId plan)) as [-> _];
    [apply map_string_empty|apply toLowerCase_toUpperCase|done].
Qed.

End CatalogFacts.

Section Snapshot.
Variable PLAN_CONFIG : list PlanConfig.
Variable Date_parse : string → option Date.

(** The snapshot of a subscription whose user has the active wallet [w]. *)
Lemma buildQuotaSnapshot_wallet st sub w :
  getActiveWallet st (Subscription.user_id sub) = Some w →
  let snap := buildQuotaSnapshot PLAN_CONFIG st sub in
  QuotaSnapshot.walletId snap = Some (Wallet.id w) ∧
  QuotaSnapshot.quotaTotal snap = Wallet.quota_total w ∧
  QuotaSnapshot.quotaUsed snap = Wallet.quota_used w ∧
  QuotaSnapshot.quotaRemaining snap =
    Z.max 0 (Wallet.quota_total w - Wallet.quota_used w) ∧
  QuotaSnapshot.isActive snap = Subscription.is_active sub ∧
  QuotaSnapshot.planId snap = Subscription.plan_id sub.
Proof. intros Hw. unfold buildQuotaSnapshot. rewrite Hw. done. Qed.

(** Extra property X8.  Whenever a Reserve call names a wallet in its
    result, the quota snapshot read right after it is that of an active
    subscription, names the same wallet, and shows as remaining quota the
    [remaining] of the result, which is [max(0, total - used)]. *)
Theorem snapshot_agrees_with_reserve st u r action amount now res st1 wid :
  wallet_ids_ok st →
  subscription_ids_ok st →
  reserveUsage PLAN_CONFIG Date_parse st u r action amount now = (res, st1) →
  walletId res = Some wid →
  ∃ snap,
    getQuotaSnapshot PLAN_CONFIG st1 u = Some snap ∧
    QuotaSnapshot.walletId snap = Some wid ∧
    QuotaSnapshot.quotaRemaining snap = remaining res ∧
    QuotaSnapshot.quotaRemaining snap =
      Z.max 0 (QuotaSnapshot.quotaTotal snap - QuotaSnapshot.quotaUsed snap) ∧
    QuotaSnapshot.isActive snap = true.
Proof.
  intros Hids Hsubs Hres Hwid. unfold reserveUsage in Hres.
  destruct (JS.truthy (Some r)); simpl in Hres;
    [|injection Hres as <- <-; done].
  destruct (getSubscription st u) as [sub|] eqn:Hsub;
    [|injection Hres as <- <-; done].
  destruct (Subscription.is_active sub) eqn:Hact; simpl in Hres;
    [|injection Hres as <- <-; done].
  destruct (ensureActiveWallet _ _ st u sub now) as [[w|] st0] eqn:He;
    [|injection Hres as <- <-; done].
  assert (Subscription.user_id sub = u) as Hu by by apply Hsubs.
  pose proof (ensureActiveWallet_active _ _ _ _ _ _ _ _ Hids Hu He) as [Hgaw Hids0].
  pose proof (ensureActiveWallet_result _ _ _ _ _ _ _ _ Hids He) as [Hw Hwact].
  apply ensureActiveWallet_spec in He as (Hs0 & _).
  assert (∀ st' w',
            subscriptions_quota st' = subscriptions_quota st0 →
            getActiveWallet st' u = Some w' →
            ∃ snap,
              getQuotaSnapshot PLAN_CONFIG st' u = Some snap ∧
              QuotaSnapshot.walletId snap = Some (Wallet.id w') ∧
              QuotaSnapshot.quotaRemaining snap =
                Z.max 0 (Wallet.quota_total w' - Wallet.quota_used w') ∧
              QuotaSnapshot.quotaRemaining snap =
                Z.max 0 (QuotaSnapshot.quotaTotal snap - QuotaSnapshot.quotaUsed snap) ∧
              QuotaSnapshot.isActive snap = true) as Hsnap.
  { intros st' w' Hs' Hw'. unfold getQuotaSnapshot, getSubscription.
    rewrite Hs', Hs0. unfold getSubscription in Hsub. rewrite Hsub.
    eexists. split; [done|]. rewrite <- Hu in Hw'.
    destruct (buildQuotaSnapshot_wallet st' sub w' Hw') as (-> & -> & -> & -> & -> & _).
    done. }
  unfold reserveUsage_tx in Hres. rewrite Hw, Hwact in Hres. simpl in Hres.
  destruct (quota_usages st0 !! usage_doc_id u r) as [usage|].
  { injection Hres as <- <-. simpl in Hwid. injection Hwid as <-.
    by apply Hsnap. }
  destruct (Wallet.quota_total w <? Wallet.quota_used w + amount).
  { injection Hres as <- <-. simpl in Hwid. injection Hwid as <-.
    by apply Hsnap. }
  injection Hres as <- <-. simpl in Hwid. injection Hwid as <-.
  set (w' := Wallet.update_usage w (Wallet.quota_used w + amount)
               (Some (JSDate.format now)) (JSDate.format now)).
  match goal with
  | |- context [getQuotaSnapshot _ ?s _] =>
      destruct (Hsnap s w') as (snap & H1 & H2 & H3 & H4 & H5)
  end.
  - done.
  - apply (is_first_getActiveWallet Date_parse). simpl.
    pose proof (getActiveWallet_lookup Date_parse _ _ _ Hids0 Hgaw) as Hfirst.
    pose proof (is_first_insert _ _ _ _ (Wallet.id w) w w' Hw eq_refl eq_refl eq_refl
                  Hfirst) as Hfirst'.
    by rewrite decide_True in Hfirst'.
  - exists snap. by rewrite H1, H2, H3, <- H4, H5.
Qed.

End Snapshot.

Section PlanSyncWallet.
Variable PLAN_CONFIG : list PlanConfig.
Variable Date_parse : string → option Date.

(** What a plan sync that resolves [plan] does. *)
Lemma syncQuotaFromPlan_resolved st u candidate now plan :
  JSDate.valid now →
  1970 ≤ JSDate.getUTCFullYear now ≤ 275758 →
  getPlanConfigById PLAN_CONFIG (resolvePlanId PLAN_CONFIG candidate) = Some plan →
  ∃ sub,
    Subscription.id sub = u ∧ Subscription.user_id sub = u ∧
    Subscription.plan_id sub = Some (QuotaConfig.planId plan) ∧
    Subscription.current_period_start sub = Some (JSDate.format now) ∧
    let st1 := set_subscriptions st (<[u := sub]> (subscriptions_quota st)) in
    if String.eqb (QuotaConfig.planId plan) "free"
    then syncQuotaFromPlan PLAN_CONFIG st u candidate now = Some st1 ∧
         Subscription.is_active sub = false ∧
         Subscription.status sub = Subscription.expired
    else syncQuotaFromPlan PLAN_CONFIG st u candidate now =
           Some (openWalletForSubscription PLAN_CONFIG st1 sub true now).2 ∧
         Subscription.is_active sub = true ∧
         Subscription.status sub = Subscription.active.
Proof.
  intros Hvalid Hyear Hplan. unfold syncQuotaFromPlan.
  assert (Hcfg : (if JS.truthy (resolvePlanId PLAN_CONFIG candidate)
                  then getPlanConfigById PLAN_CONFIG (resolvePlanId PLAN_CONFIG candidate)
                  else None) = Some plan).
  { destruct (resolvePlanId PLAN_CONFIG candidate) as [[|c s]|]; done. }
  rewrite Hcfg.
  rewrite (UTC_first_of_next_month now Hvalid Hyear).
  rewrite (UTC_one_year_later now Hvalid Hyear).
  set (periodEnd := JSDate.format
                      match QuotaConfig.cycle plan with
                      | QuotaConfig.monthly => first_of_next_month now
                      | QuotaConfig.yearly => one_year_later now
                      end).
  assert (Hend : match QuotaConfig.cycle plan with
                 | QuotaConfig.monthly => JSDate.toISOString (Some (first_of_next_month now))
                 | QuotaConfig.yearly => JSDate.toISOString (Some (one_year_later now))
                 end = Some periodEnd).
  { subst periodEnd. by destruct (QuotaConfig.cycle plan). }
  rewrite Hend. cbn [mbind option_bind].
  destruct (String.eqb (QuotaConfig.planId plan) "free");
    cbn [negb]; eexists; (split; [|split; [|split; [|split; [|split; [reflexivity|]]]]]);
    done.
Qed.

(** Opening with [closeExisting] on a store whose wallets are closed
    already gives the same result. *)
Lemma openWalletForSubscription_closed st sub now plan :
  getPlanConfigById PLAN_CONFIG (Subscription.plan_id sub) = Some plan →
  openWalletForSubscription PLAN_CONFIG st sub true now =
  openWalletForSubscription PLAN_CONFIG
    (closeWalletsForUser st (Subscription.user_id sub) "plan_change" false now)
    sub true now.
Proof.
  intros Hplan. unfold openWalletForSubscription. rewrite Hplan.
  rewrite (closeWalletsForUser_idle (closeWalletsForUser st _ _ _ _)); [done|].
  intros k w. apply closeWalletsForUser_no_active.
Qed.

(** The wallet [openWalletForSubscription] opens for a subscription whose
    plan is in the catalog. *)
Lemma openWalletForSubscription_opened st sub now plan :
  wallet_ids_ok st →
  getPlanConfigById PLAN_CONFIG (Subscription.plan_id sub) = Some plan →
  ∃ w st',
    openWalletForSubscription PLAN_CONFIG st sub true now = (Some w, st') ∧
    getActiveWallet st' (Subscription.user_id sub) = Some w ∧
    wallet_ids_ok st' ∧
    quota_wallets st !! Wallet.id w = None ∧
    Wallet.quota_total w = QuotaConfig.quota plan ∧
    Wallet.quota_used w = 0 ∧
    Wallet.period_start w = Subscription.current_period_start sub ∧
    Wallet.period_end w = Subscription.current_period_end sub ∧
    (∀ k w0, quota_wallets st !! k = Some w0 →
       ∃ w0', quota_wallets st' !! k = Some w0' ∧
              Wallet.quota_used w0' = Wallet.quota_used w0 ∧
              (matches_active (Subscription.user_id sub) w0 = true →
               Wallet.status w0' = Wallet.closed) ∧
              (matches_active (Subscription.user_id sub) w0 = false → w0' = w0)).
Proof.
  intros Hids Hplan.
  destruct (openWalletForSubscription PLAN_CONFIG st sub true now) as [r st'] eqn:Ho.
  pose proof Ho as Ho'.
  rewrite (openWalletForSubscription_closed _ _ _ _ Hplan) in Ho'.
  unfold openWalletForSubscription in Ho. rewrite Hplan in Ho.
  cbv zeta in Ho. injection Ho as <- Hst'.
  set (st1 := closeWalletsForUser st (Subscription.user_id sub) "plan_change" false now)
    in *.
  eexists _, _. split; [reflexivity|].
  destruct (openWalletForSubscription_active PLAN_CONFIG Date_parse st1 sub now _ _
              (closeWalletsForUser_ids_ok _ _ _ _ _ Hids)
              (closeWalletsForUser_no_active _ _ _ _ _) Ho') as [Hgaw Hids'].
  split; [done|split; [done|]].
  split.
  { cbn [Wallet.id].
    apply (proj1 (closeWalletsForUser_dom st (Subscription.user_id sub)
                    "plan_change" false now _)), new_wallet_id_fresh. }
  split; [done|split; [done|split; [done|split; [done|]]]].
  intros k w0 Hk. rewrite <- Hst'. cbn [quota_wallets set_wallets].
  assert (k ≠ new_wallet_id st1) as Hne.
  { intros ->. pose proof (new_wallet_id_fresh st1) as Hf.
    apply (proj1 (closeWalletsForUser_dom st (Subscription.user_id sub)
                    "plan_change" false now _)) in Hf. congruence. }
  rewrite lookup_insert_ne by done. subst st1.
  unfold closeWalletsForUser. cbn [quota_wallets set_wallets].
  rewrite lookup_fmap, Hk. simpl.
  eexists; split; [done|]. by destruct (matches_active _ w0).
Qed.

(** What a plan sync that resolves a paid plan leaves behind. *)
Lemma syncQuotaFromPlan_paid st u candidate now plan :
  JSDate.valid now →
  1970 ≤ JSDate.getUTCFullYear now ≤ 275758 →
  wallet_ids_ok st →
  getPlanConfigById PLAN_CONFIG (resolvePlanId PLAN_CONFIG candidate) = Some plan →
  QuotaConfig.planId plan ≠ "free" →
  QuotaConfig.planId plan ≠ "" →
  ∃ st' w sub,
    syncQuotaFromPlan PLAN_CONFIG st u candidate now = Some st' ∧
    getSubscription st' u = Some sub ∧
    Subscription.user_id sub = u ∧
    Subscription.is_active sub = true ∧
    Subscription.plan_id sub = Some (QuotaConfig.planId plan) ∧
    getActiveWallet st' u = Some w ∧
    quota_wallets st !! Wallet.id w = None ∧
    Wallet.quota_total w = QuotaConfig.quota plan ∧
    Wallet.quota_used w = 0 ∧
    Wallet.period_start w = Some (JSDate.format now) ∧
    (∀ k w0, quota_wallets st !! k = Some w0 →
       ∃ w0', quota_wallets st' !! k = Some w0' ∧
              Wallet.quota_used w0' = Wallet.quota_used w0 ∧
              (matches_active u w0 = true → Wallet.status w0' = Wallet.closed)).
Proof.
  intros Hvalid Hyear Hids Hplan Hfree Hne.
  destruct (syncQuotaFromPlan_resolved st u candidate now plan Hvalid Hyear Hplan)
    as (sub & Hid & Huser & Hpid & Hstart & Hsync).
  apply String.eqb_neq in Hfree. rewrite Hfree in Hsync.
  destruct Hsync as (Hsync & Hact & _).
  set (st1 := set_subscriptions st (<[u := sub]> (subscriptions_quota st))) in *.
  assert (getPlanConfigById PLAN_CONFIG (Subscription.plan_id sub) = Some plan) as Hplan'.
  { rewrite Hpid. by eapply getPlanConfigById_planId. }
  destruct (openWalletForSubscription_opened st1 sub now plan Hids Hplan')
    as (w & st' & Ho & Hgaw & _ & Hfresh & Htotal & Hused & Hps & _ & Hold).
  rewrite Ho in Hsync. rewrite Huser in Hgaw, Hold.
  assert (getSubscription st' u = Some sub) as Hsub.
  { unfold getSubscription.
    pose proof (openWalletForSubscription_subscriptions PLAN_CONFIG st1 sub true now)
      as Hs. rewrite Ho in Hs. simpl in Hs. rewrite Hs. apply lookup_insert_eq. }
  exists st', w, sub.
  split; [done|split; [done|split; [done|split; [done|split; [done|]]]]].
  split; [done|split; [done|split; [done|split; [done|split; [congruence|]]]]].
  intros k w0 Hk. destruct (Hold k w0 Hk) as (w0' & ? & ? & ? & _). by exists w0'.
Qed.

(** Extra property X14.  A plan sync that resolves a paid plan returns,
    opens a new wallet with the plan's quota and nothing used, starting at
    the time of the call, and makes it the user's active wallet; the
    wallets of the user that were active are closed with their
    [quota_used] unchanged, and the snapshot read afterwards shows the
    plan, the new wallet and its full quota. *)
Theorem plan_sync_grants_full_quota st u candidate now plan :
  JSDate.valid now →
  1970 ≤ JSDate.getUTCFullYear now ≤ 275758 →
  wallet_ids_ok st →
  getPlanConfigById PLAN_CONFIG (resolvePlanId PLAN_CONFIG candidate) = Some plan →
  QuotaConfig.planId plan ≠ "free" →
  QuotaConfig.planId plan ≠ "" →
  ∃ st' w snap,
    syncQuotaFromPlan PLAN_CONFIG st u candidate now = Some st' ∧
    getActiveWallet st' u = Some w ∧
    quota_wallets st !! Wallet.id w = None ∧
    Wallet.quota_total w = QuotaConfig.quota plan ∧
    Wallet.quota_used w = 0 ∧
    Wallet.period_start w = Some (JSDate.format now) ∧
    (∀ k w0, quota_wallets st !! k = Some w0 →
       ∃ w0', quota_wallets st' !! k = Some w0' ∧
              Wallet.quota_used w0' = Wallet.quota_used w0 ∧
              (matches_active u w0 = true → Wallet.status w0' = Wallet.closed)) ∧
    getQuotaSnapshot PLAN_CONFIG st' u = Some snap ∧
    QuotaSnapshot.isActive snap = true ∧
    QuotaSnapshot.planId snap = Some (QuotaConfig.planId plan) ∧
    QuotaSnapshot.walletId snap = Some (Wallet.id w) ∧
    QuotaSnapshot.quotaTotal snap = QuotaConfig.quota plan ∧
    QuotaSnapshot.quotaUsed snap = 0.
Proof.
  intros Hvalid Hyear Hids Hplan Hfree Hne.
  destruct (syncQuotaFromPlan_paid st u candidate now plan Hvalid Hyear Hids Hplan
              Hfree Hne)
    as (st' & w & sub & Hsync & Hsub & Huser & Hact & Hpid & Hgaw & Hfresh & Htotal
        & Hused & Hstart & Hold).
  exists st', w, (buildQuotaSnapshot PLAN_CONFIG st' sub).
  split; [done|split; [done|split; [done|split; [done|split; [done|]]]]].
  split; [done|split; [done|]].
  split; [unfold getQuotaSnapshot; by rewrite Hsub|].
  rewrite <- Huser in Hgaw.
  destruct (buildQuotaSnapshot_wallet PLAN_CONFIG st' sub w Hgaw)
    as (-> & -> & -> & _ & -> & ->).
  by rewrite Hact, Hpid, Htotal, Hused.
Qed.

(** Extra property X15.  A plan sync that resolves the plan [free] writes
    an expired, inactive subscription and touches neither wallets nor usage
    documents; every later Reserve of the user is rejected with remaining 0
    and writes nothing. *)
Theorem plan_sync_to_free_plan_revokes st u candidate now plan :
  JSDate.valid now →
  1970 ≤ JSDate.getUTCFullYear now ≤ 275758 →
  getPlanConfigById PLAN_CONFIG (resolvePlanId PLAN_CONFIG candidate) = Some plan →
  QuotaConfig.planId plan = "free" →
  ∃ st' sub,
    syncQuotaFromPlan PLAN_CONFIG st u candidate now = Some st' ∧
    quota_wallets st' = quota_wallets st ∧
    quota_usages st' = quota_usages st ∧
    getSubscription st' u = Some sub ∧
    Subscription.is_active sub = false ∧
    Subscription.status sub = Subscription.expired ∧
    ∀ r action amount now',
      reserveUsage PLAN_CONFIG Date_parse st' u r action amount now' =
      (mkReserveResult false rejected 0 None, st').
Proof.
  intros Hvalid Hyear Hplan Hfree.
  destruct (syncQuotaFromPlan_resolved st u candidate now plan Hvalid Hyear Hplan)
    as (sub & Hid & Huser & Hpid & Hstart & Hsync).
  rewrite Hfree in Hsync. simpl in Hsync. destruct Hsync as (Hsync & Hact & Hstatus).
  eexists _, sub. split; [exact Hsync|].
  assert (getSubscription
            (set_subscriptions st (<[u := sub]> (subscriptions_quota st))) u = Some sub)
    as Hsub by apply lookup_insert_eq.
  split; [done|split; [done|split; [done|split; [done|split; [done|]]]]].
  intros r action amount now'. unfold reserveUsage.
  case_if; [done|]. by rewrite Hsub, Hact.
Qed.

End PlanSyncWallet.

Section EnsureQuota.
Variable PLAN_CONFIG : list PlanConfig.
Variable Date_parse : string → option Date.

Lemma ensureUserRecord_lookup users u email now :
  ∃ user,
    ensureUserRecord users u email now !! u = Some user ∧
    QuotaUser.id user = u ∧ QuotaUser.email user = email ∧
    QuotaUser.created_at user = JSDate.format now ∧
    QuotaUser.updated_at user = JSDate.format now ∧
    QuotaUser.status user = users !! u ≫= QuotaUser.status.
Proof.
  unfold ensureUserRecord. rewrite lookup_insert_eq. by eexists.
Qed.

(** Extra property X16.  When [ensureQuotaForUser] returns, its result is
    the snapshot the store holds afterwards; the user record carries the
    user's id, a [null] email and the time of the call as creation time,
    other users' records are untouched; the documents change only when the
    user had no subscription and is premium; and once a snapshot has been
    returned, every later call returns it again without changing a
    document. *)
Theorem ensureQuotaForUser_reads_back db u ps now r db' :
  ensureQuotaForUser PLAN_CONFIG db u ps now = (Some r, db') →
  r = getQuotaSnapshot PLAN_CONFIG (documents db') u ∧
  (∃ user, users_quota db' !! u = Some user ∧ QuotaUser.id user = u ∧
           QuotaUser.email user = None ∧
           QuotaUser.created_at user = JSDate.format now ∧
           QuotaUser.status user = users_quota db !! u ≫= QuotaUser.status) ∧
  (∀ u', u' ≠ u → users_quota db' !! u' = users_quota db !! u') ∧
  (is_Some (getSubscription (documents db) u) ∨ ps ≫= premium ≠ Some true →
   documents db' = documents db) ∧
  (is_Some r →
   ∀ ps' now',
     (ensureQuotaForUser PLAN_CONFIG db' u ps' now').1 = Some r ∧
     documents (ensureQuotaForUser PLAN_CONFIG db' u ps' now').2 = documents db').
Proof.
  intros Hcall.
  assert (users_quota db' = ensureUserRecord (users_quota db) u None now ∧
          r = getQuotaSnapshot PLAN_CONFIG (documents db') u ∧
          (is_Some (getSubscription (documents db) u) ∨ ps ≫= premium ≠ Some true →
           documents db' = documents db)) as (Husers & Hr & Hsame).
  { revert Hcall. unfold ensureQuotaForUser. cbv zeta.
    destruct (getSubscription (documents db) u) as [sub|] eqn:Hsub.
    - intros [= <- <-]. simpl. split; [done|split; [|done]].
      unfold getQuotaSnapshot. by rewrite Hsub.
    - destruct (ps ≫= premium) as [[]|] eqn:Hp.
      + destruct (if JS.truthy _ then _ else _) as [st1|]; [|done].
        intros [= <- <-]. simpl. split; [done|split; [done|]].
        intros [[? ?]|?]; done.
      + by intros [= <- <-].
      + by intros [= <- <-]. }
  split; [done|]. split; [|split; [|split; [done|]]].
  - rewrite Husers.
    destruct (ensureUserRecord_lookup (users_quota db) u None now)
      as (user & ? & ? & ? & ? & ? & ?). by exists user.
  - intros u' Hne. rewrite Husers. unfold ensureUserRecord.
    by rewrite lookup_insert_ne.
  - intros [snap ->] ps' now'. unfold ensureQuotaForUser. cbv zeta.
    symmetry in Hr. unfold getQuotaSnapshot in Hr.
    destruct (getSubscription (documents db') u) as [sub|]; [|done].
    simpl. by rewrite Hr.
Qed.

(** Extra property X17.  The first call of [ensureQuotaForUser] for a
    premium user without subscription, whose entitlement resolves to a paid
    plan, returns an active snapshot with the plan's quota, nothing used,
    and a wallet opened by the call as the user's active wallet. *)
Theorem first_premium_login_opens_wallet db u ps now plan :
  JSDate.valid now →
  1970 ≤ JSDate.getUTCFullYear now ≤ 275758 →
  wallet_ids_ok (documents db) →
  getSubscription (documents db) u = None →
  ps ≫= premium = Some true →
  getPlanConfigById PLAN_CONFIG
    (resolvePlanId PLAN_CONFIG
       (resolvePlanId PLAN_CONFIG (ps ≫= entitlementProductId))) = Some plan →
  QuotaConfig.planId plan ≠ "free" →
  QuotaConfig.planId plan ≠ "" →
  ∃ snap db',
    ensureQuotaForUser PLAN_CONFIG db u ps now = (Some (Some snap), db') ∧
    QuotaSnapshot.isActive snap = true ∧
    QuotaSnapshot.planId snap = Some (QuotaConfig.planId plan) ∧
    QuotaSnapshot.quotaTotal snap = QuotaConfig.quota plan ∧
    QuotaSnapshot.quotaUsed snap = 0 ∧
    (∃ w, QuotaSnapshot.walletId snap = Some (Wallet.id w) ∧
          getActiveWallet (documents db') u = Some w ∧
          quota_wallets (documents db) !! Wallet.id w = None).
Proof.
  intros Hvalid Hyear Hids Hnone Hprem Hplan Hfree Hne.
  destruct (syncQuotaFromPlan_paid PLAN_CONFIG Date_parse (documents db) u
              (resolvePlanId PLAN_CONFIG (ps ≫= entitlementProductId)) now plan
              Hvalid Hyear Hids Hplan Hfree Hne)
    as (st' & w & sub & Hsync & Hsub & Huser & Hact & Hpid & Hgaw & Hfresh & Htotal
        & Hused & _).
  exists (buildQuotaSnapshot PLAN_CONFIG st' sub),
         (mkDatabase (ensureUserRecord (users_quota db) u None now) st').
  split.
  - unfold ensureQuotaForUser. cbv zeta. rewrite Hnone, Hprem.
    assert (JS.truthy (resolvePlanId PLAN_CONFIG (ps ≫= entitlementProductId)) = true)
      as ->.
    { destruct (resolvePlanId PLAN_CONFIG (ps ≫= entitlementProductId))
        as [[|c s]|] eqn:Hres; try done.
      all: revert Hplan; unfold resolvePlanId, resolvePlanConfig, getPlanConfigById;
        simpl; done. }
    rewrite Hsync. unfold getQuotaSnapshot. by rewrite Hsub.
  - pose proof Hgaw as Hgaw'. rewrite <- Huser in Hgaw'.
    destruct (buildQuotaSnapshot_wallet PLAN_CONFIG st' sub w Hgaw')
      as (-> & -> & -> & _ & -> & ->).
    rewrite Hact, Hpid, Htotal, Hused.
    split; [done|split; [done|split; [done|split; [done|]]]]. by exists w.
Qed.

End EnsureQuota.

Section Purchases.
Variable PLAN_CONFIG : list PlanConfig.
Variable Date_parse : string → option Date.

Lemma purchase_event_status ty existing :
  isPurchaseEvent ty = true → event_status ty existing = Subscription.active.
Proof.
  intros H. unfold isPurchaseEvent, one_of in H.
  apply existsb_exists in H as (x & Hin & Heq).
  apply String.eqb_eq in Heq. subst x.
  simpl in Hin. destruct Hin as [<-|[<-|[<-|[<-|[<-|[]]]]]]; reflexivity.
Qed.

Lemma subscription_tx_purchase payload ty planConfig existing nowIso :
  isPurchaseEvent ty = true →
  let tr := subscription_tx PLAN_CONFIG payload ty planConfig existing nowIso in
  Subscription.is_active (nextSubscription tr) = true ∧
  Subscription.status (nextSubscription tr) = Subscription.active ∧
  shouldOpenWallet tr = true ∧ shouldCloseWallet tr = false.
Proof.
  intros Hty. unfold subscription_tx.
  cbn [nextSubscription shouldOpenWallet shouldCloseWallet Subscription.is_active
       Subscription.status].
  rewrite (purchase_event_status ty existing Hty), Hty. done.
Qed.

(** Extra property X12.  A purchase event (purchase, renewal, product
    change, uncancellation) that changes neither the plan nor the period
    end of an existing subscription opens a wallet without closing any: a
    wallet of the user that was active stays as it is, and a second active
    wallet with nothing used stands beside it. *)
Theorem purchase_without_change_adds_a_wallet st payload now old k w :
  webhook_events st !! getWebhookEventId payload = None →
  isPurchaseEvent (normalizeEventType (Some (eventType payload))) = true →
  getSubscription st (userId payload) = Some old →
  ¬ plan_changed (next_plan PLAN_CONFIG (payload_plan PLAN_CONFIG payload) (Some old))
      (Some old) →
  ¬ period_changed payload (Some old) →
  is_Some (getPlanConfigById PLAN_CONFIG
             (Subscription.plan_id
                (nextSubscription
                   (subscription_tx PLAN_CONFIG payload
                      (normalizeEventType (Some (eventType payload)))
                      (payload_plan PLAN_CONFIG payload) (Some old)
                      (JSDate.format now))))) →
  quota_wallets st !! k = Some w →
  matches_active (userId payload) w = true →
  let st' := processRevenueCatEvent PLAN_CONFIG st payload now in
  quota_wallets st' !! k = Some w ∧
  ∃ k' w', k' ≠ k ∧ quota_wallets st !! k' = None ∧
           quota_wallets st' !! k' = Some w' ∧
           matches_active (userId payload) w' = true ∧
           Wallet.quota_used w' = 0.
Proof.
  intros Hdup Hty Hold Hplan Hperiod Hcat Hk Hm st'. subst st'.
  unfold processRevenueCatEvent. rewrite Hdup. cbv zeta.
  set (ty := normalizeEventType _) in *.
  set (st1 := set_webhook_events st _).
  assert (subscriptions_quota st1 !! userId payload = Some old) as Hold1 by done.
  rewrite Hold1.
  set (tr := subscription_tx _ _ _ _ _ _).
  pose proof (subscription_tx_purchase payload ty (payload_plan PLAN_CONFIG payload)
                (Some old) (JSDate.format now) Hty) as (Hact & _ & Hopen & Hclose).
  fold tr in Hact, Hopen, Hclose. rewrite Hopen, Hclose.
  assert (planChanged tr = false) as ->.
  { destruct (planChanged tr) eqn:Hpc; [|done].
    apply subscription_tx_planChanged in Hpc. done. }
  assert (periodChanged tr = false) as ->.
  { destruct (periodChanged tr) eqn:Hpc; [|done].
    apply subscription_tx_periodChanged in Hpc. done. }
  assert (Subscription.user_id (nextSubscription tr) = userId payload) as Hnext
    by apply subscription_tx_keys.
  destruct Hcat as [plan Hcfg]. fold tr in Hcfg.
  unfold openWalletForSubscription. rewrite Hcfg. cbv zeta. simpl.
  set (st2 := set_subscriptions st1 _).
  assert (k ≠ new_wallet_id st2) as Hne.
  { intros ->. pose proof (new_wallet_id_fresh st2) as Hf.
    change (quota_wallets st2) with (quota_wallets st) in Hf. congruence. }
  split; [by rewrite lookup_insert_ne|].
  eexists (new_wallet_id st2), _.
  split; [done|split; [apply (new_wallet_id_fresh st2)|]].
  split; [apply lookup_insert_eq|]. split; [|done].
  unfold matches_active. simpl. by rewrite String.eqb_refl.
Qed.

Lemma getWebhookEventId_provider payload e :
  eventId payload = Some e → e ≠ "" → getWebhookEventId payload = "rc_" +:+ e.
Proof.
  intros He Hne. unfold getWebhookEventId. rewrite He.
  by rewrite truthy_nonempty.
Qed.

(** Extra property X13.  Two billing events with different non-empty
    provider ids have different webhook documents: the second is processed
    after the first, both documents exist afterwards, and the second has
    been applied to the subscription of its user. *)
Theorem distinct_provider_ids_are_both_processed st p1 p2 now1 now2 e1 e2 :
  eventId p1 = Some e1 → e1 ≠ "" →
  eventId p2 = Some e2 → e2 ≠ "" →
  e1 ≠ e2 →
  webhook_events st !! getWebhookEventId p2 = None →
  let st1 := processRevenueCatEvent PLAN_CONFIG st p1 now1 in
  let st2 := processRevenueCatEvent PLAN_CONFIG st1 p2 now2 in
  getWebhookEventId p1 ≠ getWebhookEventId p2 ∧
  is_Some (webhook_events st2 !! getWebhookEventId p1) ∧
  (∃ doc, webhook_events st2 !! getWebhookEventId p2 = Some doc ∧
          WebhookEvent.rc_event_id doc = e2 ∧
          WebhookEvent.status doc = WebhookEvent.processed) ∧
  ∃ sub, getSubscription st2 (userId p2) = Some sub ∧
         Subscription.last_rc_event_at sub = Some (JSDate.format now2).
Proof.
  intros He1 Hne1 He2 Hne2 Hdiff Hnew st1 st2.
  assert (getWebhookEventId p1 ≠ getWebhookEventId p2) as Hids.
  { rewrite (getWebhookEventId_provider p1 e1), (getWebhookEventId_provider p2 e2)
      by done.
    intros Heq. by apply (inj (String.app "rc_")) in Heq. }
  assert (webhook_events st1 !! getWebhookEventId p2 = None) as Hnew1.
  { subst st1.
    rewrite processRevenueCatEvent_other_events; [done|]. congruence. }
  split; [done|split; [|split]].
  - subst st2.
    rewrite processRevenueCatEvent_other_events by done.
    apply processRevenueCatEvent_known.
  - subst st2. unfold processRevenueCatEvent. rewrite Hnew1. cbv zeta.
    set (s1 := set_webhook_events st1 _).
    set (tr := subscription_tx _ _ _ _ _ _).
    set (s2 := set_subscriptions s1 _).
    set (s3 := if shouldCloseWallet tr then _ else s2).
    set (s4 := if shouldOpenWallet tr then _ else s3).
    assert (webhook_events s3 = webhook_events s2) as H3.
    { subst s3. case_if; [apply closeWalletsForUser_others|done]. }
    assert (webhook_events s4 = webhook_events s3) as H4.
    { subst s4. case_if; [apply openWalletForSubscription_webhook_events|done]. }
    simpl. rewrite lookup_partial_alter_eq, H4, H3. simpl.
    rewrite lookup_insert_eq. simpl. eexists. split; [done|]. by rewrite He2.
  - subst st2. unfold processRevenueCatEvent. rewrite Hnew1. cbv zeta.
    set (s1 := set_webhook_events st1 _).
    set (tr := subscription_tx _ _ _ _ _ _).
    set (s2 := set_subscriptions s1 _).
    set (s3 := if shouldCloseWallet tr then _ else s2).
    set (s4 := if shouldOpenWallet tr then _ else s3).
    assert (subscriptions_quota s3 = subscriptions_quota s2) as H3.
    { subst s3. case_if; [apply closeWalletsForUser_others|done]. }
    assert (subscriptions_quota s4 = subscriptions_quota s3) as H4.
    { subst s4. case_if; [apply openWalletForSubscription_subscriptions|done]. }
    unfold getSubscription. simpl. rewrite H4, H3. simpl.
    rewrite lookup_insert_eq. eexists. split; [done|]. done.
Qed.

End Purchases.

Section Rollover.
Variable PLAN_CONFIG : list PlanConfig.
Variable Date_parse : string → option Date.

(** What [ensureActiveWallet] does when no wallet of the user is within its
    period and the subscription carries a period. *)
Lemma ensureActiveWallet_rollover st u sub now plan :
  wallet_ids_ok st →
  Subscription.user_id sub = u →
  Subscription.is_active sub = true →
  getPlanConfigById PLAN_CONFIG (Subscription.plan_id sub) = Some plan →
  JS.truthy (Subscription.current_period_start sub) = true →
  JS.truthy (Subscription.current_period_end sub) = true →
  (∀ w, getActiveWallet st u = Some w →
        wallet_still_running Date_parse sub w now = false) →
  ∃ w st',
    ensureActiveWallet PLAN_CONFIG Date_parse st u sub now = (Some w, st') ∧
    getActiveWallet st' u = Some w ∧
    wallet_ids_ok st' ∧
    quota_wallets st !! Wallet.id w = None ∧
    Wallet.quota_total w = QuotaConfig.quota plan ∧
    Wallet.quota_used w = 0 ∧
    Wallet.period_end w = Subscription.current_period_end sub ∧
    (∀ k w0, quota_wallets st !! k = Some w0 →
       if matches_active u w0
       then quota_wallets st' !! k =
            Some (close_wallet "period_reset" false (JSDate.format now) w0)
       else quota_wallets st' !! k = Some w0).
Proof.
  intros Hids Hu Hact Hplan Hstart Hend Hstale. unfold ensureActiveWallet.
  rewrite Hact, Hplan. simpl.
  assert (match getActiveWallet st u with
          | Some w => wallet_still_running Date_parse sub w now
          | None => false
          end = false) as ->.
  { destruct (getActiveWallet st u) as [w|] eqn:Hw; [by apply Hstale|done]. }
  rewrite Hstart, Hend. simpl.
  set (st1 := closeWalletsForUser st u "period_reset" false now).
  destruct (openWalletForSubscription_opened PLAN_CONFIG Date_parse st1 sub now plan
              (closeWalletsForUser_ids_ok _ _ _ _ _ Hids) Hplan)
    as (w & st' & Ho & Hgaw & Hids' & Hfresh & Htotal & Hused & _ & Hpe & Hold).
  rewrite Hu in Hgaw, Hold.
  exists w, st'. split; [done|split; [done|split; [done|]]].
  split; [by apply (closeWalletsForUser_dom st u "period_reset" false now)|].
  split; [done|split; [done|split; [done|]]].
  intros k w0 Hk.
  assert (quota_wallets st1 !! k =
          Some (if matches_active u w0
                then close_wallet "period_reset" false (JSDate.format now) w0
                else w0)) as Hk1.
  { subst st1. by rewrite closeWalletsForUser_lookup, Hk. }
  destruct (Hold _ _ Hk1) as (w0' & Hk' & _ & _ & Hsame).
  rewrite Hk'. destruct (matches_active u w0) eqn:Hm.
  - rewrite Hsame; [done|]. unfold matches_active, Wallet.is_active. simpl.
    by rewrite andb_false_r.
  - by rewrite Hsame.
Qed.

(** Extra property X20.  A Reserve that finds no wallet of the user within
    its period (the active wallet's period has ended, or there is none)
    rolls over before it debits: every active wallet of the user is closed
    with reason [period_reset] and its usage kept, a new wallet with the
    plan's full quota and the subscription's period end is opened, and a
    new request of an amount within the plan's quota is reserved on it,
    whatever had been used before.  The new wallet is the user's active
    wallet, and it is within its period at a later time exactly when the
    subscription's own period end is later than that time. *)
Theorem reserve_after_period_end_rolls_over st u r action amount now sub plan e :
  wallet_ids_ok st →
  r ≠ "" →
  getSubscription st u = Some sub →
  Subscription.user_id sub = u →
  Subscription.is_active sub = true →
  getPlanConfigById PLAN_CONFIG (Subscription.plan_id sub) = Some plan →
  JS.truthy (Subscription.current_period_start sub) = true →
  Subscription.current_period_end sub = Some e → e ≠ "" →
  (∀ w, getActiveWallet st u = Some w →
        wallet_still_running Date_parse sub w now = false) →
  quota_usages st !! usage_doc_id u r = None →
  0 ≤ amount ≤ QuotaConfig.quota plan →
  ∃ w st',
    reserveUsage PLAN_CONFIG Date_parse st u r action amount now =
    (mkReserveResult true (usage_status Usage.reserved)
       (QuotaConfig.quota plan - amount) (Some (Wallet.id w)), st') ∧
    quota_wallets st !! Wallet.id w = None ∧
    getActiveWallet st' u = Some w ∧
    Wallet.quota_total w = QuotaConfig.quota plan ∧
    Wallet.quota_used w = amount ∧
    Wallet.period_end w = Some e ∧
    (∀ now', wallet_still_running Date_parse sub w now' = JSDate.gt (Date_parse e) now') ∧
    (∀ k w0, quota_wallets st !! k = Some w0 →
       if matches_active u w0
       then quota_wallets st' !! k =
            Some (close_wallet "period_reset" false (JSDate.format now) w0)
       else quota_wallets st' !! k = Some w0).
Proof.
  intros Hids Hr Hsub Hu Hact Hplan Hstart Hend He Hstale Hnew Hamt.
  assert (JS.truthy (Subscription.current_period_end sub) = true) as Hend'.
  { rewrite Hend. by apply truthy_nonempty. }
  destruct (ensureActiveWallet_rollover st u sub now plan Hids Hu Hact Hplan Hstart
              Hend' Hstale)
    as (w & st1 & Hens & Hgaw & Hids1 & Hfresh & Htotal & Hused & Hpe & Hold).
  pose proof (ensureActiveWallet_result _ _ _ _ _ _ _ _ Hids Hens) as [Hw Hwact].
  pose proof (ensureActiveWallet_spec _ _ _ _ _ _ _ _ Hens) as (_ & Hus & _).
  set (w' := Wallet.update_usage w amount (Some (JSDate.format now)) (JSDate.format now)).
  exists w'. eexists. split.
  - unfold reserveUsage. rewrite truthy_nonempty by done. simpl.
    rewrite Hsub, Hact. simpl. rewrite Hens.
    unfold reserveUsage_tx. rewrite Hw, Hwact. simpl. rewrite Hus, Hnew.
    rewrite Hused, Htotal, Z.add_0_l.
    destruct (Z.ltb_spec (QuotaConfig.quota plan) amount) as [?|_]; [lia|].
    rewrite Z.max_r by lia. reflexivity.
  - split; [done|]. split.
    { apply (is_first_getActiveWallet Date_parse). simpl.
      pose proof (getActiveWallet_lookup Date_parse _ _ _ Hids1 Hgaw) as Hfirst.
      pose proof (is_first_insert _ _ _ _ (Wallet.id w) w w' Hw eq_refl eq_refl
                    eq_refl Hfirst) as Hfirst'.
      by rewrite decide_True in Hfirst'. }
    split; [done|split; [done|split; [simpl; congruence|split]]].
    + intros now'. unfold wallet_still_running. simpl. rewrite Hpe, Hend.
      unfold date_of. destruct e; [done|]. done.
    + intros k w0 Hk. specialize (Hold k w0 Hk). simpl.
      rewrite lookup_insert_ne; [done|].
      intros <-. congruence.
Qed.

End Rollover.

(** ** The further properties on sample data *)

Lemma default_catalog_quotas_nonneg : catalog_quotas_nonneg default_plans.
Proof.
  intros plan Hin. unfold default_plans, QuotaConfig.DEFAULT_PLAN_CONFIG in Hin.
  repeat (apply elem_of_cons in Hin as [->|Hin]; [simpl; lia|]).
  by apply elem_of_nil in Hin.
Qed.

Lemma sample_store_bounds used :
  0 ≤ used ≤ 100 → all_wallets_within_bounds (sample_store feb feb used ∅).
Proof.
  intros Hused k w. simpl. intros [<- <-]%lookup_singleton_Some. simpl. lia.
Qed.

Lemma sample_store_amounts used : usage_amounts_nonneg (sample_store feb feb used ∅).
Proof. intros k us. simpl. by rewrite lookup_empty. Qed.

Lemma sample_store_ids_ok used usages :
  wallet_ids_ok (sample_store feb feb used usages).
Proof. by apply (wallet_ids_ok_singleton _ "w1" (sample_wallet used feb)). Qed.

Lemma sample_store_subscription_ids_ok used usages :
  subscription_ids_ok (sample_store feb feb used usages).
Proof. intros k s. simpl. by intros [<- <-]%lookup_singleton_Some. Qed.

Lemma sample_store_single used usages :
  single_active_wallet (sample_store feb feb used usages).
Proof.
  intros u k1 k2 w1 w2. simpl.
  by intros [<- <-]%lookup_singleton_Some [<- <-]%lookup_singleton_Some.
Qed.

Lemma sample_store_keys_ok used : store_keys_ok (sample_store feb feb used ∅).
Proof.
  split; [apply sample_store_ids_ok|split; [|split]].
  - intros k s. simpl. intros [<- <-]%lookup_singleton_Some.
    split; [done|split; [done|]]. split; [by left|done].
  - intros k us. simpl. by rewrite lookup_empty.
  - intros k e. simpl. by rewrite lookup_empty.
Qed.

Lemma sample_store_balanced : ledger_balanced (sample_store feb feb 0 ∅).
Proof.
  split.
  - intros k w. simpl. by intros [<- <-]%lookup_singleton_Some.
  - intros k us. simpl. by rewrite lookup_empty.
Qed.

Lemma sample_calls_amounts : Forall call_amount_nonneg sample_calls.
Proof. repeat constructor; simpl; lia. Qed.

Lemma sample_plan_calls_no_event :
  Forall (λ c, ¬ is_billing_event c) sample_plan_calls.
Proof. repeat constructor; simpl; tauto. Qed.

Lemma sample_plan_calls_ledger :
  Forall (λ c, ¬ is_billing_event c ∧ call_amount_nonneg c) sample_plan_calls.
Proof. repeat constructor; simpl; try tauto; lia. Qed.

Lemma every_wallet_stays_within_total_witness :
  catalog_quotas_nonneg default_plans ∧
  all_wallets_within_bounds (sample_store feb feb 99 ∅) ∧
  usage_amounts_nonneg (sample_store feb feb 99 ∅) ∧
  Forall call_amount_nonneg sample_calls ∧
  all_wallets_within_bounds
    (documents (run_calls default_plans JSDate.parseISO
                  (sample_db (sample_store feb feb 99 ∅)) sample_calls)).
Proof.
  assert (H1 : all_wallets_within_bounds (sample_store feb feb 99 ∅)).
  { apply sample_store_bounds. lia. }
  exact (conj default_catalog_quotas_nonneg (conj H1 (conj (sample_store_amounts 99)
    (conj sample_calls_amounts
       (every_wallet_stays_within_total default_plans JSDate.parseISO
          default_catalog_quotas_nonneg (sample_db (sample_store feb feb 99 ∅))
          sample_calls H1 (sample_store_amounts 99) sample_calls_amounts))))).
Defined.

Lemma one_active_wallet_per_user_witness :
  single_active_wallet (sample_store feb feb 5 ∅) ∧
  Forall (λ c, ¬ is_billing_event c) sample_plan_calls ∧
  single_active_wallet
    (documents (run_calls default_plans JSDate.parseISO
                  (sample_db (sample_store feb feb 5 ∅)) sample_plan_calls)).
Proof.
  exact (conj (sample_store_single 5 ∅) (conj sample_plan_calls_no_event
    (one_active_wallet_per_user default_plans JSDate.parseISO
       (sample_db (sample_store feb feb 5 ∅)) sample_plan_calls
       (sample_store_single 5 ∅) sample_plan_calls_no_event))).
Defined.

Lemma documents_stay_well_keyed_witness :
  store_keys_ok (sample_store feb feb 5 ∅) ∧
  store_keys_ok
    (documents (run_calls default_plans JSDate.parseISO
                  (sample_db (sample_store feb feb 5 ∅)) sample_calls)).
Proof.
  exact (conj (sample_store_keys_ok 5)
    (documents_stay_well_keyed default_plans JSDate.parseISO
       (sample_db (sample_store feb feb 5 ∅)) sample_calls (sample_store_keys_ok 5))).
Defined.

Lemma quota_used_is_sum_of_held_amounts_witness :
  wallet_ids_ok (sample_store feb feb 0 ∅) ∧
  usage_amounts_nonneg (sample_store feb feb 0 ∅) ∧
  ledger_balanced (sample_store feb feb 0 ∅) ∧
  Forall (λ c, ¬ is_billing_event c ∧ call_amount_nonneg c) sample_plan_calls ∧
  ledger_balanced
    (documents (run_calls default_plans JSDate.parseISO
                  (sample_db (sample_store feb feb 0 ∅)) sample_plan_calls)).
Proof.
  exact (conj (sample_store_ids_ok 0 ∅) (conj (sample_store_amounts 0)
    (conj sample_store_balanced (conj sample_plan_calls_ledger
       (quota_used_is_sum_of_held_amounts default_plans JSDate.parseISO
          (sample_db (sample_store feb feb 0 ∅)) sample_plan_calls
          (sample_store_ids_ok 0 ∅) (sample_store_amounts 0) sample_store_balanced
          sample_plan_calls_ledger))))).
Defined.

Lemma settled_usage_is_final_witness :
  let st1 := (commitUsage replay_store "u" "r1" sample_now).2 in
  let st2 :=
    documents (run_calls default_plans JSDate.parseISO (mkDatabase ∅ st1) sample_calls) in
  commitUsage replay_store "u" "r1" sample_now = (Some Usage.committed, st1) ∧
  rollbackUsage st2 "u" "r1" leap_day = (Some Usage.committed, st2).
Proof.
  intros st1 st2.
  assert (H1 : commitUsage replay_store "u" "r1" sample_now = (Some Usage.committed, st1)).
  { vm_compute. reflexivity. }
  exact (conj H1
    (proj2 (settled_usage_is_final default_plans JSDate.parseISO (sample_db replay_store)
              "u" "r1" sample_now Usage.committed st1 sample_calls (or_introl H1)
              leap_day))).
Defined.

Lemma reserve_debits_iff_it_creates_witness :
  let st := sample_store feb feb 5 ∅ in
  let out := reserveUsage default_plans JSDate.parseISO st "u" "r1" "ai_detect" 1 sample_now in
  wallet_ids_ok st ∧
  quota_usages st !! usage_doc_id "u" "r1" = None ∧
  allowed out.1 = true ∧
  status out.1 = usage_status Usage.reserved ∧
  ∃ wid, walletId out.1 = Some wid ∧
         ∀ k, quota_used_of out.2 k =
              quota_used_of st k + (if decide (k = wid) then 1 else 0).
Proof.
  intros st out.
  assert (H1 : quota_usages st !! usage_doc_id "u" "r1" = None) by reflexivity.
  assert (H2 : allowed out.1 = true) by (vm_compute; reflexivity).
  destruct (proj1 (reserve_debits_iff_it_creates default_plans JSDate.parseISO st
                     "u" "r1" "ai_detect" 1 sample_now (sample_store_ids_ok 5 ∅))
              (conj H1 H2)) as (Hs & wid & Hwid & _ & Hused).
  exact (conj (sample_store_ids_ok 5 ∅) (conj H1 (conj H2 (conj Hs
           (ex_intro _ wid (conj Hwid Hused)))))).
Defined.

Lemma revoking_event_ends_access_witness :
  let st := sample_store feb feb 5 ∅ in
  let st' := processRevenueCatEvent default_plans st refund_event sample_now in
  webhook_events st !! getWebhookEventId refund_event = None ∧
  isRefundEvent (normalizeEventType (Some (eventType refund_event)))
  || isExpirationEvent (normalizeEventType (Some (eventType refund_event)))
  || isBillingIssueEvent (normalizeEventType (Some (eventType refund_event))) = true ∧
  getActiveWallet st' "u" = None ∧
  reserveUsage default_plans JSDate.parseISO st' "u" "r1" "ai_detect" 1 sample_now =
  (mkReserveResult false rejected 0 None, st').
Proof.
  intros st st'.
  assert (H1 : webhook_events st !! getWebhookEventId refund_event = None)
    by reflexivity.
  assert (H2 : isRefundEvent (normalizeEventType (Some (eventType refund_event)))
               || isExpirationEvent (normalizeEventType (Some (eventType refund_event)))
               || isBillingIssueEvent (normalizeEventType (Some (eventType refund_event)))
               = true) by reflexivity.
  destruct (revoking_event_ends_access default_plans JSDate.parseISO st refund_event
              sample_now H1 H2) as (_ & Hreject & Hclosed).
  exact (conj H1 (conj H2
    (conj (proj1 (Hclosed (sample_subscription feb) eq_refl eq_refl))
          (Hreject "r1" "ai_detect" 1 sample_now)))).
Defined.

Lemma snapshot_agrees_with_reserve_witness :
  let st := sample_store feb feb 5 ∅ in
  let out := reserveUsage default_plans JSDate.parseISO st "u" "r1" "ai_detect" 1 sample_now in
  wallet_ids_ok st ∧ subscription_ids_ok st ∧
  walletId out.1 = Some "w1" ∧
  ∃ snap,
    getQuotaSnapshot default_plans out.2 "u" = Some snap ∧
    QuotaSnapshot.walletId snap = Some "w1" ∧
    QuotaSnapshot.quotaRemaining snap = remaining out.1.
Proof.
  intros st out.
  assert (H1 : walletId out.1 = Some "w1") by (vm_compute; reflexivity).
  destruct (snapshot_agrees_with_reserve default_plans JSDate.parseISO st "u" "r1"
              "ai_detect" 1 sample_now out.1 out.2 "w1" (sample_store_ids_ok 5 ∅)
              (sample_store_subscription_ids_ok 5 ∅) (surjective_pairing out) H1)
    as (snap & Hsnap & Hwid & Hrem & _).
  exact (conj (sample_store_ids_ok 5 ∅) (conj (sample_store_subscription_ids_ok 5 ∅)
    (conj H1 (ex_intro _ snap (conj Hsnap (conj Hwid Hrem)))))).
Defined.

Lemma sample_year_in_range : 1970 ≤ JSDate.getUTCFullYear sample_now ≤ 275758.
Proof. simpl. lia. Qed.

Lemma plan_sync_grants_full_quota_witness :
  let plan := QuotaConfig.mkPlanConfig "premium_yearly" "pro" QuotaConfig.yearly 1000
                ["ai_or_real_premium:aiorreal-yearly"; "aiorreal-yearly"] in
  let st := sample_store feb feb 5 ∅ in
  JSDate.valid sample_now ∧
  1970 ≤ JSDate.getUTCFullYear sample_now ≤ 275758 ∧
  wallet_ids_ok st ∧
  getPlanConfigById default_plans (resolvePlanId default_plans (Some "aiorreal-yearly"))
    = Some plan ∧
  QuotaConfig.planId plan ≠ "free" ∧
  QuotaConfig.planId plan ≠ "" ∧
  ∃ st' w,
    syncQuotaFromPlan default_plans st "u" (Some "aiorreal-yearly") sample_now = Some st' ∧
    getActiveWallet st' "u" = Some w ∧
    Wallet.quota_total w = 1000 ∧ Wallet.quota_used w = 0.
Proof.
  intros plan st.
  assert (H1 : getPlanConfigById default_plans
                 (resolvePlanId default_plans (Some "aiorreal-yearly")) = Some plan)
    by (vm_compute; reflexivity).
  assert (H2 : QuotaConfig.planId plan ≠ "free") by discriminate.
  assert (H3 : QuotaConfig.planId plan ≠ "") by discriminate.
  destruct (plan_sync_grants_full_quota default_plans JSDate.parseISO st "u"
              (Some "aiorreal-yearly") sample_now plan valid_sample_now
              sample_year_in_range (sample_store_ids_ok 5 ∅) H1 H2 H3)
    as (st' & w & snap & Hsync & Hw & _ & Htotal & Hused & _).
  exact (conj valid_sample_now (conj sample_year_in_range
    (conj (sample_store_ids_ok 5 ∅) (conj H1 (conj H2 (conj H3
       (ex_intro _ st' (ex_intro _ w (conj Hsync (conj Hw (conj Htotal Hused))))))))))).
Defined.

Lemma plan_sync_to_free_plan_revokes_witness :
  let plan := QuotaConfig.mkPlanConfig "free" "free" QuotaConfig.monthly 2 [] in
  let st := sample_store feb feb 5 ∅ in
  JSDate.valid sample_now ∧
  1970 ≤ JSDate.getUTCFullYear sample_now ≤ 275758 ∧
  getPlanConfigById default_plans (resolvePlanId default_plans (Some " Free "))
    = Some plan ∧
  QuotaConfig.planId plan = "free" ∧
  ∃ st',
    syncQuotaFromPlan default_plans st "u" (Some " Free ") sample_now = Some st' ∧
    reserveUsage default_plans JSDate.parseISO st' "u" "r1" "ai_detect" 1 sample_now =
    (mkReserveResult false rejected 0 None, st').
Proof.
  intros plan st.
  assert (H1 : getPlanConfigById default_plans
                 (resolvePlanId default_plans (Some " Free ")) = Some plan)
    by (vm_compute; reflexivity).
  destruct (plan_sync_to_free_plan_revokes default_plans JSDate.parseISO st "u"
              (Some " Free ") sample_now plan valid_sample_now sample_year_in_range
              H1 eq_refl)
    as (st' & sub & Hsync & _ & _ & _ & _ & _ & Hreject).
  exact (conj valid_sample_now (conj sample_year_in_range (conj H1 (conj eq_refl
    (ex_intro _ st' (conj Hsync (Hreject "r1" "ai_detect" 1 sample_now))))))).
Defined.

Lemma ensureQuotaForUser_reads_back_witness :
  let out := ensureQuotaForUser default_plans (sample_db empty_store) "x"
               (Some premium_monthly_status) sample_now in
  let r := getQuotaSnapshot default_plans (documents out.2) "x" in
  out = (Some r, out.2) ∧ is_Some r ∧
  ∀ ps' now',
    (ensureQuotaForUser default_plans out.2 "x" ps' now').1 = Some r ∧
    documents (ensureQuotaForUser default_plans out.2 "x" ps' now').2 = documents out.2.
Proof.
  intros out r.
  assert (H1 : out = (Some r, out.2)) by (vm_compute; reflexivity).
  assert (H2 : is_Some r) by (vm_compute; eauto).
  destruct (ensureQuotaForUser_reads_back default_plans (sample_db empty_store) "x"
              (Some premium_monthly_status) sample_now r out.2 H1)
    as (_ & _ & _ & _ & Hagain).
  exact (conj H1 (conj H2 (Hagain H2))).
Defined.

Lemma first_premium_login_opens_wallet_witness :
  let plan := QuotaConfig.mkPlanConfig "premium_monthly" "base" QuotaConfig.monthly 100
                ["ai_or_real_premium:aiorreal-monthly"; "aiorreal-monthly"] in
  JSDate.valid sample_now ∧
  1970 ≤ JSDate.getUTCFullYear sample_now ≤ 275758 ∧
  wallet_ids_ok empty_store ∧
  getSubscription empty_store "x" = None ∧
  Some premium_monthly_status ≫= premium = Some true ∧
  getPlanConfigById default_plans
    (resolvePlanId default_plans
       (resolvePlanId default_plans
          (Some premium_monthly_status ≫= entitlementProductId))) = Some plan ∧
  ∃ snap db',
    ensureQuotaForUser default_plans (sample_db empty_store) "x"
      (Some premium_monthly_status) sample_now = (Some (Some snap), db') ∧
    QuotaSnapshot.isActive snap = true ∧
    QuotaSnapshot.quotaTotal snap = 100 ∧
    QuotaSnapshot.quotaUsed snap = 0.
Proof.
  intros plan.
  assert (H1 : wallet_ids_ok empty_store).
  { intros k w. simpl. by rewrite lookup_empty. }
  assert (H2 : getPlanConfigById default_plans
                 (resolvePlanId default_plans
                    (resolvePlanId default_plans
                       (Some premium_monthly_status ≫= entitlementProductId)))
               = Some plan) by (vm_compute; reflexivity).
  assert (H3 : QuotaConfig.planId plan ≠ "free") by discriminate.
  assert (H4 : QuotaConfig.planId plan ≠ "") by discriminate.
  destruct (first_premium_login_opens_wallet default_plans JSDate.parseISO
              (sample_db empty_store) "x" (Some premium_monthly_status) sample_now plan
              valid_sample_now sample_year_in_range H1 eq_refl eq_refl H2 H3 H4)
    as (snap & db' & Hcall & Hact & _ & Htotal & Hused & _).
  exact (conj valid_sample_now (conj sample_year_in_range (conj H1 (conj eq_refl
    (conj eq_refl (conj H2
       (ex_intro _ snap (ex_intro _ db'
          (conj Hcall (conj Hact (conj Htotal Hused))))))))))).
Defined.

Lemma purchase_without_change_adds_a_wallet_witness :
  let st := sample_store feb feb 5 ∅ in
  let st' := processRevenueCatEvent default_plans st uncancellation_event sample_now in
  webhook_events st !! getWebhookEventId uncancellation_event = None ∧
  isPurchaseEvent (normalizeEventType (Some (eventType uncancellation_event))) = true ∧
  getSubscription st "u" = Some (sample_subscription feb) ∧
  quota_wallets st !! "w1" = Some (sample_wallet 5 feb) ∧
  matches_active "u" (sample_wallet 5 feb) = true ∧
  quota_wallets st' !! "w1" = Some (sample_wallet 5 feb) ∧
  ∃ k' w', k' ≠ "w1" ∧ quota_wallets st' !! k' = Some w' ∧
           matches_active "u" w' = true ∧ Wallet.quota_used w' = 0.
Proof.
  intros st st'.
  assert (H1 : webhook_events st !! getWebhookEventId uncancellation_event = None)
    by reflexivity.
  assert (H2 : isPurchaseEvent
                 (normalizeEventType (Some (eventType uncancellation_event))) = true)
    by reflexivity.
  assert (H3 : ¬ plan_changed
                 (next_plan default_plans (payload_plan default_plans uncancellation_event)
                    (Some (sample_subscription feb)))
                 (Some (sample_subscription feb))).
  { intros (plan & old & Hplan & Hold & _ & Hdiff).
    vm_compute in Hplan. injection Hplan as <-.
    simpl in Hold. injection Hold as <-. by apply Hdiff. }
  assert (H4 : ¬ period_changed uncancellation_event (Some (sample_subscription feb))).
  { by intros (pe & old & Hpe & _). }
  assert (H5 : is_Some (getPlanConfigById default_plans
                 (Subscription.plan_id
                    (nextSubscription
                       (subscription_tx default_plans uncancellation_event
                          (normalizeEventType (Some (eventType uncancellation_event)))
                          (payload_plan default_plans uncancellation_event)
                          (Some (sample_subscription feb)) (JSDate.format sample_now)))))).
  { eexists. vm_compute. reflexivity. }
  destruct (purchase_without_change_adds_a_wallet default_plans st uncancellation_event
              sample_now (sample_subscription feb) "w1" (sample_wallet 5 feb)
              H1 H2 eq_refl H3 H4 H5 eq_refl eq_refl)
    as (Hkeep & k' & w' & Hne & _ & Hk' & Hm & Hused).
  exact (conj H1 (conj H2 (conj eq_refl (conj eq_refl (conj eq_refl (conj Hkeep
    (ex_intro _ k' (ex_intro _ w' (conj Hne (conj Hk' (conj Hm Hused))))))))))).
Defined.

Lemma distinct_provider_ids_are_both_processed_witness :
  let st1 := processRevenueCatEvent default_plans empty_store renewal_event sample_now in
  let st2 := processRevenueCatEvent default_plans st1 refund_event leap_day in
  eventId renewal_event = Some "E2" ∧ eventId refund_event = Some "E3" ∧
  webhook_events empty_store !! getWebhookEventId refund_event = None ∧
  is_Some (webhook_events st2 !! getWebhookEventId renewal_event) ∧
  ∃ doc, webhook_events st2 !! getWebhookEventId refund_event = Some doc ∧
         WebhookEvent.rc_event_id doc = "E3" ∧
         WebhookEvent.status doc = WebhookEvent.processed.
Proof.
  intros st1 st2.
  assert (H1 : "E2" ≠ "") by discriminate.
  assert (H2 : "E3" ≠ "") by discriminate.
  assert (H3 : "E2" ≠ "E3") by discriminate.
  destruct (distinct_provider_ids_are_both_processed default_plans empty_store
              renewal_event refund_event sample_now leap_day "E2" "E3"
              eq_refl H1 eq_refl H2 H3 eq_refl)
    as (_ & Hfirst & Hsecond & _).
  exact (conj eq_refl (conj eq_refl (conj eq_refl (conj Hfirst Hsecond)))).
Defined.

Lemma plan_found_by_its_own_id_witness :
  let plan := QuotaConfig.mkPlanConfig "premium_yearly" "pro" QuotaConfig.yearly 1000
                ["ai_or_real_premium:aiorreal-yearly"; "aiorreal-yearly"] in
  getPlanConfigById default_plans (Some "  Premium_Yearly ") = Some plan ∧
  getPlanConfigById default_plans (Some "premium_yearly") = Some plan ∧
  getPlanConfigById default_plans (Some (JS.toUpperCase "premium_yearly")) = Some plan.
Proof.
  intros plan.
  assert (H1 : getPlanConfigById default_plans (Some "  Premium_Yearly ") = Some plan)
    by (vm_compute; reflexivity).
  assert (H2 : QuotaConfig.planId plan ≠ "") by discriminate.
  exact (conj H1
    (proj2 (proj2 (plan_found_by_its_own_id default_plans _ plan H1)) H2)).
Defined.

Lemma reserve_after_period_end_rolls_over_witness :
  let plan := QuotaConfig.mkPlanConfig "premium_monthly" "base" QuotaConfig.monthly 100
                ["ai_or_real_premium:aiorreal-monthly"; "aiorreal-monthly"] in
  let st := sample_store past past 100 ∅ in
  let out := reserveUsage default_plans JSDate.parseISO st "u" "r1" "ai_detect" 1 sample_now in
  wallet_ids_ok st ∧
  getSubscription st "u" = Some (sample_subscription past) ∧
  getPlanConfigById default_plans (Subscription.plan_id (sample_subscription past))
    = Some plan ∧
  (∀ w, getActiveWallet st "u" = Some w →
        wallet_still_running JSDate.parseISO (sample_subscription past) w sample_now
        = false) ∧
  Wallet.quota_used <$> quota_wallets st !! "w1" = Some 100 ∧
  allowed out.1 = true ∧
  remaining out.1 = 99.
Proof.
  intros plan st out.
  assert (H1 : wallet_ids_ok st).
  { by apply (wallet_ids_ok_singleton _ "w1" (sample_wallet 100 past)). }
  assert (H2 : "r1" ≠ "") by discriminate.
  assert (H3 : getPlanConfigById default_plans
                 (Subscription.plan_id (sample_subscription past)) = Some plan)
    by (vm_compute; reflexivity).
  assert (H4 : past ≠ "") by discriminate.
  assert (H5 : ∀ w, getActiveWallet st "u" = Some w →
                    wallet_still_running JSDate.parseISO (sample_subscription past) w
                      sample_now = false).
  { intros w Hw. vm_compute in Hw. injection Hw as <-. vm_compute. reflexivity. }
  assert (H6 : 0 ≤ 1 ≤ QuotaConfig.quota plan) by (simpl; lia).
  destruct (reserve_after_period_end_rolls_over default_plans JSDate.parseISO st "u" "r1"
              "ai_detect" 1 sample_now (sample_subscription past) plan past
              H1 H2 eq_refl eq_refl eq_refl H3 eq_refl eq_refl H4 H5 eq_refl H6)
    as (w & st' & Hres & _).
  fold out in Hres.
  exact (conj H1 (conj eq_refl (conj H3 (conj H5 (conj eq_refl
    (conj (f_equal (λ o, allowed o.1) Hres) (f_equal (λ o, remaining o.1) Hres))))))).
Defined.
